(** * W3U-Basic-Navigator: a shallow embedding of [w3u_navigator.py]

    The program fetches a playlist document (JSON), keeps a copy of it in
    a file named after the URL, and walks it from the terminal.  This
    file embeds the functions of [w3u_navigator.py] and states the
    properties of its specification over them.

    Conventions.
    - A Python [str] is a list of Unicode code points ([list N]).
    - A value read by [json.loads] is a [json] tree; a [dict] is the list
      of its items in insertion order, with distinct keys.
    - Effects (files of the working directory, the shared [history] list,
      the lines typed at the terminal, what is printed or launched) are
      threaded through a state-and-exception monad over [world].
    - Left out: errors of the file system and of text encodings, the
      call [sys.stdout.reconfigure], and what the launched player or
      browser does. *)

From Stdlib Require Import NArith ZArith Lia List Bool Ascii String.
From Stdlib Require Import DecimalPos DecimalN.
From stdpp Require Import base option list gmap.
Import ListNotations.

Set Warnings "-register-all".

Local Open Scope N_scope.
Local Open Scope list_scope.

(** ** Python strings *)

Abbreviation char := N (only parsing).
Abbreviation str := (list N) (only parsing).

(** An ASCII literal read as a Python [str], one code point per
    character. *)
Definition py (s : string) : str :=
  List.map N_of_ascii (list_ascii_of_string s).

(** The same, with every apostrophe of the literal standing for a double
    quote: JSON texts are written [{'name':'Root'}]. *)
Definition pyj (s : string) : str :=
  List.map (fun c => if c =? 39 then 34 else c) (py s).

Definition comma : char := 44.        (* ',' *)
Definition rbrace : char := 125.      (* '}' *)
Definition rbracket : char := 93.     (* ']' *)

(** [\s] of [re] on a [str] pattern, which is also what [str.strip] and
    [str.isspace] test: CPython's [Py_UNICODE_ISSPACE]. *)
Definition is_space (c : char) : bool :=
  ((9 <=? c) && (c <=? 13)) || ((28 <=? c) && (c <=? 32))
  || (c =? 133) || (c =? 160) || (c =? 5760)
  || ((8192 <=? c) && (c <=? 8202))
  || (c =? 8232) || (c =? 8233) || (c =? 8239) || (c =? 8287)
  || (c =? 12288).

(** The class [[}\]]]. *)
Definition is_closer (c : char) : bool := (c =? rbrace) || (c =? rbracket).

(** The class [[\x00-\x1F\x7F]]. *)
Definition is_control (c : char) : bool := (c <=? 31) || (c =? 127).

(** ** Sanitizer ([clean_json]) *)

Module Sanitizer.

(** The rest of the pattern [,\s*([}\]])] once the comma is read: the
    greedy [\s*] and the closer.  A closer is no whitespace, so giving
    back whitespace never helps and the match is decided by the first
    character after the run.  Returns group 1 and the text after the
    match. *)
Fixpoint match_tail (s : str) : option (char * str) :=
  match s with
  | [] => None
  | c :: t =>
      if is_space c then match_tail t
      else if is_closer c then Some (c, t)
      else None
  end.

(** [re.sub(r',\s*([}\]])', r'\1', content)]: scanning from the left, a
    match is replaced by its group 1 and the scan resumes after the
    match; a character where no match starts is copied. *)
Fixpoint re_sub_trailing (fuel : nat) (s : str) : str :=
  match fuel with
  | O => s
  | S fuel' =>
      match s with
      | [] => []
      | c :: t =>
          if c =? comma then
            match match_tail t with
            | Some (d, rest) => d :: re_sub_trailing fuel' rest
            | None => c :: re_sub_trailing fuel' t
            end
          else c :: re_sub_trailing fuel' t
      end
  end.

Definition remove_trailing_commas (s : str) : str :=
  re_sub_trailing (length s) s.

(** [re.sub(r'[\x00-\x1F\x7F]', '', content)]. *)
Definition remove_control (s : str) : str :=
  List.filter (fun c => negb (is_control c)) s.

Definition clean_json (content : str) : str :=
  let content := remove_trailing_commas content in
  let content := remove_control content in
  content.

End Sanitizer.

(** ** Texts on which one pass of the sanitizer is enough *)

Module SanitizerSpec.
Import Sanitizer.

(** Characters that the two passes together may take out between a comma
    and what follows it. *)
Definition is_gap (c : char) : bool := is_space c || is_control c.

(** First character that is neither whitespace nor a control character. *)
Fixpoint peek (s : str) : option char :=
  match s with
  | [] => None
  | c :: t => if is_gap c then peek t else Some c
  end.

Definition closer_next (s : str) : bool :=
  match peek s with Some d => is_closer d | None => false end.

(** First character that is neither whitespace, a control character nor
    a comma. *)
Fixpoint lookahead (s : str) : option char :=
  match s with
  | [] => None
  | c :: t => if is_gap c || (c =? comma) then lookahead t else Some c
  end.

Definition closer_ahead (s : str) : bool :=
  match lookahead s with Some d => is_closer d | None => false end.

(** [comma_ok t], for [t] the text after a comma: if only whitespace,
    control characters and commas stand between the comma and a closer,
    then whitespace alone does. *)
Definition comma_ok (t : str) : bool :=
  implb (closer_ahead t) (bool_decide (is_Some (match_tail t))).

(** Every comma of the text is [comma_ok]. *)
Fixpoint single_trailing_commas (s : str) : bool :=
  match s with
  | [] => true
  | c :: t =>
      (if c =? comma then comma_ok t else true) && single_trailing_commas t
  end.

(** No comma of the text is followed, across whitespace and control
    characters, by a closer. *)
Fixpoint no_pending (s : str) : bool :=
  match s with
  | [] => true
  | c :: t =>
      (if c =? comma then negb (closer_next t) else true) && no_pending t
  end.

End SanitizerSpec.

(** ** String methods used on URLs *)

Module Str.

(** [s.startswith(prefix)]. *)
Fixpoint startswith (prefix s : str) : bool :=
  match prefix, s with
  | [], _ => true
  | _ :: _, [] => false
  | a :: p, b :: t => (a =? b) && startswith p t
  end.

(** [s.endswith(suffix)]. *)
Definition endswith (suffix s : str) : bool :=
  startswith (rev suffix) (rev s).

(** [needle in s]. *)
Fixpoint contains (needle s : str) : bool :=
  startswith needle s
  || match s with
     | [] => false
     | _ :: t => contains needle t
     end.

(** [s.replace(old, new)] for a non-empty [old]: occurrences are taken
    from the left and do not overlap. *)
Fixpoint replace_from (fuel : nat) (old new s : str) : str :=
  match fuel with
  | O => s
  | S fuel' =>
      match s with
      | [] => []
      | c :: t =>
          if startswith old s
          then new ++ replace_from fuel' old new (drop (length old) s)
          else c :: replace_from fuel' old new t
      end
  end.

Definition replace (old new s : str) : str :=
  replace_from (length s) old new s.

(** [s.lower()] on the letters A to Z.  The only use is the search for
    [type=m3u_plus] in a lowered URL, and no character outside A to Z
    lowers to a character of that marker, so the search gives what
    Python's full case mapping gives. *)
Definition lower_char (c : char) : char :=
  if (65 <=? c) && (c <=? 90) then c + 32 else c.

Definition lower (s : str) : str := List.map lower_char s.

(** [s.strip()]: whitespace off both ends. *)
Fixpoint lstrip (s : str) : str :=
  match s with
  | c :: t => if is_space c then lstrip t else s
  | [] => []
  end.

Definition strip (s : str) : str := rev (lstrip (rev (lstrip s))).

End Str.

(** ** URL Classifier (lines 176 to 190 of [navigate_w3u]) *)

Module Classifier.
Import Str.

Inductive kind := SubDocument | Media | WebPage.

(** [if "pastebin.com" in url and not "raw" in url:
       url = url.replace("pastebin.com", "pastebin.com/raw")]. *)
Definition alias_rewrite (selected_url : str) : str :=
  if contains (py "pastebin.com") selected_url
     && negb (contains (py "raw") selected_url)
  then replace (py "pastebin.com") (py "pastebin.com/raw") selected_url
  else selected_url.

Definition is_sub_document (u : str) : bool :=
  endswith (py ".w3u") u || endswith (py ".json") u
  || contains (py "raw.githubusercontent.com") u
  || contains (py "pastebin.com/raw") u.

Definition is_media (u : str) : bool :=
  endswith (py ".m3u") u
  || contains (lower (py "type=m3u_plus")) (lower u)
  || endswith (py ".mkv") u || endswith (py ".mp4") u.

(** The [if]/[elif]/[else] chain on the rewritten URL. *)
Definition classify (selected_url : str) : kind :=
  if is_sub_document selected_url then SubDocument
  else if is_media selected_url then Media
  else WebPage.

End Classifier.

(** ** Values and exceptions *)

Inductive json :=
| JNull                                   (* None *)
| JBool (b : bool)
| JNum (z : Z)                            (* an int *)
| JStr (s : str)
| JArr (items : list json)                (* a list *)
| JObj (items : list (str * json))        (* a dict, in insertion order *)
| JFloat (repr : str).                    (* a float, held as the text [repr] writes *)

Inductive exn :=
| AttributeError   (* a method of [dict] or [str] asked of another value *)
| TypeError        (* iterating, or testing [in], on a value that allows neither *)
| ValueError       (* [int()] on digits it cannot read; [urlparse] on a bad netloc *)
| IndexError
| OSError
| EOFError           (* [input()] at the end of the input *)
| JSONDecodeError
| RequestException.  (* any failure of [requests]: transport, bad status *)

(** A computation that returns or raises. *)
Inductive res (A : Type) :=
| Ok (a : A)
| Raise (e : exn).
Arguments Ok {A} a.
Arguments Raise {A} e.

Definition res_bind {A B} (m : res A) (k : A -> res B) : res B :=
  match m with
  | Ok a => k a
  | Raise e => Raise e
  end.

Declare Scope res_scope.
Delimit Scope res_scope with res.
Notation "x <- m ;; k" := (res_bind m (fun x => k))
  (at level 100, m at next level, right associativity) : res_scope.

Module Py.
Import Str.
Local Open Scope res_scope.

(** Truth value of a value in [if v:] and [not v]. *)
Definition truthy (v : json) : bool :=
  match v with
  | JNull => false
  | JBool b => b
  | JNum z => negb (z =? 0)%Z
  | JStr s => negb (bool_decide (s = []))
  | JArr l => negb (bool_decide (l = []))
  | JObj l => negb (bool_decide (l = []))
  | JFloat r => negb (bool_decide (r = py "0.0") || bool_decide (r = py "-0.0"))
  end.

Fixpoint assoc (key : str) (items : list (str * json)) : option json :=
  match items with
  | [] => None
  | (k, v) :: rest => if bool_decide (k = key) then Some v else assoc key rest
  end.

(** [d.get(key, dflt)]: only a [dict] has the method. *)
Definition get (d : json) (key : str) (dflt : json) : res json :=
  match d with
  | JObj items => Ok (default dflt (assoc key items))
  | _ => Raise AttributeError
  end.

(** The elements a [for] statement draws from [enumerate(v)]. *)
Definition iterate (v : json) : res (list json) :=
  match v with
  | JArr l => Ok l
  | JStr s => Ok (List.map (fun c => JStr [c]) s)
  | JObj items => Ok (List.map (fun kv => JStr (fst kv)) items)
  | _ => Raise TypeError
  end.

(** A [for] loop whose body may raise. *)
Fixpoint for_each {A S : Type} (body : A -> S -> res S) (l : list A) (st : S)
  : res S :=
  match l with
  | [] => Ok st
  | x :: rest => st' <- body x st ;; for_each body rest st'
  end.

(** [needle in v] for a [str] needle. *)
Definition py_in (needle : str) (v : json) : res bool :=
  match v with
  | JStr s => Ok (contains needle s)
  | JArr l => Ok (existsb (fun x => match x with
                                    | JStr s => bool_decide (s = needle)
                                    | _ => false
                                    end) l)
  | JObj items => Ok (existsb (fun kv => bool_decide (fst kv = needle)) items)
  | _ => Raise TypeError
  end.

End Py.

(** ** The menu of one page (lines 117 to 155 of [navigate_w3u]) *)

(** What is printed, kept as the values the f-strings interpolate. *)
Inductive line :=
| LName (name : json)                      (* the page's name, line 117 *)
| LOption (indent index : nat) (name : json) (url : str)
| LBackQuit                                (* [[B] Back] and [[Q] Quit] *)
| LCacheMessage (filename : str)
| LNoParent
| LInvalidChoice
| LValidationError
| LCacheError (filename : str)
| LFetchError (url : str)
| LSaved (filename : str)
| LOpeningVlc (url : str)
| LOpeningBrowser (url : str).

Module Menu.
Import Str Py.
Local Open Scope res_scope.

(** [format_url(url)]. *)
Definition format_url (url : json) : res str :=
  match url with
  | JStr u => Ok (if startswith (py "https://") u then drop 8 u else u)
  | _ => Raise AttributeError
  end.

(** The loop variables of one rendering: the counter, the list of
    [(selected, parent)] tuples and the lines printed so far. *)
Record menu := {
  option_index : nat;
  options : list (json * option json);
  printed : list line
}.

(** One printed entry: the three statements that every one of the four
    loops repeats for its entry. *)
Definition add_option (indent : nat) (unnamed : string)
    (entry : json) (parent : option json) (m : menu) : res menu :=
  url <- get entry (py "url") (JStr (py "No URL")) ;;
  shown_url <- format_url url ;;
  name <- get entry (py "name") (JStr (py unnamed)) ;;
  Ok {| option_index := S (option_index m);
        options := options m ++ [(entry, parent)];
        printed := printed m
                   ++ [LOption indent (option_index m) name shown_url] |}.

Definition add_nested_group (group nested_group : json) (m : menu) : res menu :=
  m <- add_option 2 "Unnamed Nested Group" nested_group (Some group) m ;;
  v <- get nested_group (py "stations") (JArr []) ;;
  nested_group_stations <- iterate v ;;
  for_each (fun nested_station =>
              add_option 4 "Unnamed Nested Station" nested_station
                         (Some nested_group))
           nested_group_stations m.

Definition add_group (group : json) (m : menu) : res menu :=
  m <- add_option 0 "Unnamed Group" group None m ;;
  v <- get group (py "stations") (JArr []) ;;
  group_stations <- iterate v ;;
  m <- for_each (fun station =>
                   add_option 2 "Unnamed Station" station (Some group))
                group_stations m ;;
  v <- get group (py "groups") (JArr []) ;;
  nested_groups <- iterate v ;;
  for_each (add_nested_group group) nested_groups m.

(** From [print(data.get('name', 'Unknown'))] to the end of the
    [if groups: ... elif stations: ...] statement.  The lines printed
    before an exception are not kept. *)
Definition render (data : json) : res menu :=
  name <- get data (py "name") (JStr (py "Unknown")) ;;
  groups <- get data (py "groups") (JArr []) ;;
  stations <- get data (py "stations") (JArr []) ;;
  let m := {| option_index := 0; options := []; printed := [LName name] |} in
  if truthy groups then
    gs <- iterate groups ;;
    for_each add_group gs m
  else if truthy stations then
    ss <- iterate stations ;;
    for_each (fun station => add_option 0 "Unnamed Station" station None) ss m
  else Ok m.

End Menu.

(** ** The world the program runs in *)

(** What [requests.get] gives back: no response at all, or a response
    with its status and its body.  [resp_text] is the body as first
    decoded (line 66), [resp_text_utf8] the body decoded again once
    [response.encoding] is set to UTF-8 (line 76). *)
Record response := {
  resp_ok : bool;
  resp_text : str;
  resp_text_utf8 : str
}.

(** A line typed at the terminal, as far as the program tests it (after
    [.strip().lower()] where the program applies them). *)
Inductive typed :=
| TQuit                 (* q *)
| TBack                 (* b *)
| TEmpty                (* nothing *)
| TYes                  (* y *)
| TDigits (n : nat)     (* [isdigit()] holds and [int()] reads [n] *)
| TBadDigits            (* [isdigit()] holds and [int()] raises *)
| TOther.

Inductive prompt :=
| PChoose
| PEnter
| PConfirmM3u (url : str).

Inductive event :=
| Clear
| Print (l : line)
| Asked (p : prompt)
| Sleep
| HttpGet (url : str)
| Vlc (url : str)
| Browser (url : str).

(** [files] is the working directory; [history] is the one list object
    that every call of [navigate_w3u] receives and mutates; [network]
    answers the [n]-th request of the session. *)
Record world := {
  files : gmap (list N) (list N);
  history : list (list N);
  stdin : list typed;
  trace : list event;
  requests : nat;
  network : nat -> list N -> option response
}.

(** The library functions the program calls and this file does not
    define. *)
Class PyLib := {
  (** [os.path.basename(urlparse(url).path)]; [None] when [urlparse]
      raises [ValueError]. *)
  url_basename : str -> option str;
  (** [json.loads]; [None] when it raises [JSONDecodeError]. *)
  json_loads : str -> option json;
  (** The text [json.dump(data, file, ensure_ascii=False, indent=4)]
      writes. *)
  json_dump : json -> str
}.

(** ** State and exceptions *)

Inductive outcome (A : Type) :=
| Done (a : A) (w : world)
| Raised (e : exn) (w : world)
| OutOfFuel.
Arguments Done {A} a w.
Arguments Raised {A} e w.
Arguments OutOfFuel {A}.

Definition M (A : Type) : Type := world -> outcome A.

Definition ret {A} (a : A) : M A := fun w => Done a w.

Definition bind {A B} (m : M A) (k : A -> M B) : M B :=
  fun w =>
    match m w with
    | Done a w' => k a w'
    | Raised e w' => Raised e w'
    | OutOfFuel => OutOfFuel
    end.

Definition raise {A} (e : exn) : M A := fun w => Raised e w.

(** [try: m  except <caught>: handler]. *)
Definition try_except {A} (m : M A) (caught : exn -> bool) (handler : M A)
  : M A :=
  fun w =>
    match m w with
    | Raised e w' => if caught e then handler w' else Raised e w'
    | o => o
    end.

Definition lift {A} (r : res A) : M A :=
  match r with
  | Ok a => ret a
  | Raise e => raise e
  end.

Declare Scope M_scope.
Delimit Scope M_scope with M.
Notation "x <- m ;; k" := (bind m (fun x => k))
  (at level 100, m at next level, right associativity) : M_scope.
Notation "m ;; k" := (bind m (fun _ => k))
  (at level 100, right associativity) : M_scope.

Module Effects.

(** Updates of one field of the world. *)
Definition log (evs : list event) (w : world) : world :=
  {| files := files w; history := history w; stdin := stdin w;
     trace := trace w ++ evs; requests := requests w; network := network w |}.

Definition set_stdin (l : list typed) (w : world) : world :=
  {| files := files w; history := history w; stdin := l;
     trace := trace w; requests := requests w; network := network w |}.

Definition set_files (f : gmap (list N) (list N)) (w : world) : world :=
  {| files := f; history := history w; stdin := stdin w; trace := trace w;
     requests := requests w; network := network w |}.

Definition set_history (h : list (list N)) (w : world) : world :=
  {| files := files w; history := h; stdin := stdin w; trace := trace w;
     requests := requests w; network := network w |}.

Definition count_request (w : world) : world :=
  {| files := files w; history := history w; stdin := stdin w;
     trace := trace w; requests := S (requests w); network := network w |}.

Definition emit (e : event) : M unit := fun w => Done tt (log [e] w).

Definition print (l : line) : M unit := emit (Print l).

(** The lines of a rendering, printed in order. *)
Definition print_all (lines : list line) : M unit :=
  fold_right (fun l k => bind (print l) (fun _ => k)) (ret tt) lines.

(** [input(prompt)]. *)
Definition input (p : prompt) : M typed :=
  fun w =>
    let w' := set_stdin (tail (stdin w)) (log [Asked p] w) in
    match stdin w with
    | [] => Raised EOFError w'
    | l :: _ => Done l w'
    end.

Definition path_exists (filename : str) : M bool :=
  fun w => Done (bool_decide (is_Some (files w !! filename))) w.

Definition read_file (filename : str) : M str :=
  fun w =>
    match files w !! filename with
    | Some content => Done content w
    | None => Raised OSError w
    end.

Definition write_file (filename content : str) : M unit :=
  fun w => Done tt (set_files (<[filename := content]> (files w)) w).

Definition remove_file (filename : str) : M unit :=
  fun w => Done tt (set_files (delete filename (files w)) w).

(** [history.append(url)]. *)
Definition history_append (url : str) : M unit :=
  fun w => Done tt (set_history (history w ++ [url]) w).

(** [history.pop()]. *)
Definition history_pop : M str :=
  fun w =>
    match last (history w) with
    | Some url => Done url (set_history (removelast (history w)) w)
    | None => Raised IndexError w
    end.

Definition history_len : M nat := fun w => Done (length (history w)) w.

(** [requests.get(url)]. *)
Definition requests_get (url : str) : M response :=
  fun w =>
    let w' := count_request (log [HttpGet url] w) in
    match network w (requests w) url with
    | Some r => Done r w'
    | None => Raised RequestException w'
    end.

End Effects.

(** ** Document Loader *)

Module Loader.
Import Str Py Sanitizer Effects.
Local Open Scope M_scope.

Section WithLib.
Context `{PyLib}.

Definition open_in_vlc (url : str) : M unit := emit (Vlc url).

Definition validate_json (content : str) : M bool :=
  match json_loads content with
  | Some _ => ret true
  | None => print LValidationError ;; ret false
  end.

Definition loads (content : str) : M json :=
  match json_loads content with
  | Some v => ret v
  | None => raise JSONDecodeError
  end.

Definition revalidate_and_clean_cache (filename : str) : M json :=
  content <- read_file filename ;;
  let cleaned_content := clean_json content in
  valid <- validate_json cleaned_content ;;
  if (valid : bool) then
    write_file filename cleaned_content ;;
    loads cleaned_content
  else raise JSONDecodeError.

Definition get_filename_from_url (url : str) : M str :=
  match url_basename url with
  | Some filename =>
      ret (if bool_decide (filename = []) then py "default.w3u" else filename)
  | None => raise ValueError
  end.

Definition is_json_error (e : exn) : bool :=
  match e with JSONDecodeError => true | _ => false end.

Definition is_fetch_error (e : exn) : bool :=
  match e with RequestException | JSONDecodeError => true | _ => false end.

(** [response.raise_for_status()]. *)
Definition raise_for_status (r : response) : M unit :=
  if resp_ok r then ret tt else raise RequestException.

(** Lines 55 to 60: [Some data] stands for [return data]. *)
Definition from_cache (filename : str) : M (option json) :=
  present <- path_exists filename ;;
  if (present : bool) then
    try_except
      (data <- revalidate_and_clean_cache filename ;; ret (Some data))
      is_json_error
      (print (LCacheError filename) ;; remove_file filename ;; ret None)
  else ret None.

(** Lines 62 to 91. *)
Definition from_network (url filename : str) : M json :=
  try_except
    (response <- requests_get url ;;
     if startswith (py "#EXTM3U") (strip (resp_text response)) then
       confirm <- input (PConfirmM3u url) ;;
       (match confirm with
        | TYes => print (LOpeningVlc url) ;; emit Sleep ;; open_in_vlc url
        | _ => ret tt
        end) ;;
       ret JNull
     else
       raise_for_status response ;;
       let cleaned_json := clean_json (resp_text_utf8 response) in
       valid <- validate_json cleaned_json ;;
       (if (valid : bool) then ret tt else raise JSONDecodeError) ;;
       data <- loads cleaned_json ;;
       write_file filename (json_dump data) ;;
       print (LSaved filename) ;;
       ret data)
    is_fetch_error
    (print (LFetchError url) ;; input PEnter ;; ret JNull).

(** The name of the cache file, when [urlparse] accepts the URL. *)
Definition cache_name (url : str) : option str :=
  match url_basename url with
  | Some filename =>
      Some (if bool_decide (filename = []) then py "default.w3u" else filename)
  | None => None
  end.

(** The cache does not answer for [filename]: there is no such file, or
    its text is invalid even when sanitized. *)
Definition cache_misses (filename : str) (w : world) : Prop :=
  files w !! filename = None
  \/ exists c, files w !! filename = Some c
               /\ json_loads (clean_json c) = None.

(** The request for [url] fails in [w]: no response, or a response that
    is no media playlist and has a bad status or a body that is still
    invalid once sanitized. *)
Definition fetch_fails (url : str) (w : world) : Prop :=
  match network w (requests w) url with
  | None => True
  | Some r =>
      startswith (py "#EXTM3U") (strip (resp_text r)) = false
      /\ (resp_ok r = false
          \/ json_loads (clean_json (resp_text_utf8 r)) = None)
  end.

(** [fetch_w3u(url)]; [JNull] is Python's [None]. *)
Definition fetch_w3u (url : str) : M json :=
  filename <- get_filename_from_url url ;;
  cached <- from_cache filename ;;
  match cached with
  | Some data => ret data
  | None => from_network url filename
  end.

End WithLib.
End Loader.

(** ** Navigator *)

Module Navigator.
Import Str Py Classifier Menu Effects Loader.
Local Open Scope M_scope.

(** Lines 174 to 180 on the value of [selected.get("url")]: the alias
    rewrite, then the guard [if selected_url:].  [None] when nothing is
    dispatched. *)
Definition rewritten_url (selected_url : json) : res json :=
  (if truthy selected_url then
     has_host <- py_in (py "pastebin.com") selected_url ;;
     if (has_host : bool) then
       has_raw <- py_in (py "raw") selected_url ;;
       if (has_raw : bool) then Ok selected_url
       else match selected_url with
            | JStr u => Ok (JStr (alias_rewrite u))
            | _ => Raise AttributeError
            end
     else Ok selected_url
   else Ok selected_url)%res.

Definition target (selected_url : json) : res (option (str * kind)) :=
  (url <- rewritten_url selected_url ;;
   if truthy url then
     match url with
     | JStr u => Ok (Some (u, classify u))
     | _ => Raise AttributeError
     end
   else Ok None)%res.

Section WithLib.
Context `{PyLib}.

(** Lines 103 to 107: the load, the guard [if not data: return] and the
    push.  [None] stands for the early [return]. *)
Definition enter (url : str) : M (option json) :=
  data <- fetch_w3u url ;;
  if truthy data then history_append url ;; ret (Some data)
  else ret None.

(** Both [back] branches (lines 165 to 171 and 193 to 199) share this
    text; [go] is the re-entry [return navigate_w3u(previous_url, ...)]
    and [again] the next turn of the [while] loop. *)
Definition back (go : str -> M unit) (again : M unit) : M unit :=
  n <- history_len ;;
  if (1 <? n)%nat then
    history_pop ;;
    previous_url <- history_pop ;;
    go previous_url
  else
    print LNoParent ;; input PEnter ;; again.

(** The [while True] loop of [navigate_w3u] on the page [data].  Each
    turn, and each nested call, takes one unit of [fuel]. *)
Fixpoint loop (fuel : nat) (data : json) (cache_message : option str)
  : M unit :=
  match fuel with
  | O => fun _ => OutOfFuel
  | S fuel =>
      let navigate_w3u (url : str) (cache_message : option str) : M unit :=
        entered <- enter url ;;
        match entered with
        | Some data => loop fuel data cache_message
        | None => ret tt
        end in
      let again := loop fuel data None in
      emit Clear ;;
      (match cache_message with
       | Some filename => print (LCacheMessage filename)
       | None => ret tt
       end) ;;
      let cache_message : option str := None in
      m <- lift (render data) ;;
      print_all (printed m) ;;
      print LBackQuit ;;
      choice <- input PChoose ;;
      match choice with
      | TQuit => ret tt
      | TBack => back (fun url => navigate_w3u url cache_message) again
      | TBadDigits => raise ValueError
      | TDigits n =>
          if (n <? option_index m)%nat then
            match options m !! n with
            | None => raise IndexError
            | Some (selected, parent_group) =>
                selected_url <- lift (get selected (py "url") JNull) ;;
                t <- lift (target selected_url) ;;
                match t with
                | None => again
                | Some (selected_url, SubDocument) =>
                    filename <- get_filename_from_url selected_url ;;
                    navigate_w3u selected_url (Some filename) ;;
                    again
                | Some (selected_url, Media) =>
                    print (LOpeningVlc selected_url) ;;
                    emit Sleep ;;
                    open_in_vlc selected_url ;;
                    again
                | Some (selected_url, WebPage) =>
                    print (LOpeningBrowser selected_url) ;;
                    emit Sleep ;;
                    emit (Browser selected_url) ;;
                    again
                end
            end
          else
            print LInvalidChoice ;; input PEnter ;; again
      | TEmpty => back (fun url => navigate_w3u url cache_message) again
      | TYes | TOther =>
          print LInvalidChoice ;; input PEnter ;; again
      end
  end.

(** [navigate_w3u(url, history, cache_message)]. *)
Definition navigate_w3u (fuel : nat) (url : str) (cache_message : option str)
  : M unit :=
  entered <- enter url ;;
  match entered with
  | Some data => loop fuel data cache_message
  | None => ret tt
  end.

(** The program: [navigate_w3u(start_url, [])]. *)
Definition default_url : str :=
  py "https://xuperlist-1.netlify.app/XUPERLISTS-1.w3u".

Definition main (fuel : nat) : M unit :=
  fun w => navigate_w3u fuel default_url None (set_history [] w).

End WithLib.
End Navigator.

(** ** A reference reading of the library functions

    Used where a statement is evaluated on a concrete text.  It follows
    CPython's [json] and [urllib.parse] on the texts it accepts; numbers
    with a fraction or an exponent, [NaN] and [Infinity] are outside the
    reader (read as [None]): it returns no float.  The encoder writes
    every value, a float as [float.__repr__] does. *)

Module Json.

Definition quote : char := 34.
Definition backslash : char := 92.

(** The decoder's whitespace: space, tab, line feed, carriage return. *)
Definition is_ws (c : char) : bool :=
  (c =? 32) || (c =? 9) || (c =? 10) || (c =? 13).

Fixpoint skip_ws (s : str) : str :=
  match s with
  | c :: t => if is_ws c then skip_ws t else s
  | [] => []
  end.

Definition is_digit (c : char) : bool := (48 <=? c) && (c <=? 57).

Definition hex_value (c : char) : option N :=
  if is_digit c then Some (c - 48)
  else if (97 <=? c) && (c <=? 102) then Some (c - 87)
  else if (65 <=? c) && (c <=? 70) then Some (c - 55)
  else None.

Definition hex4 (a b c d : char) : option N :=
  match hex_value a, hex_value b, hex_value c, hex_value d with
  | Some x, Some y, Some z, Some w => Some (((x * 16 + y) * 16 + z) * 16 + w)
  | _, _, _, _ => None
  end.

Definition simple_escape (c : char) : option char :=
  if c =? 34 then Some 34            (* escaped quote *)
  else if c =? 92 then Some 92       (* \\ *)
  else if c =? 47 then Some 47       (* \/ *)
  else if c =? 98 then Some 8        (* \b *)
  else if c =? 102 then Some 12      (* \f *)
  else if c =? 110 then Some 10      (* \n *)
  else if c =? 114 then Some 13      (* \r *)
  else if c =? 116 then Some 9       (* \t *)
  else None.

Definition cons_fst (c : char) (r : option (str * str)) : option (str * str) :=
  match r with
  | Some (content, rest) => Some (c :: content, rest)
  | None => None
  end.

(** The body of a string literal, from after the opening quote: the
    decoded characters and the text after the closing quote. *)
Fixpoint scan_string (s : str) : option (str * str) :=
  match s with
  | [] => None
  | c :: t =>
      if c =? quote then Some ([], t)
      else if c =? backslash then
        match t with
        | [] => None
        | e :: t1 =>
            if e =? 117 then                        (* \uXXXX *)
              match t1 with
              | h1 :: h2 :: h3 :: h4 :: t2 =>
                  match hex4 h1 h2 h3 h4 with
                  | None => None
                  | Some v =>
                      let single := cons_fst v (scan_string t2) in
                      if (55296 <=? v) && (v <=? 56319) then
                        match t2 with
                        | b :: u :: g1 :: g2 :: g3 :: g4 :: t3 =>
                            if (b =? backslash) && (u =? 117) then
                              match hex4 g1 g2 g3 g4 with
                              | Some v2 =>
                                  if (56320 <=? v2) && (v2 <=? 57343) then
                                    cons_fst
                                      (65536 + (v - 55296) * 1024 + (v2 - 56320))
                                      (scan_string t3)
                                  else single
                              | None => single
                              end
                            else single
                        | _ => single
                        end
                      else single
                  end
              | _ => None
              end
            else
              match simple_escape e with
              | Some d => cons_fst d (scan_string t1)
              | None => None
              end
        end
      else if c <=? 31 then None                    (* strict mode *)
      else cons_fst c (scan_string t)
  end.

(** The digits at the head of the text, and the rest. *)
Fixpoint span_digits (s : str) : str * str :=
  match s with
  | c :: t =>
      if is_digit c then let '(ds, rest) := span_digits t in (c :: ds, rest)
      else ([], s)
  | [] => ([], [])
  end.

Definition digits_value (ds : str) : N :=
  fold_left (fun acc c => acc * 10 + (c - 48)) ds 0.

Definition starts_fraction (rest : str) : bool :=
  match rest with
  | c :: _ => (c =? 46) || (c =? 101) || (c =? 69)
  | [] => false
  end.

(** An integer literal: [0] or a digit run without leading zero. *)
Definition scan_nat (s : str) : option (N * str) :=
  match span_digits s with
  | ([], _) => None
  | (d :: ds, rest) =>
      if starts_fraction rest then None
      else if (d =? 48) && negb (bool_decide (ds = [])) then None
      else Some (digits_value (d :: ds), rest)
  end.

(** [dict[key] = value]: a key already there keeps its place. *)
Fixpoint dict_set (key : str) (v : json) (items : list (str * json))
  : list (str * json) :=
  match items with
  | [] => [(key, v)]
  | (k, x) :: rest =>
      if bool_decide (k = key) then (k, v) :: rest
      else (k, x) :: dict_set key v rest
  end.

Definition expect (c : char) (s : str) : option str :=
  match s with
  | d :: t => if d =? c then Some t else None
  | [] => None
  end.

(** The scanner.  [parse_value] reads one value at the head of the text;
    [parse_items] reads the elements of an array from its first element
    on, [parse_pairs] the pairs of an object from the opening quote of a
    key on.  Every call reads at least one character before the next. *)
Fixpoint parse_value (fuel : nat) (s : str) : option (json * str) :=
  match fuel with
  | O => None
  | S fuel =>
      match s with
      | [] => None
      | c :: t =>
          if c =? quote then
            match scan_string t with
            | Some (content, rest) => Some (JStr content, rest)
            | None => None
            end
          else if c =? 123 then                       (* { *)
            match skip_ws t with
            | d :: t' =>
                if d =? 125 then Some (JObj [], t')
                else parse_pairs fuel (d :: t') []
            | [] => None
            end
          else if c =? 91 then                        (* [ *)
            match skip_ws t with
            | d :: t' =>
                if d =? 93 then Some (JArr [], t')
                else parse_items fuel (d :: t') []
            | [] => None
            end
          else if Str.startswith (py "null") s then Some (JNull, drop 4 s)
          else if Str.startswith (py "true") s then Some (JBool true, drop 4 s)
          else if Str.startswith (py "false") s then Some (JBool false, drop 5 s)
          else if c =? 45 then                        (* - *)
            match scan_nat t with
            | Some (n, rest) => Some (JNum (- Z.of_N n), rest)
            | None => None
            end
          else
            match scan_nat s with
            | Some (n, rest) => Some (JNum (Z.of_N n), rest)
            | None => None
            end
      end
  end
with parse_items (fuel : nat) (s : str) (acc : list json)
  : option (json * str) :=
  match fuel with
  | O => None
  | S fuel =>
      match parse_value fuel s with
      | None => None
      | Some (v, rest) =>
          match skip_ws rest with
          | c :: t =>
              if c =? 93 then Some (JArr (acc ++ [v]), t)
              else if c =? comma then parse_items fuel (skip_ws t) (acc ++ [v])
              else None
          | [] => None
          end
      end
  end
with parse_pairs (fuel : nat) (s : str) (acc : list (str * json))
  : option (json * str) :=
  match fuel with
  | O => None
  | S fuel =>
      match expect quote s with
      | None => None
      | Some t =>
          match scan_string t with
          | None => None
          | Some (key, rest) =>
              match expect 58 (skip_ws rest) with     (* : *)
              | None => None
              | Some rest =>
                  match parse_value fuel (skip_ws rest) with
                  | None => None
                  | Some (v, rest) =>
                      match skip_ws rest with
                      | c :: t =>
                          if c =? 125 then Some (JObj (dict_set key v acc), t)
                          else if c =? comma
                          then parse_pairs fuel (skip_ws t) (dict_set key v acc)
                          else None
                      | [] => None
                      end
                  end
              end
          end
      end
  end.

(** [json.loads(s)]. *)
Definition loads (s : str) : option json :=
  match parse_value (2 + length s) (skip_ws s) with
  | Some (v, rest) =>
      match skip_ws rest with
      | [] => Some v
      | _ :: _ => None
      end
  | None => None
  end.

(** *** The encoder, [ensure_ascii=False, indent=4] *)

Definition hex_digit (n : N) : char := if n <? 10 then 48 + n else 87 + n.

Definition escape_char (c : char) : str :=
  if c =? 34 then [backslash; 34]
  else if c =? 92 then [backslash; 92]
  else if c =? 8 then [backslash; 98]
  else if c =? 12 then [backslash; 102]
  else if c =? 10 then [backslash; 110]
  else if c =? 13 then [backslash; 114]
  else if c =? 9 then [backslash; 116]
  else if c <=? 31 then
    [backslash; 117; 48; 48; hex_digit (c / 16); hex_digit (c mod 16)]
  else [c].

Definition encode_string (s : str) : str :=
  quote :: flat_map escape_char s ++ [quote].

Fixpoint uint_chars (d : Decimal.uint) : str :=
  match d with
  | Decimal.Nil => []
  | Decimal.D0 d => 48 :: uint_chars d
  | Decimal.D1 d => 49 :: uint_chars d
  | Decimal.D2 d => 50 :: uint_chars d
  | Decimal.D3 d => 51 :: uint_chars d
  | Decimal.D4 d => 52 :: uint_chars d
  | Decimal.D5 d => 53 :: uint_chars d
  | Decimal.D6 d => 54 :: uint_chars d
  | Decimal.D7 d => 55 :: uint_chars d
  | Decimal.D8 d => 56 :: uint_chars d
  | Decimal.D9 d => 57 :: uint_chars d
  end.

Definition encode_nat (n : N) : str := uint_chars (N.to_uint n).

Definition encode_int (z : Z) : str :=
  match z with
  | Zneg p => 45 :: encode_nat (Npos p)
  | _ => encode_nat (Z.to_N z)
  end.

Definition newline_indent (level : nat) : str :=
  10 :: repeat 32 (4 * level).

(** [sep.join(parts)] with [sep] the item separator and its newline. *)
Fixpoint join_items (level : nat) (parts : list str) : str :=
  match parts with
  | [] => []
  | [p] => p
  | p :: rest => p ++ comma :: newline_indent level ++ join_items level rest
  end.

(** [floatstr]: [float.__repr__], but for the three values that JSON
    has no writing for. *)
Definition float_text (repr : str) : str :=
  if bool_decide (repr = py "nan") then py "NaN"
  else if bool_decide (repr = py "inf") then py "Infinity"
  else if bool_decide (repr = py "-inf") then py "-Infinity"
  else repr.

Fixpoint encode (level : nat) (v : json) : str :=
  match v with
  | JNull => py "null"
  | JBool true => py "true"
  | JBool false => py "false"
  | JNum z => encode_int z
  | JFloat r => float_text r
  | JStr s => encode_string s
  | JArr [] => py "[]"
  | JArr items =>
      91 :: newline_indent (S level)
      ++ join_items (S level) (List.map (encode (S level)) items)
      ++ newline_indent level ++ [93]
  | JObj [] => py "{}"
  | JObj items =>
      123 :: newline_indent (S level)
      ++ join_items (S level)
           (List.map (fun kv => encode_string (fst kv) ++ 58 :: 32
                                  :: encode (S level) (snd kv)) items)
      ++ newline_indent level ++ [125]
  end.

Definition dump (v : json) : str := encode 0 v.

End Json.

Module Url.

(** The text before the first character satisfying [p], and the text
    from that character on. *)
Fixpoint break_at (p : char -> bool) (s : str) : str * str :=
  match s with
  | [] => ([], [])
  | c :: t =>
      if p c then ([], s)
      else let '(before, rest) := break_at p t in (c :: before, rest)
  end.

Definition is_alpha (c : char) : bool :=
  ((65 <=? c) && (c <=? 90)) || ((97 <=? c) && (c <=? 122)).

Definition is_scheme_char (c : char) : bool :=
  is_alpha c || Json.is_digit c || (c =? 43) || (c =? 45) || (c =? 46).

(** [urlsplit]'s scheme test. *)
Definition split_scheme (url : str) : str * str :=
  match break_at (fun c => c =? 58) url with
  | (a :: before, _ :: rest) =>
      if is_alpha a && forallb is_scheme_char before
      then (Str.lower (a :: before), rest)
      else ([], url)
  | _ => ([], url)
  end.

Definition uses_params (scheme : str) : bool :=
  existsb (fun s => bool_decide (scheme = py s))
    [""; "ftp"; "hdl"; "prospero"; "http"; "imap"; "https"; "shttp";
     "rtsp"; "rtspu"; "sip"; "sips"; "mms"; "sftp"; "tel"]%string.

Definition has (c : char) (s : str) : bool := existsb (N.eqb c) s.

(** [url.lstrip(_WHATWG_C0_CONTROL_OR_SPACE)]: the leading characters
    up to the space (code 32) go. *)
Fixpoint lstrip_c0 (url : str) : str :=
  match url with
  | [] => []
  | c :: t => if c <=? 32 then lstrip_c0 t else url
  end.

(** [_UNSAFE_URL_BYTES_TO_REMOVE]: tab (9), carriage return (13) and
    line feed (10), removed wherever they stand. *)
Definition is_unsafe (c : char) : bool := (c =? 9) || (c =? 13) || (c =? 10).

Definition without_unsafe (url : str) : str :=
  List.filter (fun c => negb (is_unsafe c)) url.

(** [urlsplit] and [urlparse] on the text so prepared: the path, or
    [None] for the [ValueError] of a netloc with one square bracket
    only.  A netloc with both brackets is taken as it stands (CPython
    from 3.11.4 on also raises unless they hold an IPv6 or IPvFuture
    address), and so is one with characters outside ASCII (whose NFKC
    form CPython checks). *)
Definition split_path (url : str) : option str :=
  let '(scheme, url) := split_scheme url in
  let split_netloc :=
    if Str.startswith (py "//") url
    then break_at (fun c => (c =? 47) || (c =? 63) || (c =? 35)) (drop 2 url)
    else ([], url) in
  let '(netloc, url) := split_netloc in
  if xorb (has 91 netloc) (has 93 netloc) then None
  else
    let url := fst (break_at (fun c => c =? 35) url) in
    let url := fst (break_at (fun c => c =? 63) url) in
    if uses_params scheme && has 59 url then
      let segment := rev (fst (break_at (fun c => c =? 47) (rev url))) in
      let kept := fst (break_at (fun c => c =? 59) segment) in
      Some (take (length url - length segment) url ++ kept)
    else Some url.

(** [urlparse(url).path]. *)
Definition path (url : str) : option str :=
  split_path (without_unsafe (lstrip_c0 url)).

(** [posixpath.basename]. *)
Definition posix_basename (p : str) : str :=
  rev (fst (break_at (fun c => c =? 47) (rev p))).

Definition basename (url : str) : option str :=
  posix_basename <$> path url.

End Url.

(** ** Documents whose dump the sanitizer leaves alone *)

Module Plain.
Import SanitizerSpec.

Definition without_line_feeds (s : str) : str :=
  List.filter (fun c => negb (c =? 10)) s.

(** Every comma of the text is followed in it, across whitespace and
    control characters, by a character that is no closer. *)
Fixpoint settled (s : str) : bool :=
  match s with
  | [] => true
  | c :: t =>
      (if c =? comma
       then match peek t with
            | Some d => negb (is_closer d)
            | None => false
            end
       else true)
      && settled t
  end.

(** A string without the character 0x7F in which, as the encoder writes
    it, no comma stands before a closing brace or bracket. *)
Definition plain_string (s : str) : bool :=
  forallb (fun c => negb (c =? 127)) s
  && settled (flat_map Json.escape_char s ++ [Json.quote]).

(** The characters of a float as Python writes it: digits, sign, point,
    exponent mark and the letters of [NaN] and [Infinity]. *)
Definition is_float_char (c : char) : bool :=
  Json.is_digit c || (c =? 43) || (c =? 45) || (c =? 46)
  || ((65 <=? c) && (c <=? 90)) || ((97 <=? c) && (c <=? 122)).

Definition float_written (s : str) : bool :=
  negb (bool_decide (s = [])) && forallb is_float_char s.

Fixpoint plain (v : json) : bool :=
  match v with
  | JStr s => plain_string s
  | JArr items => forallb plain items
  | JObj items =>
      forallb (fun kv => plain_string (fst kv) && plain (snd kv)) items
  | JFloat r => float_written (Json.float_text r)
  | _ => true
  end.

(** The text starts with a character that the sanitizer skips in no
    case and that closes nothing. *)
Definition starts_ok (s : str) : bool :=
  match s with
  | c :: _ => negb (is_gap c) && negb (is_closer c)
  | [] => false
  end.

Definition comma_free (s : str) : bool :=
  forallb (fun c => negb (c =? comma)) s.

(** The control characters of the text are line feeds. *)
Definition only_line_feeds (s : str) : Prop :=
  Forall (fun c => is_control c = true -> c = 10) s.

End Plain.

(** ** The dump without its line feeds *)

Module Flat.
Import Json.

Definition spaces (level : nat) : str := repeat 32 (4 * level).

Fixpoint join_flat (level : nat) (parts : list str) : str :=
  match parts with
  | [] => []
  | [p] => p
  | p :: rest => p ++ comma :: spaces level ++ join_flat level rest
  end.

(** [encode] with [spaces] for every [newline_indent]. *)
Fixpoint flat (level : nat) (v : json) : str :=
  match v with
  | JNull => py "null"
  | JBool true => py "true"
  | JBool false => py "false"
  | JNum z => encode_int z
  | JFloat r => float_text r
  | JStr s => encode_string s
  | JArr [] => py "[]"
  | JArr items =>
      91 :: spaces (S level)
      ++ join_flat (S level) (List.map (flat (S level)) items)
      ++ spaces level ++ [93]
  | JObj [] => py "{}"
  | JObj items =>
      123 :: spaces (S level)
      ++ join_flat (S level)
           (List.map (fun kv => encode_string (fst kv) ++ 58 :: 32
                                  :: flat (S level) (snd kv)) items)
      ++ spaces level ++ [125]
  end.

(** The values that the reader above returns: the keys of every object
    are distinct, as in a [dict], and no number is a float. *)
Fixpoint readable (v : json) : bool :=
  match v with
  | JArr items => forallb readable items
  | JObj items =>
      bool_decide (NoDup (List.map fst items))
      && forallb (fun kv => readable (snd kv)) items
  | JFloat _ => false
  | _ => true
  end.

(** The number of values in a value, counting each element of a list
    once more: the fuel the reader needs. *)
Fixpoint size (v : json) : nat :=
  match v with
  | JArr items => S (list_sum (List.map (fun x => S (size x)) items))
  | JObj items => S (list_sum (List.map (fun kv => S (size (snd kv))) items))
  | _ => 1
  end.

(** One step of [digits_value]. *)
Definition digit_step (acc c : N) : N := acc * 10 + (c - 48).

(** What may follow a value: nothing that would continue a number. *)
Definition ends_number (rest : str) : bool :=
  match rest with
  | [] => true
  | c :: _ => negb (is_digit c) && negb (starts_fraction rest)
  end.

(** A value is written with a first character that is its own. *)
Definition own_head (s : str) : Prop :=
  exists c t, s = c :: t /\ is_ws c = false /\ c <> 93 /\ c <> 125.

(** The reader, given fuel for the size of [v], reads the flat writing
    of [v] back as [v]. *)
Definition reads_back (v : json) : Prop :=
  forall level fuel rest,
    readable v = true ->
    (size v <= fuel)%nat ->
    ends_number rest = true ->
    parse_value fuel (flat level v ++ rest) = Some (v, rest).

End Flat.

(** The library as read above. *)
Definition reference_lib : PyLib :=
  {| url_basename := Url.basename;
     json_loads := Json.loads;
     json_dump := Json.dump |}.

(** ** The data model of the specification, read on [json] values *)

Module Document.
Import Py.

Definition field (key : string) (entry : json) : option json :=
  match entry with
  | JObj items => assoc (py key) items
  | _ => None
  end.

(** The sequence held by a field; an absent field is the empty
    sequence. *)
Definition children (key : string) (entry : json) : list json :=
  match field key entry with
  | Some (JArr l) => l
  | _ => []
  end.

(** [url]: an optional string. *)
Definition has_optional_url (entry : json) : bool :=
  match entry with
  | JObj items =>
      match assoc (py "url") items with
      | None | Some (JStr _) => true
      | Some _ => false
      end
  | _ => false
  end.

Definition sequence_of (p : json -> bool) (v : option json) : bool :=
  match v with
  | None => true
  | Some (JArr l) => forallb p l
  | Some _ => false
  end.

Definition is_station (entry : json) : bool := has_optional_url entry.

(** A group as far as the menu looks into a nested one: its own groups
    are not constrained. *)
Definition is_nested_group (entry : json) : bool :=
  has_optional_url entry
  && sequence_of is_station (field "stations" entry).

Definition is_group (entry : json) : bool :=
  has_optional_url entry
  && sequence_of is_station (field "stations" entry)
  && sequence_of is_nested_group (field "groups" entry).

Definition is_document (data : json) : bool :=
  match data with
  | JObj _ =>
      sequence_of is_group (field "groups" data)
      && sequence_of is_station (field "stations" data)
  | _ => false
  end.

(** The options of a page as the specification words them: each
    top-level group, then its direct stations, then each of its directly
    nested groups followed by that nested group's direct stations; the
    top-level stations when there is no group. *)
Definition under (parent : json) (entries : list json)
  : list (json * option json) :=
  List.map (fun e => (e, Some parent)) entries.

Definition nested_group_options (group nested_group : json)
  : list (json * option json) :=
  (nested_group, Some group)
  :: under nested_group (children "stations" nested_group).

Definition group_options (group : json) : list (json * option json) :=
  (group, None)
  :: under group (children "stations" group)
  ++ flat_map (nested_group_options group) (children "groups" group).

Definition spec_options (data : json) : list (json * option json) :=
  match children "groups" data with
  | [] => List.map (fun s => (s, None)) (children "stations" data)
  | groups => flat_map group_options groups
  end.

(** The index printed on a line of the menu. *)
Definition line_index (l : line) : option nat :=
  match l with
  | LOption _ index _ _ => Some index
  | _ => None
  end.

Definition printed_indices (lines : list line) : list nat :=
  omap line_index lines.

(** [grown m m' opts]: from [m] to [m'] the loops appended the options
    [opts], one printed line each, numbered from the counter of [m]. *)
Definition grown (m m' : Menu.menu) (opts : list (json * option json)) : Prop :=
  Menu.options m' = Menu.options m ++ opts
  /\ Menu.option_index m' = (Menu.option_index m + length opts)%nat
  /\ printed_indices (Menu.printed m')
     = printed_indices (Menu.printed m)
       ++ seq (Menu.option_index m) (length opts).

End Document.

(** ** The documents of the specification's examples *)

Module Examples.

Definition cnn : json :=
  JObj [(py "name", JStr (py "CNN")); (py "url", JStr (py "https://x/cnn.m3u"))].

Definition news : json :=
  JObj [(py "name", JStr (py "News")); (py "stations", JArr [cnn])].

Definition root : json :=
  JObj [(py "name", JStr (py "Root")); (py "groups", JArr [news])].

Definition root_text : str :=
  pyj "{'name':'Root','groups':[{'name':'News','stations':[{'name':'CNN','url':'https://x/cnn.m3u'}]}]}".

(** [root] with two top-level stations of its own. *)
Definition bbc : json :=
  JObj [(py "name", JStr (py "BBC")); (py "url", JStr (py "https://x/bbc.m3u"))].

Definition root_with_stations : json :=
  JObj [(py "name", JStr (py "Root")); (py "groups", JArr [news]);
        (py "stations", JArr [bbc; cnn])].

(** A root page whose only group points to a sub-document. *)
Definition sub_url : str := py "https://h/sub.w3u".

Definition portal_text : str :=
  pyj "{'name':'Root','groups':[{'name':'Sub','url':'https://h/sub.w3u'}]}".

Definition portal : json :=
  JObj [(py "name", JStr (py "Root"));
        (py "groups",
         JArr [JObj [(py "name", JStr (py "Sub")); (py "url", JStr sub_url)]])].

(** Networks: none; one that answers every request with the same body;
    one that answers the start URL with one body and any other URL with
    another. *)
Definition body (text : str) : response :=
  {| resp_ok := true; resp_text := text; resp_text_utf8 := text |}.

Definition offline : nat -> str -> option response := fun _ _ => None.

Definition serving (text : str) : nat -> str -> option response :=
  fun _ _ => Some (body text).

Definition serving_two (start other : str) : nat -> str -> option response :=
  fun _ url =>
    if bool_decide (url = Navigator.default_url) then Some (body start)
    else Some (body other).

(** A session that starts with the given files, typed lines and
    network. *)
Definition session (fs : gmap (list N) (list N)) (h : list (list N))
    (lines : list typed) (net : nat -> str -> option response) : world :=
  {| files := fs; history := h; stdin := lines; trace := [];
     requests := 0; network := net |}.

(** The same world with the network taken away. *)
Definition unplugged (w : world) : world :=
  {| files := files w; history := history w; stdin := stdin w;
     trace := trace w; requests := requests w; network := offline |}.

Definition list_url : str := py "https://h/list.w3u".

(** The menus of [root] and of [portal]. *)
Definition root_menu : Menu.menu :=
  {| Menu.option_index := 2;
     Menu.options := [(news, None); (cnn, Some news)];
     Menu.printed := [LName (JStr (py "Root"));
                      LOption 0 0 (JStr (py "News")) (py "No URL");
                      LOption 2 1 (JStr (py "CNN")) (py "x/cnn.m3u")] |}.

Definition portal_entry : json :=
  JObj [(py "name", JStr (py "Sub")); (py "url", JStr sub_url)].

Definition portal_menu : Menu.menu :=
  {| Menu.option_index := 1;
     Menu.options := [(portal_entry, None)];
     Menu.printed := [LName (JStr (py "Root"));
                      LOption 0 0 (JStr (py "Sub")) (py "h/sub.w3u")] |}.

End Examples.

(** ** What one turn of the loop shows *)

Module Screen.

(** The events of one turn up to the prompt: the screen is cleared, the
    one-shot message and the menu are printed, a choice is asked. *)
Definition shown (cache_message : option str) (m : Menu.menu) : list event :=
  Clear
  :: match cache_message with
     | Some filename => [Print (LCacheMessage filename)]
     | None => []
     end
  ++ List.map Print (Menu.printed m)
  ++ [Print LBackQuit; Asked PChoose].

(** The world when the choice has been read. *)
Definition at_choice (cache_message : option str) (m : Menu.menu)
    (rest : list typed) (w : world) : world :=
  Effects.set_stdin rest (Effects.log (shown cache_message m) w).

End Screen.

(** ** Relations between the world before and after an effect *)

Module Frame.

(** [keeps R m]: whenever [m] returns or raises, the world it leaves is
    related by [R] to the world it started in. *)
Definition keeps {A} (R : world -> world -> Prop) (m : M A) : Prop :=
  forall w,
    match m w with
    | Done _ w' | Raised _ w' => R w w'
    | OutOfFuel => True
    end.

(** The history is the same list. *)
Definition same_history (w w' : world) : Prop := history w' = history w.

(** No file was written: a name holds what it held, or nothing. *)
Definition nothing_written (w w' : world) : Prop :=
  forall name, files w' !! name = files w !! name \/ files w' !! name = None.

(** The input was read from the front. *)
Definition input_consumed (w w' : world) : Prop :=
  exists read, stdin w = read ++ stdin w'.

(** [returns n m]: started with at most [n] lines left to read, [m]
    returns or raises, never runs out of fuel, and leaves no more lines
    than it found. *)
Definition returns {A} (n : nat) (m : M A) : Prop :=
  forall w,
    (length (stdin w) <= n)%nat ->
    match m w with
    | Done _ w' | Raised _ w' => (length (stdin w') <= length (stdin w))%nat
    | OutOfFuel => False
    end.

End Frame.

(** ** What the sanitizer takes out *)

Module Deleted.
Import Sanitizer.

(** The characters the two passes can delete: a comma, whitespace, a
    control character. *)
Definition removable (c : char) : bool :=
  (c =? comma) || is_space c || is_control c.

(** The text without them. *)
Definition kept (s : str) : str :=
  List.filter (fun c => negb (removable c)) s.

(** No match of [,\s*[}\]]] starts anywhere in the text. *)
Fixpoint no_match (s : str) : bool :=
  match s with
  | [] => true
  | c :: t =>
      negb ((c =? comma) && bool_decide (is_Some (match_tail t)))
      && no_match t
  end.

(** No character of the text is in [[\x00-\x1F\x7F]]. *)
Definition control_free (s : str) : bool :=
  forallb (fun c => negb (is_control c)) s.

End Deleted.

(** ** A page with one entry of each kind *)

Module Hub.
Import Examples.

Definition entry (name : string) (url : string) : json :=
  JObj [(py "name", JStr (py name)); (py "url", JStr (py url))].

Definition sub : json := entry "Sub" "https://h/sub.w3u".
Definition film : json := entry "Film" "https://h/film.mp4".
Definition site : json := entry "Site" "https://h/page".
Definition header : json := JObj [(py "name", JStr (py "Header"))].
(** An entry whose URL [urlparse] refuses: a netloc with one square
    bracket only. *)
Definition bad : json := entry "Bad" "https://[h/a.w3u".

Definition hub : json :=
  JObj [(py "name", JStr (py "Hub"));
        (py "groups", JArr [sub; film; site; header; bad])].

Definition hub_url : str := py "https://h/hub.w3u".

Definition hub_menu : Menu.menu :=
  {| Menu.option_index := 5;
     Menu.options := [(sub, None); (film, None); (site, None);
                      (header, None); (bad, None)];
     Menu.printed := [LName (JStr (py "Hub"));
                      LOption 0 0 (JStr (py "Sub")) (py "h/sub.w3u");
                      LOption 0 1 (JStr (py "Film")) (py "h/film.mp4");
                      LOption 0 2 (JStr (py "Site")) (py "h/page");
                      LOption 0 3 (JStr (py "Header")) (py "No URL");
                      LOption 0 4 (JStr (py "Bad")) (py "[h/a.w3u")] |}.

(** A page whose second entry has the empty string for its URL. *)
Definition blank : json := entry "Blank" "".

Definition blanks : json :=
  JObj [(py "name", JStr (py "Blanks")); (py "groups", JArr [header; blank])].

Definition blanks_menu : Menu.menu :=
  {| Menu.option_index := 2;
     Menu.options := [(header, None); (blank, None)];
     Menu.printed := [LName (JStr (py "Blanks"));
                      LOption 0 0 (JStr (py "Header")) (py "No URL");
                      LOption 0 1 (JStr (py "Blank")) []] |}.


End Hub.

(** ** Three pages, each opened from the one before *)

Module Trail.
Import Examples.







End Trail.

(** ** Texts that a file opened with [encoding="utf-8"] takes *)

Module Utf8.

(** A code point that UTF-8 writes: no surrogate (U+D800 to U+DFFF), for
    which [file.write] raises [UnicodeEncodeError]. *)
Definition encodable_char (c : char) : bool :=
  ((c <? 55296) || (57343 <? c)) && (c <=? 1114111).

Definition utf8_encodable (s : str) : bool := forallb encodable_char s.

End Utf8.

(** ** Requests against typed lines *)

Module Pace.

(** The requests made so far and the lines still to be read. *)
Definition spent (w : world) : nat := (requests w + length (stdin w))%nat.

(** [paced k m]: whenever [m] returns or raises, it has made at most [k]
    requests more than it has read lines; the count of requests has not
    gone down and no line has been put back. *)
Definition paced {A} (k : nat) (m : M A) : Prop :=
  forall w,
    match m w with
    | Done _ w' | Raised _ w' =>
        (spent w' <= spent w + k)%nat
        /\ (requests w <= requests w')%nat
        /\ (length (stdin w') <= length (stdin w))%nat
    | OutOfFuel => True
    end.

End Pace.

(** ** The lines of a page, read on the Document *)

Module Lines.
Import Str Py Document.

(** The name and the URL a line shows for an entry. *)
Definition shown_name (unnamed : string) (entry : json) : json :=
  default (JStr (py unnamed)) (field "name" entry).

Definition shown_url (entry : json) : str :=
  match field "url" entry with
  | Some (JStr u) => if startswith (py "https://") u then drop 8 u else u
  | _ => py "No URL"
  end.

(** An entry with the indentation of its line and the name it is shown
    under when it has none. *)
Definition row : Type := nat * string * json.

Definition station_rows (indent : nat) (unnamed : string)
    (entries : list json) : list row :=
  List.map (fun e => (indent, unnamed, e)) entries.

Definition nested_group_rows (nested_group : json) : list row :=
  (2%nat, "Unnamed Nested Group"%string, nested_group)
  :: station_rows 4 "Unnamed Nested Station"
       (children "stations" nested_group).

Definition group_rows (group : json) : list row :=
  (0%nat, "Unnamed Group"%string, group)
  :: station_rows 2 "Unnamed Station" (children "stations" group)
  ++ flat_map nested_group_rows (children "groups" group).

Definition rows (data : json) : list row :=
  match children "groups" data with
  | [] => station_rows 0 "Unnamed Station" (children "stations" data)
  | groups => flat_map group_rows groups
  end.

Definition line_of (index : nat) (r : row) : line :=
  let '(indent, unnamed, entry) := r in
  LOption indent index (shown_name unnamed entry) (shown_url entry).

(** The lines of the rows, numbered from [start]. *)
Fixpoint number (start : nat) (rs : list row) : list line :=
  match rs with
  | [] => []
  | r :: rest => line_of start r :: number (S start) rest
  end.

(** [lined m m' rs]: from [m] to [m'] the loops printed the lines of the
    rows [rs], numbered from the counter of [m], and appended their
    entries to the options. *)
Definition lined (m m' : Menu.menu) (rs : list row) : Prop :=
  Menu.printed m' = Menu.printed m ++ number (Menu.option_index m) rs
  /\ Menu.option_index m' = (Menu.option_index m + length rs)%nat
  /\ List.map fst (Menu.options m')
     = List.map fst (Menu.options m) ++ List.map snd rs.

End Lines.

(** ** URLs of the usual shape *)

Module UrlShape.

(** No character of [s] is one of [chars]. *)
Definition none_of (chars : list N) (s : str) : bool :=
  forallb (fun c => negb (existsb (N.eqb c) chars)) s.

(** Characters above the space (code 32): no whitespace and no control
    character, so neither a tab (code 9), a line feed (10) nor a carriage
    return (13), which [urlsplit] takes out of a URL wherever they
    stand.  In a literal of this file a backslash stands for itself:
    [py "a\tb"] has the four characters [a], backslash, [t] and [b], and
    the text with a tab between [a] and [b] is [py "a" ++ 9 :: py "b"]. *)
Definition visible (s : str) : bool := forallb (fun c => 32 <? c) s.

(** [https://host dirs / name suffix]: [dirs] is empty or begins with a
    slash, [suffix] is empty or begins a query or a fragment. *)
Definition https_url (host dirs name suffix : str) : str :=
  py "https://" ++ host ++ dirs ++ 47 :: name ++ suffix.

Definition well_formed (host dirs name suffix : str) : bool :=
  none_of [47; 63; 35; 91; 93] host        (* / ? # [ ] *)
  && visible host && forallb (fun c => c <? 128) host
  && none_of [63; 35; 59] dirs             (* ? # ; *)
  && visible dirs
  && match dirs with [] => true | c :: _ => c =? 47 end
  && none_of [47; 63; 35; 59] name         (* / ? # ; *)
  && visible name
  && match suffix with [] => true | c :: _ => (c =? 63) || (c =? 35) end.

End UrlShape.
(** ** Facts about the sanitizer *)

Module SanitizerFacts.
Import Sanitizer.

Lemma comma_not_space : is_space comma = false.
Proof. reflexivity. Qed.

Lemma comma_not_closer : is_closer comma = false.
Proof. reflexivity. Qed.

Lemma comma_not_control : is_control comma = false.
Proof. reflexivity. Qed.

Lemma closer_not_space c : is_closer c = true -> is_space c = false.
Proof.
  unfold is_closer, rbrace, rbracket. intros H.
  apply orb_true_iff in H as [H | H]; apply N.eqb_eq in H; subst; reflexivity.
Qed.

Lemma closer_not_control c : is_closer c = true -> is_control c = false.
Proof.
  unfold is_closer, rbrace, rbracket. intros H.
  apply orb_true_iff in H as [H | H]; apply N.eqb_eq in H; subst; reflexivity.
Qed.

Lemma closer_not_comma c : is_closer c = true -> (c =? comma) = false.
Proof.
  unfold is_closer, rbrace, rbracket. intros H.
  apply orb_true_iff in H as [H | H]; apply N.eqb_eq in H; subst; reflexivity.
Qed.

(** A match ends strictly inside the text it was looked for in. *)
Lemma match_tail_length s d rest :
  match_tail s = Some (d, rest) -> (length rest < length s)%nat.
Proof.
  induction s as [| c t IH]; simpl; [discriminate |].
  destruct (is_space c).
  - intros H. apply IH in H. lia.
  - destruct (is_closer c); [| discriminate].
    intros H. injection H as <- <-. lia.
Qed.

Lemma match_tail_closer s d rest :
  match_tail s = Some (d, rest) -> is_closer d = true.
Proof.
  induction s as [| c t IH]; simpl; [discriminate |].
  destruct (is_space c); [exact IH |].
  destruct (is_closer c) eqn:E; [| discriminate].
  intros H. injection H as <- <-. exact E.
Qed.

(** The scan never needs more steps than the text has characters. *)
Lemma re_sub_trailing_fuel2 f1 : forall f2 s,
  (length s <= f1)%nat -> (length s <= f2)%nat ->
  re_sub_trailing f1 s = re_sub_trailing f2 s.
Proof.
  induction f1 as [| f1 IH]; intros f2 s H1 H2.
  - destruct s; [destruct f2; reflexivity | simpl in H1; lia].
  - destruct s as [| c t]; [destruct f2; reflexivity |].
    destruct f2 as [| f2]; [simpl in H2; lia |].
    simpl in H1, H2. simpl.
    destruct (c =? comma).
    + destruct (match_tail t) as [[d rest] |] eqn:Em.
      * pose proof (match_tail_length _ _ _ Em) as Hr.
        f_equal. apply IH; lia.
      * f_equal. apply IH; lia.
    + f_equal. apply IH; lia.
Qed.

Lemma remove_trailing_commas_nil : remove_trailing_commas [] = [].
Proof. reflexivity. Qed.

(** The equation of the scan at a non-empty text. *)
Lemma remove_trailing_commas_cons c t :
  remove_trailing_commas (c :: t) =
  if c =? comma then
    match match_tail t with
    | Some (d, rest) => d :: remove_trailing_commas rest
    | None => c :: remove_trailing_commas t
    end
  else c :: remove_trailing_commas t.
Proof.
  unfold remove_trailing_commas. simpl.
  destruct (c =? comma); [| reflexivity].
  destruct (match_tail t) as [[d rest] |] eqn:Em; [| reflexivity].
  pose proof (match_tail_length _ _ _ Em) as Hr.
  f_equal. apply re_sub_trailing_fuel2; lia.
Qed.

(** Induction along the scan: the text after a match, or the tail. *)
Lemma scan_ind (P : str -> Prop) :
  P [] ->
  (forall c t, (forall u, (length u <= length t)%nat -> P u) -> P (c :: t)) ->
  forall s, P s.
Proof.
  intros Hnil Hcons s.
  assert (H : forall n u, (length u <= n)%nat -> P u).
  { induction n as [| n IH]; intros u Hu.
    - destruct u; [exact Hnil | simpl in Hu; lia].
    - destruct u as [| c t]; [exact Hnil |].
      apply Hcons. intros v Hv. apply IH. simpl in Hu. lia. }
  apply (H (length s)). lia.
Qed.

Import SanitizerSpec.

Lemma closer_not_gap c : is_closer c = true -> is_gap c = false.
Proof.
  intros H. unfold is_gap.
  rewrite (closer_not_space _ H), (closer_not_control _ H). reflexivity.
Qed.

Lemma comma_not_gap : is_gap comma = false.
Proof. reflexivity. Qed.

Lemma eqb_comma c : (c =? comma) = true -> c = comma.
Proof. apply N.eqb_eq. Qed.

(** A match of the pattern's tail is seen by [peek] too. *)
Lemma match_tail_closer_next s d rest :
  match_tail s = Some (d, rest) -> closer_next s = true.
Proof.
  unfold closer_next.
  induction s as [| c t IH]; simpl; [discriminate |].
  unfold is_gap. destruct (is_space c) eqn:Es; simpl; [exact IH |].
  destruct (is_closer c) eqn:Ec; [| discriminate].
  intros _. rewrite (closer_not_control _ Ec). exact Ec.
Qed.

Lemma match_tail_closer_ahead s d rest :
  match_tail s = Some (d, rest) -> closer_ahead s = true.
Proof.
  unfold closer_ahead.
  induction s as [| c t IH]; simpl; [discriminate |].
  unfold is_gap. destruct (is_space c) eqn:Es; simpl; [exact IH |].
  destruct (is_closer c) eqn:Ec; [| discriminate].
  intros _. rewrite (closer_not_control _ Ec), (closer_not_comma _ Ec).
  exact Ec.
Qed.

(** The text skipped by a match holds no comma. *)
Lemma match_tail_single s d rest :
  match_tail s = Some (d, rest) ->
  single_trailing_commas s = single_trailing_commas rest.
Proof.
  induction s as [| c t IH]; simpl; [discriminate |].
  destruct (is_space c) eqn:Es.
  - intros H. rewrite (IH H).
    destruct (c =? comma) eqn:Ec; [| reflexivity].
    apply eqb_comma in Ec. subst. discriminate.
  - destruct (is_closer c) eqn:Ec; [| discriminate].
    intros H. injection H as <- <-.
    rewrite (closer_not_comma _ Ec). reflexivity.
Qed.

(** *** The second pass only filters *)

Lemma remove_control_idem s : remove_control (remove_control s) = remove_control s.
Proof.
  unfold remove_control. induction s as [| c t IH]; simpl; [reflexivity |].
  destruct (is_control c) eqn:E; simpl; [exact IH |].
  rewrite E. simpl. f_equal. exact IH.
Qed.

Lemma remove_control_length s : (length (remove_control s) <= length s)%nat.
Proof.
  unfold remove_control. induction s as [| c t IH]; simpl; [lia |].
  destruct (is_control c); simpl; lia.
Qed.

Lemma peek_remove_control s : peek (remove_control s) = peek s.
Proof.
  unfold remove_control. induction s as [| c t IH]; simpl; [reflexivity |].
  unfold is_gap.
  destruct (is_control c) eqn:E; simpl.
  - rewrite orb_true_r. exact IH.
  - unfold is_gap. rewrite E, IH. reflexivity.
Qed.

Lemma no_pending_remove_control s :
  no_pending (remove_control s) = no_pending s.
Proof.
  induction s as [| c t IH]; [reflexivity |].
  change (remove_control (c :: t))
    with (if negb (is_control c) then c :: remove_control t else remove_control t).
  destruct (is_control c) eqn:E; simpl.
  - rewrite IH. destruct (c =? comma) eqn:Ec; [| reflexivity].
    apply eqb_comma in Ec. subst. discriminate.
  - rewrite IH. unfold closer_next. rewrite peek_remove_control. reflexivity.
Qed.

(** *** A text without pending commas is left alone by the first pass *)

Lemma no_pending_fixed s :
  no_pending s = true -> remove_trailing_commas s = s.
Proof.
  induction s as [| c t IH]; [reflexivity |].
  simpl. intros H. apply andb_true_iff in H as [Hc Ht].
  rewrite remove_trailing_commas_cons.
  destruct (c =? comma).
  - destruct (match_tail t) as [[d rest] |] eqn:Em.
    + rewrite (match_tail_closer_next _ _ _ Em) in Hc. discriminate.
    + rewrite (IH Ht). reflexivity.
  - rewrite (IH Ht). reflexivity.
Qed.

(** A pending comma is taken out by the first pass, which shortens the
    text. *)
Lemma remove_trailing_commas_length s :
  (length (remove_trailing_commas s) <= length s)%nat.
Proof.
  induction s as [| c t IH] using scan_ind; [simpl; lia |].
  rewrite remove_trailing_commas_cons.
  destruct (c =? comma).
  - destruct (match_tail t) as [[d rest] |] eqn:Em.
    + pose proof (match_tail_length _ _ _ Em).
      pose proof (IH rest ltac:(lia)). simpl. lia.
    + pose proof (IH t ltac:(lia)). simpl. lia.
  - pose proof (IH t ltac:(lia)). simpl. lia.
Qed.

Lemma closer_next_match_tail s :
  Forall (fun c => is_control c = false) s ->
  closer_next s = true -> is_Some (match_tail s).
Proof.
  unfold closer_next.
  induction s as [| c t IH]; simpl; [discriminate |].
  intros Hall. inversion Hall as [| ? ? Hc Ht]; subst.
  unfold is_gap. rewrite Hc, orb_false_r.
  destruct (is_space c); [apply IH; assumption |].
  intros H. rewrite H. eauto.
Qed.

Lemma pending_shrinks s :
  Forall (fun c => is_control c = false) s ->
  no_pending s = false ->
  (length (remove_trailing_commas s) < length s)%nat.
Proof.
  induction s as [| c t IH]; [discriminate |].
  intros Hall H. inversion Hall as [| ? ? Hc Ht]; subst.
  simpl in H. rewrite remove_trailing_commas_cons.
  destruct (c =? comma).
  - destruct (match_tail t) as [[d rest] |] eqn:Em.
    + pose proof (match_tail_length _ _ _ Em).
      pose proof (remove_trailing_commas_length rest). simpl. lia.
    + apply andb_false_iff in H as [H | H].
      * apply negb_false_iff in H.
        destruct (closer_next_match_tail _ Ht H) as [x Hx]. congruence.
      * specialize (IH Ht H). simpl. lia.
  - simpl in H. specialize (IH Ht H). simpl. lia.
Qed.

Lemma remove_control_clean s :
  Forall (fun c => is_control c = false) (remove_control s).
Proof.
  unfold remove_control. induction s as [| c t IH]; simpl; [constructor |].
  destruct (is_control c) eqn:E; simpl; [exact IH |].
  constructor; assumption.
Qed.

(** *** What the first pass leaves behind *)

(** A closer standing next in the scanned text was ahead in the input. *)
Lemma closer_next_scanned s :
  closer_next (remove_trailing_commas s) = true -> closer_ahead s = true.
Proof.
  induction s as [| c t IH] using scan_ind; [discriminate |].
  rewrite remove_trailing_commas_cons.
  destruct (c =? comma) eqn:Ec.
  - apply eqb_comma in Ec. subst c.
    destruct (match_tail t) as [[d rest] |] eqn:Em.
    + intros _. unfold closer_ahead. simpl.
      apply (match_tail_closer_ahead _ _ _ Em).
    + unfold closer_next. simpl. discriminate.
  - unfold closer_next, closer_ahead. simpl. rewrite Ec, orb_false_r.
    destruct (is_gap c); [| trivial].
    apply (IH t). lia.
Qed.

Lemma single_no_pending s :
  single_trailing_commas s = true ->
  no_pending (remove_trailing_commas s) = true.
Proof.
  induction s as [| c t IH] using scan_ind; [reflexivity |].
  simpl. intros H. apply andb_true_iff in H as [Hc Ht].
  rewrite remove_trailing_commas_cons.
  destruct (c =? comma) eqn:Ec.
  - destruct (match_tail t) as [[d rest] |] eqn:Em.
    + pose proof (match_tail_length _ _ _ Em).
      simpl. rewrite (closer_not_comma _ (match_tail_closer _ _ _ Em)).
      simpl. apply IH; [lia |].
      rewrite <- (match_tail_single _ _ _ Em). exact Ht.
    + simpl. rewrite Ec. apply andb_true_iff. split; [| apply IH; [lia | exact Ht]].
      apply negb_true_iff.
      destruct (closer_next (remove_trailing_commas t)) eqn:En; [| reflexivity].
      apply closer_next_scanned in En.
      unfold comma_ok in Hc. rewrite En in Hc. simpl in Hc.
      apply bool_decide_eq_true in Hc. destruct Hc as [x Hx]. congruence.
  - simpl. rewrite Ec. simpl. apply IH; [lia | exact Ht].
Qed.

(** Conversely, a closer ahead in the input stands next in the scanned
    text, unless the scan left a pending comma before it. *)
Lemma closer_ahead_scanned s :
  closer_ahead s = true ->
  no_pending (remove_trailing_commas s) = true ->
  closer_next (remove_trailing_commas s) = true.
Proof.
  induction s as [| c t IH] using scan_ind; [discriminate |].
  rewrite remove_trailing_commas_cons.
  destruct (c =? comma) eqn:Ec.
  - apply eqb_comma in Ec. subst c.
    unfold closer_ahead at 1. simpl. fold (closer_ahead t).
    destruct (match_tail t) as [[d rest] |] eqn:Em.
    + intros _ _. unfold closer_next. simpl.
      pose proof (match_tail_closer _ _ _ Em) as Hd.
      rewrite (closer_not_gap _ Hd). exact Hd.
    + intros Ha Hp. simpl in Hp. apply andb_true_iff in Hp as [Hn Hp].
      apply negb_true_iff in Hn.
      rewrite (IH t ltac:(lia) Ha Hp) in Hn. discriminate.
  - unfold closer_ahead at 1. simpl. rewrite Ec, orb_false_r.
    unfold closer_next at 1. simpl.
    destruct (is_gap c) eqn:Eg.
    + fold (closer_ahead t). fold (closer_next (remove_trailing_commas t)).
      intros Ha Hp. simpl in Hp.
      apply (IH t); [lia | exact Ha | exact Hp].
    + trivial.
Qed.

Lemma no_pending_single s :
  no_pending (remove_trailing_commas s) = true ->
  single_trailing_commas s = true.
Proof.
  induction s as [| c t IH] using scan_ind; [reflexivity |].
  rewrite remove_trailing_commas_cons. simpl.
  destruct (c =? comma) eqn:Ec.
  - destruct (match_tail t) as [[d rest] |] eqn:Em.
    + pose proof (match_tail_length _ _ _ Em).
      simpl. rewrite (closer_not_comma _ (match_tail_closer _ _ _ Em)). simpl.
      intros Hp. rewrite (match_tail_single _ _ _ Em).
      rewrite (IH rest ltac:(lia) Hp), andb_true_r.
      unfold comma_ok. rewrite Em.
      rewrite bool_decide_eq_true_2 by eauto. apply implb_true_r.
    + simpl. rewrite Ec. intros Hp. apply andb_true_iff in Hp as [Hn Hp].
      rewrite (IH t ltac:(lia) Hp), andb_true_r.
      unfold comma_ok. destruct (closer_ahead t) eqn:Ea; [| reflexivity].
      rewrite (closer_ahead_scanned _ Ea Hp) in Hn. discriminate.
  - simpl. rewrite Ec. simpl. apply (IH t). lia.
Qed.

End SanitizerFacts.

(** ** Facts about the string methods *)

Module StrFacts.
Import Str.

Lemma startswith_app p s : startswith p (p ++ s) = true.
Proof.
  induction p as [| a p IH]; simpl; [reflexivity |].
  rewrite N.eqb_refl. exact IH.
Qed.

Lemma startswith_spec p s :
  startswith p s = true <-> exists t, s = p ++ t.
Proof.
  split.
  - revert s. induction p as [| a p IH]; intros s; simpl.
    + intros _. exists s. reflexivity.
    + destruct s as [| b t]; [discriminate |].
      intros H. apply andb_true_iff in H as [Hab Hp].
      apply N.eqb_eq in Hab. subst b.
      destruct (IH _ Hp) as [u ->]. exists u. reflexivity.
  - intros [t ->]. apply startswith_app.
Qed.

Lemma startswith_contains needle s :
  startswith needle s = true -> contains needle s = true.
Proof. intros H. destruct s; simpl; rewrite H; reflexivity. Qed.

Lemma contains_spec needle s :
  contains needle s = true <-> exists a b, s = a ++ needle ++ b.
Proof.
  split.
  - induction s as [| c t IH]; simpl.
    + rewrite orb_false_r. intros H.
      apply startswith_spec in H as [u Hu]. exists [], u. exact Hu.
    + intros H. apply orb_true_iff in H as [H | H].
      * apply startswith_spec in H as [u Hu]. exists [], u. exact Hu.
      * destruct (IH H) as (a & b & ->). exists (c :: a), b. reflexivity.
  - intros (a & b & ->). induction a as [| c a IH]; simpl.
    + apply startswith_contains, startswith_app.
    + rewrite IH. apply orb_true_r.
Qed.

Lemma contains_nonempty needle s :
  needle <> [] -> contains needle s = true -> s <> [].
Proof.
  intros Hn H ->. simpl in H. rewrite orb_false_r in H.
  destruct needle; [congruence | discriminate].
Qed.

Lemma replace_from_fuel old new f1 : forall f2 s,
  old <> [] ->
  (length s <= f1)%nat -> (length s <= f2)%nat ->
  replace_from f1 old new s = replace_from f2 old new s.
Proof.
  induction f1 as [| f1 IH]; intros f2 s Hold H1 H2.
  - destruct s; [destruct f2; reflexivity | simpl in H1; lia].
  - destruct s as [| c t]; [destruct f2; reflexivity |].
    destruct f2 as [| f2]; [simpl in H2; lia |].
    simpl in H1, H2.
    change (replace_from (S f1) old new (c :: t))
      with (if startswith old (c :: t)
            then new ++ replace_from f1 old new (drop (length old) (c :: t))
            else c :: replace_from f1 old new t).
    change (replace_from (S f2) old new (c :: t))
      with (if startswith old (c :: t)
            then new ++ replace_from f2 old new (drop (length old) (c :: t))
            else c :: replace_from f2 old new t).
    destruct (startswith old (c :: t)).
    + f_equal.
      assert (Hd : (length (drop (length old) (c :: t)) <= length t)%nat).
      { rewrite length_drop. destruct old; [congruence |]. simpl. lia. }
      apply IH; [exact Hold | lia | lia].
    + f_equal. apply IH; [exact Hold | lia | lia].
Qed.

Lemma replace_cons old new c t :
  old <> [] ->
  replace old new (c :: t) =
  if startswith old (c :: t)
  then new ++ replace old new (drop (length old) (c :: t))
  else c :: replace old new t.
Proof.
  intros Hold. unfold replace.
  change (replace_from (length (c :: t)) old new (c :: t))
    with (if startswith old (c :: t)
          then new ++ replace_from (length t) old new (drop (length old) (c :: t))
          else c :: replace_from (length t) old new t).
  destruct (startswith old (c :: t)); [| reflexivity].
  f_equal. apply replace_from_fuel; [exact Hold | | lia].
  rewrite length_drop. destruct old; [congruence |]. simpl. lia.
Qed.

(** Where [old] occurs, the replaced text holds [new]. *)
Lemma replace_contains_new old new s :
  old <> [] ->
  contains old s = true ->
  exists a b, replace old new s = a ++ new ++ b.
Proof.
  intros Hold. induction s as [| c t IH].
  - intros H. exfalso. exact (contains_nonempty _ _ Hold H eq_refl).
  - intros H. rewrite (replace_cons _ _ _ _ Hold).
    change (contains old (c :: t))
      with (startswith old (c :: t) || contains old t) in H.
    destruct (startswith old (c :: t)).
    + exists [], (replace old new (drop (length old) (c :: t))). reflexivity.
    + simpl in H. destruct (IH H) as (a & b & E).
      exists (c :: a), b. rewrite E. reflexivity.
Qed.

End StrFacts.

(** ** Facts about the classifier *)

Module ClassifierFacts.
Import Str Classifier StrFacts.

Lemma alias_rewrite_has_raw u :
  contains (py "pastebin.com") u = true ->
  contains (py "raw") (replace (py "pastebin.com") (py "pastebin.com/raw") u)
  = true.
Proof.
  intros H.
  destruct (replace_contains_new (py "pastebin.com") (py "pastebin.com/raw") u)
    as (a & b & E); [discriminate | exact H |].
  rewrite E. apply contains_spec.
  exists (a ++ py "pastebin.com/"), b.
  rewrite <- !app_assoc. reflexivity.
Qed.

(** The rewrite does nothing once the marker [raw] is in the URL. *)
Lemma alias_rewrite_raw u :
  contains (py "raw") u = true -> alias_rewrite u = u.
Proof.
  intros H. unfold alias_rewrite. rewrite H, andb_false_r. reflexivity.
Qed.

Lemma alias_rewrite_cases u :
  alias_rewrite u = u \/ contains (py "raw") (alias_rewrite u) = true.
Proof.
  unfold alias_rewrite.
  destruct (contains (py "pastebin.com") u) eqn:Eh; simpl; [| left; reflexivity].
  destruct (contains (py "raw") u) eqn:Er; simpl; [left; reflexivity |].
  right. apply alias_rewrite_has_raw. exact Eh.
Qed.

Lemma alias_rewrite_idem u : alias_rewrite (alias_rewrite u) = alias_rewrite u.
Proof.
  destruct (alias_rewrite_cases u) as [E | E].
  - rewrite E. exact E.
  - apply alias_rewrite_raw. exact E.
Qed.

Lemma alias_rewrite_nonempty u : u <> [] -> alias_rewrite u <> [].
Proof.
  intros Hu. unfold alias_rewrite.
  destruct (contains (py "pastebin.com") u) eqn:Eh; simpl; [| exact Hu].
  destruct (contains (py "raw") u) eqn:Er; simpl; [exact Hu |].
  apply (contains_nonempty (py "raw")); [discriminate |].
  apply alias_rewrite_has_raw. exact Eh.
Qed.

End ClassifierFacts.

(** ** The dispatch of a selected URL *)

Module TargetFacts.
Import Str Py Classifier Navigator StrFacts ClassifierFacts.

Lemma rewritten_url_str u :
  rewritten_url (JStr u) = Ok (JStr (alias_rewrite u)).
Proof.
  unfold rewritten_url, alias_rewrite. simpl.
  destruct (bool_decide (u = [])) eqn:Eu; simpl.
  - apply bool_decide_eq_true in Eu. subst u. reflexivity.
  - destruct (contains (py "pastebin.com") u); simpl; [| reflexivity].
    destruct (contains (py "raw") u); reflexivity.
Qed.

(** A [str] taken from the selected entry is dispatched unless it is
    empty. *)
Lemma target_str u :
  target (JStr u) =
  Ok (if bool_decide (u = []) then None
      else Some (alias_rewrite u, classify (alias_rewrite u))).
Proof.
  unfold target. rewrite rewritten_url_str. simpl.
  destruct (bool_decide (u = [])) eqn:Eu.
  - apply bool_decide_eq_true in Eu. subst u. reflexivity.
  - apply bool_decide_eq_false in Eu.
    rewrite bool_decide_eq_false_2 by (apply alias_rewrite_nonempty; exact Eu).
    reflexivity.
Qed.

(** An entry without [url] is not dispatched. *)
Lemma target_none : target JNull = Ok None.
Proof. reflexivity. Qed.

End TargetFacts.

(** ** Facts about the menu *)

Module MenuFacts.
Import Py Menu Document.

Lemma grown_refl m : grown m m [].
Proof.
  unfold grown. simpl. rewrite !app_nil_r. repeat split. lia.
Qed.

Lemma grown_trans m1 m2 m3 a b :
  grown m1 m2 a -> grown m2 m3 b -> grown m1 m3 (a ++ b).
Proof.
  intros (Ho1 & Hi1 & Hp1) (Ho2 & Hi2 & Hp2). unfold grown.
  rewrite Ho2, Ho1, Hi2, Hi1, Hp2, Hp1, Hi1.
  rewrite length_app, seq_app, <- !app_assoc.
  repeat split. lia.
Qed.

Lemma format_url_str u : exists shown, format_url (JStr u) = Ok shown.
Proof. simpl. eauto. Qed.

Lemma add_option_grown indent unnamed entry parent m :
  has_optional_url entry = true ->
  exists m', add_option indent unnamed entry parent m = Ok m'
             /\ grown m m' [(entry, parent)].
Proof.
  unfold has_optional_url, add_option.
  destruct entry as [| | | | | items |]; try discriminate.
  simpl. intros H.
  destruct (assoc (py "url") items) as [v |] eqn:Eu; simpl.
  - destruct v; try discriminate. simpl.
    eexists. split; [reflexivity |].
    unfold grown, printed_indices. simpl. rewrite omap_app. simpl.
    repeat split. lia.
  - eexists. split; [reflexivity |].
    unfold grown, printed_indices. simpl. rewrite omap_app. simpl.
    repeat split. lia.
Qed.

(** A loop whose every turn grows the menu grows it by all the turns. *)
Lemma for_each_grown {A} (body : A -> menu -> res menu)
    (f : A -> list (json * option json)) (l : list A) :
  (forall x, x ∈ l -> forall m, exists m', body x m = Ok m' /\ grown m m' (f x)) ->
  forall m, exists m', for_each body l m = Ok m' /\ grown m m' (flat_map f l).
Proof.
  induction l as [| x rest IH]; intros Hbody m; simpl.
  - exists m. split; [reflexivity | apply grown_refl].
  - destruct (Hbody x ltac:(left) m) as (m1 & E1 & G1).
    rewrite E1. simpl.
    destruct (IH (fun y Hy => Hbody y ltac:(right; exact Hy)) m1)
      as (m2 & E2 & G2).
    exists m2. split; [exact E2 |].
    exact (grown_trans _ _ _ _ _ G1 G2).
Qed.

Lemma flat_map_singleton {A B} (g : A -> B) (l : list A) :
  flat_map (fun x => [g x]) l = List.map g l.
Proof. induction l as [| x t IH]; simpl; [reflexivity | rewrite IH; reflexivity]. Qed.

(** A field that holds a sequence is read by [get] and iterated as its
    [children]. *)
Lemma sequence_children p key entry :
  has_optional_url entry = true ->
  sequence_of p (field key entry) = true ->
  exists v, get entry (py key) (JArr []) = Ok v
            /\ iterate v = Ok (children key entry)
            /\ forallb p (children key entry) = true.
Proof.
  unfold has_optional_url, children, field, get.
  destruct entry as [| | | | | items |]; try discriminate.
  intros _. destruct (assoc (py key) items) as [v |]; simpl.
  - destruct v; try discriminate. intros Hp.
    eexists. repeat split. exact Hp.
  - intros _. eexists. repeat split.
Qed.

Lemma stations_grown indent unnamed parent ss m :
  forallb is_station ss = true ->
  exists m',
    for_each (fun s => add_option indent unnamed s parent) ss m = Ok m'
    /\ grown m m' (List.map (fun s => (s, parent)) ss).
Proof.
  intros Hss. rewrite <- flat_map_singleton.
  apply for_each_grown. intros s Hs m0.
  apply add_option_grown.
  rewrite forallb_forall in Hss. apply Hss.
  apply list_elem_of_In. exact Hs.
Qed.

Lemma add_nested_group_grown group nested_group m :
  is_nested_group nested_group = true ->
  exists m', add_nested_group group nested_group m = Ok m'
             /\ grown m m' (nested_group_options group nested_group).
Proof.
  unfold is_nested_group, add_nested_group. intros H.
  apply andb_true_iff in H as [Hu Hs].
  destruct (add_option_grown 2 "Unnamed Nested Group" nested_group
              (Some group) m Hu) as (m1 & E1 & G1).
  rewrite E1. simpl.
  destruct (sequence_children _ _ _ Hu Hs) as (v & Ev & Ei & Hall).
  rewrite Ev. simpl. rewrite Ei. simpl.
  destruct (stations_grown 4 "Unnamed Nested Station" (Some nested_group)
              _ m1 Hall) as (m2 & E2 & G2).
  exists m2. split; [exact E2 |].
  exact (grown_trans _ _ _ _ _ G1 G2).
Qed.

Lemma add_group_grown group m :
  is_group group = true ->
  exists m', add_group group m = Ok m' /\ grown m m' (group_options group).
Proof.
  unfold is_group, add_group. intros H.
  apply andb_true_iff in H as [H Hg]. apply andb_true_iff in H as [Hu Hs].
  destruct (add_option_grown 0 "Unnamed Group" group None m Hu)
    as (m1 & E1 & G1).
  rewrite E1. simpl.
  destruct (sequence_children _ _ _ Hu Hs) as (v & Ev & Ei & Hall).
  rewrite Ev. simpl. rewrite Ei. simpl.
  destruct (stations_grown 2 "Unnamed Station" (Some group) _ m1 Hall)
    as (m2 & E2 & G2).
  rewrite E2. simpl.
  destruct (sequence_children _ _ _ Hu Hg) as (v' & Ev' & Ei' & Hall').
  rewrite Ev'. simpl. rewrite Ei'. simpl.
  destruct (for_each_grown (add_nested_group group)
              (nested_group_options group) (children "groups" group)) with (m := m2)
    as (m3 & E3 & G3).
  { intros ng Hng m0. apply add_nested_group_grown.
    rewrite forallb_forall in Hall'. apply Hall'.
    apply list_elem_of_In. exact Hng. }
  exists m3. split; [exact E3 |].
  exact (grown_trans _ _ _ _ _ G1 (grown_trans _ _ _ _ _ G2 G3)).
Qed.

(** The menu of a document: the options the specification lists, the
    counter at their number, the lines numbered from 0. *)
Lemma render_document data :
  is_document data = true ->
  exists m, render data = Ok m
            /\ options m = spec_options data
            /\ option_index m = length (options m)
            /\ printed_indices (printed m) = seq 0 (length (options m)).
Proof.
  unfold is_document.
  destruct data as [| | | | | items |]; try discriminate.
  intros H. apply andb_true_iff in H as [Hg Hs].
  assert (Hfin : forall m0 m opts,
             option_index m0 = 0%nat -> options m0 = [] ->
             printed_indices (printed m0) = [] ->
             grown m0 m opts ->
             options m = opts /\ option_index m = length (options m)
             /\ printed_indices (printed m) = seq 0 (length (options m))).
  { intros m0 m opts Hi Ho Hp (Go & Gi & Gp).
    rewrite Ho in Go. rewrite Hi in Gi, Gp. rewrite Hp in Gp.
    simpl in Go, Gi, Gp. rewrite Gi, Gp, Go. repeat split. }
  unfold render, spec_options, children, field, get in *.
  simpl.
  set (m0 := {| option_index := 0; options := [];
                printed := [LName (default (JStr (py "Unknown"))
                                     (assoc (py "name") items))] |}).
  destruct (assoc (py "groups") items) as [gv |] eqn:Eg; simpl.
  - destruct gv; try discriminate. simpl in Hg.
    destruct items0 as [| g gs].
    + simpl.
      destruct (assoc (py "stations") items) as [sv |] eqn:Es; simpl.
      * destruct sv; try discriminate. simpl in Hs.
        destruct items0 as [| s ss]; simpl.
        -- exists m0. repeat split.
        -- destruct (stations_grown 0 "Unnamed Station" None (s :: ss) m0 Hs)
             as (m & E & G).
           exists m. split; [exact E |].
           apply (Hfin m0); [reflexivity .. | exact G].
      * exists m0. repeat split.
    + change (truthy (JArr (g :: gs))) with true. cbv iota.
      change (iterate (JArr (g :: gs))) with (Ok (g :: gs)).
      destruct (for_each_grown add_group group_options (g :: gs)) with (m := m0)
        as (m & E & G).
      { intros x Hx m1. apply add_group_grown.
        rewrite forallb_forall in Hg. apply Hg.
        apply list_elem_of_In. exact Hx. }
      exists m. split; [exact E |].
      apply (Hfin m0); [reflexivity .. | exact G].
  - destruct (assoc (py "stations") items) as [sv |] eqn:Es; simpl.
    + destruct sv; try discriminate. simpl in Hs.
      destruct items0 as [| s ss]; simpl.
      * exists m0. repeat split.
      * destruct (stations_grown 0 "Unnamed Station" None (s :: ss) m0 Hs)
          as (m & E & G).
        exists m. split; [exact E |].
        apply (Hfin m0); [reflexivity .. | exact G].
    + exists m0. repeat split.
Qed.

(** Where the groups are non-empty, [render] never reads the top-level
    stations. *)
Lemma render_ignores_stations items items' :
  assoc (py "name") items = assoc (py "name") items' ->
  assoc (py "groups") items = assoc (py "groups") items' ->
  truthy (default (JArr []) (assoc (py "groups") items)) = true ->
  render (JObj items) = render (JObj items').
Proof.
  intros Hn Hg Ht. unfold render, get. simpl.
  rewrite <- Hn, <- Hg, Ht. reflexivity.
Qed.

End MenuFacts.

(** ** Running the monad *)

Module RunFacts.
Import Py Menu Effects.

Lemma bind_run {A B} (m : M A) (k : A -> M B) w :
  bind m k w =
  match m w with
  | Done a w' => k a w'
  | Raised e w' => Raised e w'
  | OutOfFuel => OutOfFuel
  end.
Proof. reflexivity. Qed.

Lemma bind_done {A B} (m : M A) (k : A -> M B) w a w' :
  m w = Done a w' -> bind m k w = k a w'.
Proof. intros E. rewrite bind_run, E. reflexivity. Qed.

Lemma bind_raised {A B} (m : M A) (k : A -> M B) w e w' :
  m w = Raised e w' -> bind m k w = Raised e w'.
Proof. intros E. rewrite bind_run, E. reflexivity. Qed.

Lemma log_log a b w : log b (log a w) = log (a ++ b) w.
Proof. unfold log. simpl. rewrite <- app_assoc. reflexivity. Qed.

Lemma log_nil w : log [] w = w.
Proof. destruct w. unfold log. simpl. rewrite app_nil_r. reflexivity. Qed.

Lemma emit_run e w : emit e w = Done tt (log [e] w).
Proof. reflexivity. Qed.

Lemma print_run l w : print l w = Done tt (log [Print l] w).
Proof. reflexivity. Qed.

Lemma print_all_run lines w :
  print_all lines w = Done tt (log (List.map Print lines) w).
Proof.
  revert w. induction lines as [| l rest IH]; intros w; simpl.
  - rewrite log_nil. reflexivity.
  - rewrite bind_run, print_run, IH, log_log. reflexivity.
Qed.

Lemma input_run p w l rest :
  stdin w = l :: rest ->
  input p w = Done l (set_stdin rest (log [Asked p] w)).
Proof. intros E. unfold input. rewrite E. reflexivity. Qed.

Lemma input_eof p w :
  stdin w = [] ->
  input p w = Raised EOFError (set_stdin [] (log [Asked p] w)).
Proof. intros E. unfold input. rewrite E. reflexivity. Qed.

Lemma lift_ok {A} (a : A) w : lift (Ok a) w = Done a w.
Proof. reflexivity. Qed.

Lemma lift_raise {A} e w : lift (@Raise A e) w = Raised e w.
Proof. reflexivity. Qed.

Lemma last_snoc {A} (l : list A) x : last (l ++ [x]) = Some x.
Proof. apply last_snoc. Qed.

Lemma history_pop_run w h url :
  history w = h ++ [url] ->
  history_pop w = Done url (set_history h w).
Proof.
  intros E. unfold history_pop. rewrite E, last_snoc, removelast_last.
  reflexivity.
Qed.

End RunFacts.

(** ** Effects that leave part of the world alone *)

Module FrameFacts.
Import Effects RunFacts Frame.

Section Rules.
Variable R : world -> world -> Prop.
Hypothesis R_refl : forall w, R w w.
Hypothesis R_trans : forall a b c, R a b -> R b c -> R a c.

Lemma keeps_ret {A} (a : A) : keeps R (ret a).
Proof. intros w. apply R_refl. Qed.

Lemma keeps_raise {A} e : keeps R (@raise A e).
Proof. intros w. apply R_refl. Qed.

Lemma keeps_lift {A} (r : res A) : keeps R (lift r).
Proof. destruct r; [apply keeps_ret | apply keeps_raise]. Qed.

Lemma keeps_bind {A B} (m : M A) (k : A -> M B) :
  keeps R m -> (forall a, keeps R (k a)) -> keeps R (bind m k).
Proof.
  intros Hm Hk w. rewrite bind_run. specialize (Hm w).
  destruct (m w) as [a w' | e w' |]; [| exact Hm | exact I].
  specialize (Hk a w').
  destruct (k a w') as [b w'' | e w'' |]; [| | exact I];
    exact (R_trans _ _ _ Hm Hk).
Qed.

Lemma keeps_try_except {A} (m : M A) caught (handler : M A) :
  keeps R m -> keeps R handler -> keeps R (try_except m caught handler).
Proof.
  intros Hm Hh w. unfold try_except. specialize (Hm w).
  destruct (m w) as [a w' | e w' |]; [exact Hm | | exact I].
  destruct (caught e); [| exact Hm].
  specialize (Hh w').
  destruct (handler w') as [b w'' | e' w'' |]; [| | exact I];
    exact (R_trans _ _ _ Hm Hh).
Qed.

Lemma keeps_if {A} (b : bool) (m1 m2 : M A) :
  keeps R m1 -> keeps R m2 -> keeps R (if b then m1 else m2).
Proof. destruct b; trivial. Qed.

End Rules.

Lemma same_history_refl w : same_history w w.
Proof. reflexivity. Qed.

Lemma same_history_trans a b c :
  same_history a b -> same_history b c -> same_history a c.
Proof. unfold same_history. congruence. Qed.

Lemma nothing_written_refl w : nothing_written w w.
Proof. intros name. left. reflexivity. Qed.

Lemma nothing_written_trans a b c :
  nothing_written a b -> nothing_written b c -> nothing_written a c.
Proof.
  intros H1 H2 name. destruct (H2 name) as [E | E]; [| right; exact E].
  rewrite E. apply H1.
Qed.

Lemma input_consumed_refl w : input_consumed w w.
Proof. exists []. reflexivity. Qed.

Lemma input_consumed_trans a b c :
  input_consumed a b -> input_consumed b c -> input_consumed a c.
Proof.
  intros [r1 E1] [r2 E2]. exists (r1 ++ r2).
  rewrite E1, E2, app_assoc. reflexivity.
Qed.

End FrameFacts.

(** ** Facts about the loader *)

Module LoaderFacts.
Import Py Effects Loader RunFacts Frame FrameFacts.

Section WithLib.
Context `{PyLib}.

(** *** The loader never touches the history *)

Lemma emit_history e : keeps same_history (emit e).
Proof. intros w. reflexivity. Qed.

Lemma input_history p : keeps same_history (input p).
Proof. intros w. unfold input. destruct (stdin w); reflexivity. Qed.

Lemma path_exists_history f : keeps same_history (path_exists f).
Proof. intros w. reflexivity. Qed.

Lemma read_file_history f : keeps same_history (read_file f).
Proof. intros w. unfold read_file. destruct (files w !! f); reflexivity. Qed.

Lemma write_file_history f c : keeps same_history (write_file f c).
Proof. intros w. reflexivity. Qed.

Lemma remove_file_history f : keeps same_history (remove_file f).
Proof. intros w. reflexivity. Qed.

Lemma requests_get_history u : keeps same_history (requests_get u).
Proof.
  intros w. unfold requests_get.
  destruct (network w (requests w) u); reflexivity.
Qed.

Lemma validate_json_history c : keeps same_history (validate_json c).
Proof.
  unfold validate_json. destruct (json_loads c).
  - apply (keeps_ret _ same_history_refl).
  - apply (keeps_bind _ same_history_trans); [apply emit_history |].
    intros _. apply (keeps_ret _ same_history_refl).
Qed.

Lemma loads_history c : keeps same_history (loads c).
Proof.
  unfold loads. destruct (json_loads c).
  - apply (keeps_ret _ same_history_refl).
  - apply (keeps_raise _ same_history_refl).
Qed.

Lemma get_filename_history u : keeps same_history (get_filename_from_url u).
Proof.
  unfold get_filename_from_url. destruct (url_basename u).
  - apply (keeps_ret _ same_history_refl).
  - apply (keeps_raise _ same_history_refl).
Qed.

(** One rule per shape of the program text. *)
Ltac history_rules :=
  repeat match goal with
    | |- forall _, keeps _ _ => intro; cbv beta
    | |- keeps _ (bind _ _) => apply (keeps_bind _ same_history_trans)
    | |- keeps _ (try_except _ _ _) =>
        apply (keeps_try_except _ same_history_trans)
    | |- keeps _ (ret _) => apply (keeps_ret _ same_history_refl)
    | |- keeps _ (raise _) => apply (keeps_raise _ same_history_refl)
    | |- keeps _ (emit _) => apply emit_history
    | |- keeps _ (print _) => apply emit_history
    | |- keeps _ (open_in_vlc _) => apply emit_history
    | |- keeps _ (input _) => apply input_history
    | |- keeps _ (path_exists _) => apply path_exists_history
    | |- keeps _ (read_file _) => apply read_file_history
    | |- keeps _ (write_file _ _) => apply write_file_history
    | |- keeps _ (remove_file _) => apply remove_file_history
    | |- keeps _ (requests_get _) => apply requests_get_history
    | |- keeps _ (validate_json _) => apply validate_json_history
    | |- keeps _ (loads _) => apply loads_history
    | |- keeps _ (get_filename_from_url _) => apply get_filename_history
    | |- keeps _ (if ?b then _ else _) => destruct b
    | |- keeps _ (match ?x with _ => _ end) => destruct x
    end.

Lemma from_cache_history f : keeps same_history (from_cache f).
Proof. unfold from_cache, revalidate_and_clean_cache. history_rules. Qed.

Lemma from_network_history u f : keeps same_history (from_network u f).
Proof. unfold from_network, raise_for_status. history_rules. Qed.

Lemma fetch_w3u_history u : keeps same_history (fetch_w3u u).
Proof.
  unfold fetch_w3u. history_rules.
  - apply from_cache_history.
  - apply from_network_history.
Qed.

Lemma fetch_w3u_done_history u w d w' :
  fetch_w3u u w = Done d w' -> history w' = history w.
Proof. intros E. pose proof (fetch_w3u_history u w) as K. rewrite E in K. exact K. Qed.

(** *** The cache check *)

Lemma get_filename_run url filename w :
  cache_name url = Some filename ->
  get_filename_from_url url w = Done filename w.
Proof.
  unfold cache_name, get_filename_from_url.
  destruct (url_basename url); [| discriminate].
  intros E. injection E as <-. reflexivity.
Qed.

Lemma get_filename_done url filename w w' :
  get_filename_from_url url w = Done filename w' ->
  cache_name url = Some filename /\ w' = w.
Proof.
  unfold cache_name, get_filename_from_url.
  destruct (url_basename url); [| discriminate].
  unfold ret. intros E. injection E as <- <-. split; reflexivity.
Qed.

(** The three ways of the cache check: no file; a file that is valid
    once sanitized, rewritten and returned; a file that is not, removed. *)
Lemma from_cache_cases f w :
  (files w !! f = None /\ from_cache f w = Done None w)
  \/ (exists c d,
        files w !! f = Some c
        /\ json_loads (Sanitizer.clean_json c) = Some d
        /\ from_cache f w
           = Done (Some d)
               (set_files (<[f := Sanitizer.clean_json c]> (files w)) w))
  \/ (exists c,
        files w !! f = Some c
        /\ json_loads (Sanitizer.clean_json c) = None
        /\ from_cache f w
           = Done None
               (set_files (delete f (files w))
                  (log [Print LValidationError; Print (LCacheError f)] w))).
Proof.
  unfold from_cache. rewrite bind_run. unfold path_exists. cbv beta iota.
  destruct (files w !! f) as [c |] eqn:Ef.
  - right. rewrite bool_decide_eq_true_2 by eauto.
    unfold try_except, revalidate_and_clean_cache.
    rewrite !bind_run. unfold read_file. rewrite Ef. cbv beta iota.
    unfold validate_json, loads.
    destruct (json_loads (Sanitizer.clean_json c)) as [d |] eqn:Ej.
    + left. exists c, d. split; [reflexivity |]. split; [exact Ej |].
      reflexivity.
    + right. exists c. split; [reflexivity |]. split; [exact Ej |].
      cbv beta iota delta [bind print emit ret raise remove_file is_json_error].
      rewrite log_log. reflexivity.
  - left. split; [reflexivity |].
    rewrite bool_decide_eq_false_2; [reflexivity |].
    intros [x Hx]. discriminate.
Qed.

(** When the cache check does not answer, no slot was written and the
    slot asked for is empty. *)
Lemma from_cache_none f w w0 :
  from_cache f w = Done None w0 ->
  files w0 = delete f (files w)
  /\ history w0 = history w /\ stdin w0 = stdin w
  /\ requests w0 = requests w /\ network w0 = network w.
Proof.
  destruct (from_cache_cases f w) as [[Ef E] | [(c & d & Ef & Ej & E) | (c & Ef & Ej & E)]];
    rewrite E; intros Hd; [| discriminate |].
  - injection Hd as <-. rewrite (delete_id _ _ Ef). repeat split.
  - injection Hd as <-. repeat split.
Qed.

(** *** The request *)

Lemma strip_keeps_marker s :
  Str.startswith (py "#EXTM3U") s = true ->
  Str.startswith (py "#EXTM3U") (Str.strip s) = true.
Proof.
  intros Hs. apply StrFacts.startswith_spec in Hs as [t ->].
  unfold Str.strip.
  change (Str.lstrip (py "#EXTM3U" ++ t)) with (py "#EXTM3U" ++ t).
  rewrite rev_app_distr.
  assert (Hl : forall l, exists l',
             Str.lstrip (l ++ rev (py "#EXTM3U")) = l' ++ rev (py "#EXTM3U")).
  { induction l as [| c l IH]; [exists []; reflexivity |].
    simpl. destruct (is_space c); [exact IH |].
    exists (c :: l). reflexivity. }
  destruct (Hl (rev t)) as [l' ->].
  rewrite rev_app_distr, rev_involutive.
  apply StrFacts.startswith_app.
Qed.

(** A media playlist: the question is asked, nothing is parsed or
    written. *)
Lemma from_network_m3u url f w r c rest :
  network w (requests w) url = Some r ->
  Str.startswith (py "#EXTM3U") (Str.strip (resp_text r)) = true ->
  stdin w = c :: rest ->
  from_network url f w
  = Done JNull
      (log (match c with
            | TYes => [Print (LOpeningVlc url); Sleep; Vlc url]
            | _ => []
            end)
         (set_stdin rest
            (log [Asked (PConfirmM3u url)]
               (count_request (log [HttpGet url] w))))).
Proof.
  intros Hn Hm Hin. unfold from_network, try_except.
  rewrite bind_run. unfold requests_get. rewrite Hn. cbv beta iota zeta.
  rewrite Hm. rewrite bind_run.
  erewrite input_run by (simpl; exact Hin). cbv beta iota.
  destruct c; rewrite bind_run; unfold ret; cbv beta iota;
    try (rewrite log_nil; reflexivity).
  rewrite bind_run, print_run. cbv beta iota.
  rewrite bind_run, emit_run. cbv beta iota.
  unfold open_in_vlc. rewrite emit_run, !log_log. reflexivity.
Qed.

(** What the handler of [fetch_w3u] does. *)
Lemma fetch_handler_run url w l rest :
  stdin w = l :: rest ->
  (bind (print (LFetchError url))
        (fun _ => bind (input PEnter) (fun _ => ret JNull))) w
  = Done JNull
      (set_stdin rest (log [Print (LFetchError url); Asked PEnter] w)).
Proof.
  intros Hin. rewrite bind_run, print_run. cbv beta iota.
  rewrite bind_run. erewrite input_run by (simpl; exact Hin).
  cbv beta iota. rewrite log_log. reflexivity.
Qed.

(** A failed request: the error is printed, a line is awaited, nothing
    is written. *)
Lemma from_network_fails url f w l rest :
  fetch_fails url w ->
  stdin w = l :: rest ->
  exists w',
    from_network url f w = Done JNull w'
    /\ files w' = files w
    /\ history w' = history w
    /\ stdin w' = rest
    /\ exists evs,
         trace w' = trace w ++ HttpGet url :: evs
                    ++ [Print (LFetchError url); Asked PEnter].
Proof.
  unfold fetch_fails. intros Hf Hin.
  unfold from_network, try_except.
  rewrite bind_run. unfold requests_get.
  destruct (network w (requests w) url) as [r |]; cbv beta iota zeta.
  - destruct Hf as [Hm Hbad]. rewrite Hm.
    rewrite bind_run. unfold raise_for_status.
    destruct (resp_ok r) eqn:Eok.
    + destruct Hbad as [Hbad | Hbad]; [discriminate |].
      unfold ret at 1. cbv beta iota.
      rewrite bind_run. unfold validate_json. rewrite Hbad.
      rewrite bind_run, print_run. cbv beta iota. unfold ret at 1.
      cbv beta iota. rewrite bind_run. unfold raise at 1. cbv beta iota.
      unfold is_fetch_error. cbv iota.
      rewrite (fetch_handler_run url _ l rest) by exact Hin.
      eexists. split; [reflexivity |]. repeat split.
      exists [Print LValidationError]. simpl. rewrite <- !app_assoc. reflexivity.
    + unfold raise at 1. cbv beta iota. unfold is_fetch_error. cbv iota.
      rewrite (fetch_handler_run url _ l rest) by exact Hin.
      eexists. split; [reflexivity |]. repeat split.
      exists []. simpl. rewrite <- !app_assoc. reflexivity.
  - unfold is_fetch_error. cbv iota.
    rewrite (fetch_handler_run url _ l rest) by exact Hin.
    eexists. split; [reflexivity |]. repeat split.
    exists []. simpl. rewrite <- !app_assoc. reflexivity.
Qed.

(** A request that returns a Document has written its dump. *)
Lemma from_network_done url f w d w' :
  from_network url f w = Done d w' ->
  Py.truthy d = true ->
  files w' !! f = Some (json_dump d)
  /\ exists text, json_loads text = Some d.
Proof.
  unfold from_network, try_except.
  set (handler := bind (print (LFetchError url)) (fun _ => bind (input PEnter) (fun _ => ret JNull))).
  assert (Hh : forall w0 d w', handler w0 = Done d w' -> Py.truthy d = true -> False).
  { intros w0 d0 w0'. unfold handler. rewrite bind_run, print_run. cbv beta iota.
    rewrite bind_run. unfold input.
    destruct (stdin (log [Print (LFetchError url)] w0)); cbv beta iota zeta.
    - discriminate.
    - unfold ret. intros E. injection E as <- <-. discriminate. }
  rewrite bind_run. unfold requests_get.
  destruct (network w (requests w) url) as [r |]; cbv beta iota zeta.
  2:{ intros E Ht. exfalso. exact (Hh _ _ _ E Ht). }
  destruct (Str.startswith (py "#EXTM3U") (Str.strip (resp_text r))).
  - rewrite bind_run. unfold input.
    destruct (stdin _); cbv beta iota zeta; [discriminate |].
    match goal with |- context [match ?c with TYes => _ | _ => _ end] =>
      assert (Hc : exists w1, (match c with
        | TYes => bind (print (LOpeningVlc url)) (fun _ => bind (emit Sleep) (fun _ => open_in_vlc url))
        | _ => ret tt end) (set_stdin (tail (t :: l)) (log [Asked (PConfirmM3u url)] (count_request (log [HttpGet url] w)))) = Done tt w1)
    end.
    { destruct t; eexists; reflexivity. }
    destruct Hc as [w1 Hc]. rewrite bind_run, Hc. cbv beta iota.
    unfold ret. intros E. injection E as <- <-. discriminate.
  - rewrite bind_run. unfold raise_for_status.
    destruct (resp_ok r).
    2:{ unfold raise at 1. cbv beta iota. intros E Ht. exfalso. exact (Hh _ _ _ E Ht). }
    unfold ret at 1. cbv beta iota.
    rewrite bind_run. unfold validate_json, loads.
    destruct (json_loads (Sanitizer.clean_json (resp_text_utf8 r)))
      as [data |] eqn:Ej.
    + unfold ret at 1. cbv beta iota. rewrite bind_run. unfold ret at 1.
      cbv beta iota. rewrite bind_run. unfold ret at 1. cbv beta iota.
      rewrite bind_run. unfold write_file. cbv beta iota.
      rewrite bind_run, print_run. cbv beta iota. unfold ret.
      intros E _. injection E as <- <-. simpl.
      split; [apply lookup_insert_eq | eauto].
    + rewrite bind_run, print_run. cbv beta iota. unfold ret at 1.
      cbv beta iota. rewrite bind_run. unfold raise at 1. cbv beta iota.
      intros E Ht. exfalso. exact (Hh _ _ _ E Ht).
Qed.

(** *** The whole load *)

Lemma cache_misses_run f w :
  cache_misses f w ->
  exists w0,
    from_cache f w = Done None w0
    /\ files w0 = delete f (files w)
    /\ history w0 = history w /\ stdin w0 = stdin w
    /\ requests w0 = requests w /\ network w0 = network w
    /\ exists checked,
         trace w0 = trace w ++ checked
         /\ (checked = []
             \/ checked = [Print LValidationError; Print (LCacheError f)]).
Proof.
  intros Hm.
  destruct (from_cache_cases f w)
    as [[Ef E] | [(c & d & Ef & Ej & E) | (c & Ef & Ej & E)]].
  - exists w. rewrite (delete_id _ _ Ef). repeat split; [exact E |].
    exists []. rewrite app_nil_r. split; [reflexivity | left; reflexivity].
  - exfalso. destruct Hm as [Hm | (c' & Hc' & Hj)]; congruence.
  - eexists. split; [exact E |]. repeat split.
    eexists. split; [reflexivity | right; reflexivity].
Qed.

Lemma fetch_w3u_run url f w w0 :
  cache_name url = Some f ->
  from_cache f w = Done None w0 ->
  fetch_w3u url w = from_network url f w0.
Proof.
  intros Hn Hc. unfold fetch_w3u.
  rewrite bind_run, (get_filename_run _ _ _ Hn). cbv beta iota.
  rewrite bind_run, Hc. reflexivity.
Qed.

Lemma delete_nothing_written f (w w' : world) :
  files w' = delete f (files w) -> nothing_written w w'.
Proof.
  intros E name. rewrite E.
  destruct (decide (f = name)) as [-> | Hne].
  - right. apply lookup_delete_eq.
  - left. apply lookup_delete_ne. exact Hne.
Qed.

(** A slot that is valid once sanitized answers the load: the slot is
    rewritten, nothing else happens. *)
Lemma fetch_w3u_cached url f w c d :
  cache_name url = Some f ->
  files w !! f = Some c ->
  json_loads (Sanitizer.clean_json c) = Some d ->
  fetch_w3u url w
  = Done d (set_files (<[f := Sanitizer.clean_json c]> (files w)) w).
Proof.
  intros Hn Hf Hj. unfold fetch_w3u.
  rewrite bind_run, (get_filename_run _ _ _ Hn). cbv beta iota.
  rewrite bind_run.
  destruct (from_cache_cases f w)
    as [[Ef E] | [(c' & d' & Ef & Ej & E) | (c' & Ef & Ej & E)]];
    try congruence.
  rewrite E. cbv beta iota.
  assert (c' = c) by congruence. subst c'.
  assert (d' = d) by congruence. subst d'. reflexivity.
Qed.

(** After a load that returned a Document the slot holds a text: the
    dump of the Document, or a sanitized text that reads as it. *)
Lemma fetch_w3u_done_slot url w d w1 :
  fetch_w3u url w = Done d w1 ->
  Py.truthy d = true ->
  exists f text,
    cache_name url = Some f
    /\ files w1 !! f = Some text
    /\ (text = json_dump d \/ json_loads text = Some d).
Proof.
  unfold fetch_w3u. rewrite bind_run.
  destruct (get_filename_from_url url w) as [f w0 | e w0 |] eqn:Eg;
    [| discriminate | discriminate].
  apply get_filename_done in Eg as [Hn ->].
  cbv beta iota. rewrite bind_run.
  destruct (from_cache_cases f w)
    as [[Ef E] | [(c & d' & Ef & Ej & E) | (c & Ef & Ej & E)]];
    rewrite E; cbv beta iota.
  - intros En Ht. exists f, (json_dump d). split; [exact Hn |].
    split; [| left; reflexivity].
    exact (proj1 (from_network_done _ _ _ _ _ En Ht)).
  - unfold ret. intros Ed _. injection Ed as <- <-.
    exists f, (Sanitizer.clean_json c). split; [exact Hn |].
    split; [apply lookup_insert_eq | right; exact Ej].
  - intros En Ht. exists f, (json_dump d). split; [exact Hn |].
    split; [| left; reflexivity].
    exact (proj1 (from_network_done _ _ _ _ _ En Ht)).
Qed.

(** A load answered by the network leaves the dump of its Document in
    the slot, and the Document is one the reader returned. *)
Lemma fetch_w3u_network_slot url f w d w1 :
  cache_name url = Some f ->
  cache_misses f w ->
  fetch_w3u url w = Done d w1 ->
  Py.truthy d = true ->
  files w1 !! f = Some (json_dump d)
  /\ exists text, json_loads text = Some d.
Proof.
  intros Hn Hm Hf Ht.
  destruct (cache_misses_run _ _ Hm) as (w0 & Hc & _).
  rewrite (fetch_w3u_run _ _ _ _ Hn Hc) in Hf.
  exact (from_network_done _ _ _ _ _ Hf Ht).
Qed.

End WithLib.
End LoaderFacts.

(** ** Facts about the navigator *)

Module NavigatorFacts.
Import Py Classifier Menu Effects Loader Navigator Screen.
Import RunFacts Frame FrameFacts LoaderFacts TargetFacts.

Section WithLib.
Context `{PyLib}.

Lemma history_at_choice cache_message m rest w :
  history (at_choice cache_message m rest w) = history w.
Proof. reflexivity. Qed.

Lemma stdin_at_choice cache_message m rest w :
  stdin (at_choice cache_message m rest w) = rest.
Proof. reflexivity. Qed.

(** One turn of the loop, up to the choice. *)
Lemma loop_turn fuel data cache_message w m c rest :
  render data = Ok m ->
  stdin w = c :: rest ->
  loop (S fuel) data cache_message w =
  (match c with
   | TQuit => ret tt
   | TBack | TEmpty =>
       back (fun url => navigate_w3u fuel url None) (loop fuel data None)
   | TBadDigits => raise ValueError
   | TDigits n =>
       if (n <? option_index m)%nat then
         match options m !! n with
         | None => raise IndexError
         | Some (selected, _) =>
             bind (lift (get selected (py "url") JNull)) (fun selected_url =>
             bind (lift (target selected_url)) (fun t =>
             match t with
             | None => loop fuel data None
             | Some (u, SubDocument) =>
                 bind (get_filename_from_url u) (fun filename =>
                 bind (navigate_w3u fuel u (Some filename)) (fun _ =>
                 loop fuel data None))
             | Some (u, Media) =>
                 bind (print (LOpeningVlc u)) (fun _ =>
                 bind (emit Sleep) (fun _ =>
                 bind (open_in_vlc u) (fun _ => loop fuel data None)))
             | Some (u, WebPage) =>
                 bind (print (LOpeningBrowser u)) (fun _ =>
                 bind (emit Sleep) (fun _ =>
                 bind (emit (Browser u)) (fun _ => loop fuel data None)))
             end))
         end
       else
         bind (print LInvalidChoice) (fun _ =>
         bind (input PEnter) (fun _ => loop fuel data None))
   | TYes | TOther =>
       bind (print LInvalidChoice) (fun _ =>
       bind (input PEnter) (fun _ => loop fuel data None))
   end) (at_choice cache_message m rest w).
Proof.
  intros Hr Hin. cbn [loop].
  rewrite bind_run, emit_run. cbv beta iota.
  assert (Hmsg :
    (match cache_message with
     | Some filename => print (LCacheMessage filename)
     | None => ret tt
     end) (log [Clear] w)
    = Done tt (log (Clear :: match cache_message with
                             | Some filename => [Print (LCacheMessage filename)]
                             | None => []
                             end) w)).
  { destruct cache_message; [rewrite print_run, log_log | rewrite <- (log_nil (log [Clear] w)) at 1; rewrite log_log]; reflexivity. }
  rewrite bind_run, Hmsg. cbv beta iota.
  rewrite Hr, bind_run, lift_ok. cbv beta iota.
  rewrite bind_run, print_all_run, log_log. cbv beta iota.
  rewrite bind_run, print_run, log_log. cbv beta iota.
  rewrite bind_run.
  erewrite input_run by (simpl; exact Hin).
  cbv beta iota. rewrite log_log.
  replace (set_stdin rest _) with (at_choice cache_message m rest w).
  2:{ unfold at_choice, shown. simpl. rewrite <- !app_assoc. reflexivity. }
  destruct c; reflexivity.
Qed.

(** A page that [render] cannot draw ends the call with the exception,
    whatever is typed. *)
Lemma loop_render_raises fuel data cache_message w e :
  render data = Raise e ->
  exists w',
    loop (S fuel) data cache_message w = Raised e w'
    /\ history w' = history w
    /\ stdin w' = stdin w.
Proof.
  intros Hr. cbn [loop].
  rewrite bind_run, emit_run. cbv beta iota.
  rewrite bind_run.
  destruct cache_message as [filename |].
  - rewrite print_run. cbv beta iota.
    rewrite Hr, bind_run, lift_raise. eexists. repeat split.
  - unfold ret at 1. cbv beta iota.
    rewrite Hr, bind_run, lift_raise. eexists. repeat split.
Qed.

End WithLib.
End NavigatorFacts.

(** ** The session ends: fuel beyond the number of typed lines is never
    used up *)

Module Termination.
Import Py Classifier Menu Effects Loader Navigator RunFacts Frame.

Section WithLib.
Context `{PyLib}.

Lemma returns_ret {A} n (a : A) : returns n (ret a).
Proof. intros w _. simpl. lia. Qed.

Lemma returns_raise {A} n e : returns n (@raise A e).
Proof. intros w _. simpl. lia. Qed.

Lemma returns_lift {A} n (r : res A) : returns n (lift r).
Proof. destruct r; [apply returns_ret | apply returns_raise]. Qed.

Lemma returns_bind {A B} n (m : M A) (k : A -> M B) :
  returns n m -> (forall a, returns n (k a)) -> returns n (bind m k).
Proof.
  intros Hm Hk w Hw. rewrite bind_run. specialize (Hm w Hw).
  destruct (m w) as [a w' | e w' |]; [| exact Hm | exact Hm].
  specialize (Hk a w' ltac:(lia)).
  destruct (k a w') as [b w'' | e w'' |]; [lia | lia | exact Hk].
Qed.

Lemma returns_try_except {A} n (m : M A) caught (handler : M A) :
  returns n m -> returns n handler -> returns n (try_except m caught handler).
Proof.
  intros Hm Hh w Hw. unfold try_except. specialize (Hm w Hw).
  destruct (m w) as [a w' | e w' |]; [exact Hm | | exact Hm].
  destruct (caught e); [| exact Hm].
  specialize (Hh w' ltac:(lia)).
  destruct (handler w') as [b w'' | e' w'' |]; [lia | lia | exact Hh].
Qed.

(** Reading a line leaves one line less for what follows. *)
Lemma returns_input_bind {B} n p (k : typed -> M B) :
  ((1 <= n)%nat -> forall c, returns (n - 1) (k c)) ->
  returns n (bind (input p) k).
Proof.
  intros Hk w Hw. rewrite bind_run. unfold input.
  destruct (stdin w) as [| c rest] eqn:Ein; cbv beta iota zeta.
  - simpl. lia.
  - simpl in Hw.
    specialize (Hk ltac:(lia) c (set_stdin rest (log [Asked p] w))
                  ltac:(simpl; lia)).
    simpl tail.
    destruct (k c (set_stdin rest (log [Asked p] w))) as [b w' | e w' |];
      simpl in Hk; simpl; [lia | lia | exact Hk].
Qed.

Lemma returns_input n p : returns n (input p).
Proof.
  intros w _. unfold input. destruct (stdin w); simpl; lia.
Qed.

Lemma returns_emit n e : returns n (emit e).
Proof. intros w _. simpl. lia. Qed.

Lemma returns_print_all n lines : returns n (print_all lines).
Proof. intros w _. rewrite print_all_run. simpl. lia. Qed.

Lemma returns_path_exists n f : returns n (path_exists f).
Proof. intros w _. simpl. lia. Qed.

Lemma returns_read_file n f : returns n (read_file f).
Proof. intros w _. unfold read_file. destruct (files w !! f); simpl; lia. Qed.

Lemma returns_write_file n f c : returns n (write_file f c).
Proof. intros w _. simpl. lia. Qed.

Lemma returns_remove_file n f : returns n (remove_file f).
Proof. intros w _. simpl. lia. Qed.

Lemma returns_requests_get n u : returns n (requests_get u).
Proof.
  intros w _. unfold requests_get.
  destruct (network w (requests w) u); simpl; lia.
Qed.

Lemma returns_history_append n u : returns n (history_append u).
Proof. intros w _. simpl. lia. Qed.

Lemma returns_history_pop n : returns n history_pop.
Proof.
  intros w _. unfold history_pop. destruct (last (history w)); simpl; lia.
Qed.

Lemma returns_history_len n : returns n history_len.
Proof. intros w _. simpl. lia. Qed.

Lemma returns_get_filename n u : returns n (get_filename_from_url u).
Proof.
  unfold get_filename_from_url.
  destruct (url_basename u); [apply returns_ret | apply returns_raise].
Qed.

Ltac returns_rules :=
  repeat match goal with
    | |- forall _, returns _ _ => intro; cbv beta
    | |- returns _ (bind (input _) _) => apply returns_input_bind; intros ?
    | |- returns _ (bind _ _) => apply returns_bind
    | |- returns _ (try_except _ _ _) => apply returns_try_except
    | |- returns _ (ret _) => apply returns_ret
    | |- returns _ (raise _) => apply returns_raise
    | |- returns _ (lift _) => apply returns_lift
    | |- returns _ (emit _) => apply returns_emit
    | |- returns _ (print _) => apply returns_emit
    | |- returns _ (open_in_vlc _) => apply returns_emit
    | |- returns _ (print_all _) => apply returns_print_all
    | |- returns _ (input _) => apply returns_input
    | |- returns _ (path_exists _) => apply returns_path_exists
    | |- returns _ (read_file _) => apply returns_read_file
    | |- returns _ (write_file _ _) => apply returns_write_file
    | |- returns _ (remove_file _) => apply returns_remove_file
    | |- returns _ (requests_get _) => apply returns_requests_get
    | |- returns _ (history_append _) => apply returns_history_append
    | |- returns _ history_pop => apply returns_history_pop
    | |- returns _ history_len => apply returns_history_len
    | |- returns _ (get_filename_from_url _) => apply returns_get_filename
    | |- returns _ (if ?b then _ else _) => destruct b
    | |- returns _ (match ?x with _ => _ end) => destruct x
    end.

Lemma returns_fetch_w3u n url : returns n (fetch_w3u url).
Proof.
  unfold fetch_w3u, from_cache, from_network, revalidate_and_clean_cache,
    validate_json, loads, raise_for_status.
  returns_rules.
Qed.

Lemma returns_enter n url : returns n (enter url).
Proof.
  unfold enter. apply returns_bind; [apply returns_fetch_w3u |].
  returns_rules.
Qed.

(** With more fuel than lines left to read, the loop returns or raises. *)
Lemma returns_loop fuel : forall n data cache_message,
  (n < fuel)%nat -> returns n (loop fuel data cache_message).
Proof.
  induction fuel as [| fuel IH]; intros n data cache_message Hn; [lia |].
  cbn [loop]. cbv zeta. unfold back.
  repeat match goal with
    | |- returns _ (loop fuel _ _) => apply IH; lia
    | |- returns _ (enter _) => apply returns_enter
    | _ => progress returns_rules
    end.
Qed.

End WithLib.
End Termination.

(** ** The dump of a plain document and the sanitizer *)

Module PlainFacts.
Import Sanitizer SanitizerSpec SanitizerFacts Json Plain.

(** Induction on values, through the lists they hold. *)
Lemma json_nested_ind (P : json -> Prop) :
  P JNull ->
  (forall b, P (JBool b)) ->
  (forall z, P (JNum z)) ->
  (forall s, P (JStr s)) ->
  (forall items, Forall P items -> P (JArr items)) ->
  (forall items, Forall (fun kv => P (snd kv)) items -> P (JObj items)) ->
  (forall r, P (JFloat r)) ->
  forall v, P v.
Proof.
  intros Hnull Hbool Hnum Hstr Harr Hobj Hfloat.
  fix IH 1. intros [| b | z | s | items | items | r].
  - exact Hnull.
  - apply Hbool.
  - apply Hnum.
  - apply Hstr.
  - apply Harr. induction items as [| x rest IHl]; constructor.
    + apply IH.
    + exact IHl.
  - apply Hobj. induction items as [| [k x] rest IHl]; constructor.
    + apply IH.
    + exact IHl.
  - apply Hfloat.
Qed.

(** *** Settled texts *)

Lemma peek_app_some t b d : peek t = Some d -> peek (t ++ b) = Some d.
Proof.
  induction t as [| c t IH]; simpl; [discriminate |].
  destruct (is_gap c); [exact IH | trivial].
Qed.

Lemma settled_app a b :
  settled a = true -> settled b = true -> settled (a ++ b) = true.
Proof.
  intros Ha Hb. induction a as [| c t IH]; simpl; [exact Hb |].
  simpl in Ha. apply andb_true_iff in Ha as [Hc Ht].
  rewrite (IH Ht), andb_true_r.
  destruct (c =? comma); [| reflexivity].
  destruct (peek t) as [d |] eqn:Ep; [| discriminate].
  rewrite (peek_app_some _ _ _ Ep). exact Hc.
Qed.

Lemma comma_free_settled s : comma_free s = true -> settled s = true.
Proof.
  unfold comma_free. induction s as [| c t IH]; simpl; [reflexivity |].
  intros H. apply andb_true_iff in H as [Hc Ht].
  apply negb_true_iff in Hc. rewrite Hc, (IH Ht). reflexivity.
Qed.

Lemma settled_cons c s :
  (c =? comma) = false -> settled s = true -> settled (c :: s) = true.
Proof. intros Hc Hs. simpl. rewrite Hc, Hs. reflexivity. Qed.

Lemma settled_no_pending s : settled s = true -> no_pending s = true.
Proof.
  induction s as [| c t IH]; simpl; [reflexivity |].
  intros H. apply andb_true_iff in H as [Hc Ht].
  rewrite (IH Ht), andb_true_r.
  destruct (c =? comma); [| reflexivity].
  unfold closer_next. destruct (peek t); [exact Hc | reflexivity].
Qed.

Lemma peek_indent level s :
  peek (newline_indent level ++ s) = peek s.
Proof.
  unfold newline_indent.
  change (peek (repeat 32 (4 * level) ++ s) = peek s).
  generalize (4 * level)%nat. intros n.
  induction n as [| n IH]; simpl; [reflexivity | exact IH].
Qed.

Lemma comma_free_indent level : comma_free (newline_indent level) = true.
Proof.
  unfold newline_indent, comma_free.
  change (forallb (fun c => negb (c =? comma)) (repeat 32 (4 * level)) = true).
  generalize (4 * level)%nat. intros n.
  induction n as [| n IH]; simpl; [reflexivity | exact IH].
Qed.

Lemma starts_ok_peek s :
  starts_ok s = true -> exists d, peek s = Some d /\ is_closer d = false.
Proof.
  destruct s as [| c t]; [discriminate |]. simpl.
  intros H. apply andb_true_iff in H as [Hg Hc].
  apply negb_true_iff in Hg, Hc. rewrite Hg. eauto.
Qed.

Lemma starts_ok_app a b : starts_ok a = true -> starts_ok (a ++ b) = true.
Proof. destruct a; [discriminate | trivial]. Qed.

Lemma settled_comma t d :
  peek t = Some d -> is_closer d = false -> settled t = true ->
  settled (comma :: t) = true.
Proof. intros Hp Hd Ht. simpl. rewrite Hp, Hd, Ht. reflexivity. Qed.

(** A separator and the item after it. *)
Lemma settled_separator level next :
  starts_ok next = true -> settled next = true ->
  settled (comma :: newline_indent level ++ next) = true.
Proof.
  intros Hs Hn.
  destruct (starts_ok_peek _ Hs) as (d & Hp & Hd).
  apply (settled_comma _ d); [rewrite peek_indent; exact Hp | exact Hd |].
  apply settled_app; [| exact Hn].
  apply comma_free_settled, comma_free_indent.
Qed.

Lemma join_items_settled level parts :
  Forall (fun p => starts_ok p = true /\ settled p = true) parts ->
  settled (join_items level parts) = true
  /\ (parts <> [] -> starts_ok (join_items level parts) = true).
Proof.
  induction 1 as [| p rest [Hs Hp] Hrest [IHs IHo]]; [split; [reflexivity | congruence] |].
  destruct rest as [| q rest'].
  - simpl. split; [exact Hp | intros _; exact Hs].
  - change (join_items level (p :: q :: rest'))
      with (p ++ comma :: newline_indent level ++ join_items level (q :: rest')).
    split.
    + apply settled_app; [exact Hp |].
      apply settled_separator; [apply IHo; discriminate | exact IHs].
    + intros _. apply starts_ok_app. exact Hs.
Qed.

Lemma uint_chars_digits d : Forall (fun c => is_digit c = true) (uint_chars d).
Proof. induction d; simpl; constructor; (reflexivity || assumption). Qed.

Lemma encode_nat_nonempty n : encode_nat n <> [].
Proof.
  unfold encode_nat. destruct n as [| p]; [discriminate |].
  simpl. pose proof (DecimalPos.Unsigned.to_uint_nonnil p) as Hn.
  destruct (Pos.to_uint p); [congruence | discriminate ..].
Qed.

Lemma digit_facts c :
  is_digit c = true ->
  (c =? comma) = false /\ is_gap c = false /\ is_closer c = false
  /\ is_control c = false.
Proof.
  unfold is_digit. intros H. apply andb_true_iff in H as [H1 H2].
  apply N.leb_le in H1, H2.
  unfold is_gap, is_space, is_closer, is_control, comma, rbrace, rbracket.
  repeat split;
    repeat match goal with
      | |- context [?a =? ?b] =>
          let E := fresh in destruct (N.eqb_spec a b) as [E | E]; [lia |]
      | |- context [?a <=? ?b] =>
          let E := fresh in destruct (N.leb_spec a b) as [E | E]; try lia
      end; reflexivity.
Qed.

Lemma encode_int_digits z :
  exists c rest,
    encode_int z = c :: rest
    /\ (c = 45 \/ is_digit c = true)
    /\ Forall (fun c => is_digit c = true) rest.
Proof.
  assert (Hnat : forall n, exists c rest,
             encode_nat n = c :: rest /\ is_digit c = true
             /\ Forall (fun c => is_digit c = true) rest).
  { intros n. pose proof (encode_nat_nonempty n) as Hne.
    pose proof (uint_chars_digits (N.to_uint n)) as Hd.
    fold (encode_nat n) in Hd.
    destruct (encode_nat n) as [| c rest]; [congruence |].
    inversion Hd; subst. eauto. }
  destruct z as [| p | p]; simpl.
  - destruct (Hnat 0) as (c & rest & E & Hc & Hr). exists c, rest. auto.
  - destruct (Hnat (N.pos p)) as (c & rest & E & Hc & Hr).
    exists c, rest. auto.
  - destruct (Hnat (N.pos p)) as (c & rest & E & Hc & Hr).
    exists 45, (c :: rest). rewrite E. repeat split; auto.
Qed.

Lemma encode_int_ok z :
  starts_ok (encode_int z) = true /\ settled (encode_int z) = true
  /\ Forall (fun c => is_control c = false) (encode_int z).
Proof.
  destruct (encode_int_digits z) as (c & rest & -> & Hc & Hr).
  assert (Hrest : comma_free rest = true
                  /\ Forall (fun c => is_control c = false) rest).
  { induction Hr as [| x l Hx _ [IH1 IH2]]; [split; [reflexivity | constructor] |].
    destruct (digit_facts _ Hx) as (H1 & _ & _ & H4).
    split; [unfold comma_free; simpl; rewrite H1; exact IH1 | constructor; assumption]. }
  destruct Hrest as [Hcf Hctl].
  destruct Hc as [-> | Hc].
  - repeat split; [apply settled_cons; [reflexivity | apply comma_free_settled; exact Hcf] | constructor; [reflexivity | exact Hctl]].
  - destruct (digit_facts _ Hc) as (H1 & H2 & H3 & H4).
    repeat split.
    + simpl. rewrite H2, H3. reflexivity.
    + apply settled_cons; [exact H1 | apply comma_free_settled; exact Hcf].
    + constructor; assumption.
Qed.

Lemma float_char_facts c :
  is_float_char c = true ->
  (c =? comma) = false /\ is_gap c = false /\ is_closer c = false
  /\ is_control c = false.
Proof.
  unfold is_float_char, is_digit. intros H.
  assert (Hc : (43 <= c <= 122 /\ c <> 44 /\ c <> 93)%N).
  { repeat match type of H with
      | (_ || _) = true => apply orb_true_iff in H as [H | H]
      end;
      repeat match goal with
        | H : (_ && _) = true |- _ => apply andb_true_iff in H as [? ?]
        | H : (_ <=? _) = true |- _ => apply N.leb_le in H
        | H : (_ =? _) = true |- _ => apply N.eqb_eq in H
        end; lia. }
  clear H. destruct Hc as ([H1 H2] & H3 & H4).
  unfold is_gap, is_space, is_closer, is_control, comma, rbrace, rbracket.
  repeat split;
    repeat match goal with
      | |- context [?a =? ?b] =>
          let E := fresh in destruct (N.eqb_spec a b) as [E | E]; [lia |]
      | |- context [?a <=? ?b] =>
          let E := fresh in destruct (N.leb_spec a b) as [E | E]; try lia
      end; reflexivity.
Qed.

Lemma float_written_ok s :
  float_written s = true ->
  starts_ok s = true /\ settled s = true
  /\ Forall (fun c => is_control c = false) s.
Proof.
  unfold float_written. intros H. apply andb_true_iff in H as [Hne Hall].
  assert (Hrest : forall t, forallb is_float_char t = true ->
            comma_free t = true /\ Forall (fun c => is_control c = false) t).
  { induction t as [| x l IH]; [split; [reflexivity | constructor] |].
    simpl. intros Hx. apply andb_true_iff in Hx as [Hx Hl].
    destruct (float_char_facts _ Hx) as (H1 & _ & _ & H4).
    destruct (IH Hl) as [IH1 IH2].
    split; [unfold comma_free; simpl; rewrite H1; exact IH1 | constructor; assumption]. }
  destruct s as [| c t]; [discriminate |].
  simpl in Hall. apply andb_true_iff in Hall as [Hc Ht].
  destruct (float_char_facts _ Hc) as (H1 & H2 & H3 & H4).
  destruct (Hrest t Ht) as [Hcf Hctl].
  repeat split.
  - simpl. rewrite H2, H3. reflexivity.
  - apply settled_cons; [exact H1 | apply comma_free_settled; exact Hcf].
  - constructor; assumption.
Qed.

Lemma encode_string_ok s :
  plain_string s = true ->
  starts_ok (encode_string s) = true /\ settled (encode_string s) = true.
Proof.
  unfold plain_string, encode_string. intros H.
  apply andb_true_iff in H as [_ Hs].
  split; [reflexivity |].
  apply settled_cons; [reflexivity | exact Hs].
Qed.

(** The encoder writes a plain value as a settled text that starts with
    a character of its own. *)
Lemma encode_settled v : forall level,
  plain v = true ->
  starts_ok (encode level v) = true /\ settled (encode level v) = true.
Proof.
  induction v as [| b | z | s | items IH | items IH | r] using json_nested_ind;
    intros level Hp.
  - split; reflexivity.
  - destruct b; split; reflexivity.
  - destruct (encode_int_ok z) as (H1 & H2 & _). split; assumption.
  - apply encode_string_ok. exact Hp.
  - destruct items as [| x rest]; [split; reflexivity |].
    change (encode level (JArr (x :: rest)))
      with (91 :: newline_indent (S level)
            ++ join_items (S level) (List.map (encode (S level)) (x :: rest))
            ++ newline_indent level ++ [93]).
    split; [reflexivity |].
    apply settled_cons; [reflexivity |].
    apply settled_app; [apply comma_free_settled, comma_free_indent |].
    apply settled_app.
    + apply join_items_settled.
      simpl in Hp. rewrite Forall_forall in IH.
      apply Forall_forall. intros p Hin.
      apply list_elem_of_In, in_map_iff in Hin as (y & <- & Hy).
      apply IH; [apply list_elem_of_In; exact Hy |].
      change (forallb plain (x :: rest) = true) in Hp.
      rewrite forallb_forall in Hp. apply Hp. exact Hy.
    + apply settled_app; [apply comma_free_settled, comma_free_indent | reflexivity].
  - destruct items as [| kv rest]; [split; reflexivity |].
    change (encode level (JObj (kv :: rest)))
      with (123 :: newline_indent (S level)
            ++ join_items (S level)
                 (List.map (fun kv => encode_string (fst kv) ++ 58 :: 32
                                        :: encode (S level) (snd kv))
                           (kv :: rest))
            ++ newline_indent level ++ [125]).
    split; [reflexivity |].
    apply settled_cons; [reflexivity |].
    apply settled_app; [apply comma_free_settled, comma_free_indent |].
    apply settled_app.
    + apply join_items_settled.
      rewrite Forall_forall in IH.
      apply Forall_forall. intros p Hin.
      apply list_elem_of_In, in_map_iff in Hin as (y & <- & Hy).
      change (forallb (fun kv => plain_string (fst kv) && plain (snd kv))
                (kv :: rest) = true) in Hp.
      rewrite forallb_forall in Hp. specialize (Hp y Hy).
      apply andb_true_iff in Hp as [Hk Hv].
      destruct (encode_string_ok _ Hk) as [Hks Hkt].
      split; [apply starts_ok_app; exact Hks |].
      apply settled_app; [exact Hkt |].
      apply settled_cons; [reflexivity |].
      apply settled_cons; [reflexivity |].
      apply IH; [apply list_elem_of_In; exact Hy | exact Hv].
    + apply settled_app; [apply comma_free_settled, comma_free_indent | reflexivity].
  - destruct (float_written_ok _ Hp) as (H1 & H2 & _). split; assumption.
Qed.


(** *** The only control characters of a dump are its line feeds *)

Lemma clean_only_line_feeds s :
  Forall (fun c => is_control c = false) s -> only_line_feeds s.
Proof.
  unfold only_line_feeds. induction 1 as [| c t Hc Ht IH]; constructor.
  - intros Hctl. congruence.
  - exact IH.
Qed.

Lemma only_line_feeds_app a b :
  only_line_feeds a -> only_line_feeds b -> only_line_feeds (a ++ b).
Proof. unfold only_line_feeds. intros Ha Hb. apply Forall_app. split; assumption. Qed.

Lemma only_line_feeds_cons c s :
  (is_control c = true -> c = 10) -> only_line_feeds s ->
  only_line_feeds (c :: s).
Proof. intros Hc Hs. constructor; assumption. Qed.

Lemma only_line_feeds_indent level : only_line_feeds (newline_indent level).
Proof.
  unfold newline_indent. apply only_line_feeds_cons; [reflexivity |].
  apply clean_only_line_feeds.
  generalize (4 * level)%nat. intros n.
  induction n as [| n IH]; simpl; constructor; (reflexivity || exact IH).
Qed.

Lemma hex_digit_clean n : n < 16 -> is_control (hex_digit n) = false.
Proof.
  intros Hn. unfold hex_digit, is_control.
  destruct (N.ltb_spec n 10);
    repeat match goal with
      | |- context [?a =? ?b] =>
          let E := fresh in destruct (N.eqb_spec a b) as [E | E]; [lia |]
      | |- context [?a <=? ?b] =>
          let E := fresh in destruct (N.leb_spec a b) as [E | E]; try lia
      end; reflexivity.
Qed.

Lemma escape_char_clean c :
  (c =? 127) = false -> Forall (fun x => is_control x = false) (escape_char c).
Proof.
  intros Hdel. unfold escape_char.
  repeat match goal with
    | |- context [if ?a =? ?b then _ else _] =>
        let E := fresh in destruct (N.eqb_spec a b) as [E | E];
        [repeat constructor |]
    end.
  destruct (N.leb_spec c 31) as [Hle | Hgt].
  - repeat constructor; apply hex_digit_clean.
    + apply N.Div0.div_lt_upper_bound. lia.
    + apply N.mod_lt. lia.
  - repeat constructor. unfold is_control. rewrite Hdel.
    destruct (N.leb_spec c 31); [lia | reflexivity].
Qed.

Lemma encode_string_clean s :
  forallb (fun c => negb (c =? 127)) s = true ->
  Forall (fun x => is_control x = false) (encode_string s).
Proof.
  intros Hs. unfold encode_string. constructor; [reflexivity |].
  apply Forall_app. split; [| repeat constructor].
  induction s as [| c t IH]; simpl; [constructor |].
  simpl in Hs. apply andb_true_iff in Hs as [Hc Ht].
  apply negb_true_iff in Hc.
  apply Forall_app. split; [apply escape_char_clean; exact Hc | exact (IH Ht)].
Qed.

Lemma plain_string_clean s :
  plain_string s = true -> only_line_feeds (encode_string s).
Proof.
  unfold plain_string. intros H. apply andb_true_iff in H as [Hd _].
  apply clean_only_line_feeds, encode_string_clean. exact Hd.
Qed.

Lemma join_items_line_feeds level parts :
  Forall only_line_feeds parts -> only_line_feeds (join_items level parts).
Proof.
  induction 1 as [| p rest Hp Hrest IH]; [constructor |].
  destruct rest as [| q rest']; [exact Hp |].
  change (join_items level (p :: q :: rest'))
    with (p ++ comma :: newline_indent level ++ join_items level (q :: rest')).
  apply only_line_feeds_app; [exact Hp |].
  apply only_line_feeds_cons; [discriminate |].
  apply only_line_feeds_app; [apply only_line_feeds_indent | exact IH].
Qed.

Lemma encode_line_feeds v : forall level,
  plain v = true -> only_line_feeds (encode level v).
Proof.
  induction v as [| b | z | s | items IH | items IH | r] using json_nested_ind;
    intros level Hp.
  - apply clean_only_line_feeds. repeat constructor.
  - apply clean_only_line_feeds. destruct b; repeat constructor.
  - apply clean_only_line_feeds. apply (encode_int_ok z).
  - apply plain_string_clean. exact Hp.
  - destruct items as [| x rest]; [apply clean_only_line_feeds; repeat constructor |].
    change (encode level (JArr (x :: rest)))
      with (91 :: newline_indent (S level)
            ++ join_items (S level) (List.map (encode (S level)) (x :: rest))
            ++ newline_indent level ++ [93]).
    apply only_line_feeds_cons; [discriminate |].
    apply only_line_feeds_app; [apply only_line_feeds_indent |].
    apply only_line_feeds_app.
    + apply join_items_line_feeds.
      rewrite Forall_forall in IH.
      apply Forall_forall. intros p Hin.
      apply list_elem_of_In, in_map_iff in Hin as (y & <- & Hy).
      apply IH; [apply list_elem_of_In; exact Hy |].
      change (forallb plain (x :: rest) = true) in Hp.
      rewrite forallb_forall in Hp. apply Hp. exact Hy.
    + apply only_line_feeds_app; [apply only_line_feeds_indent |].
      apply clean_only_line_feeds. repeat constructor.
  - destruct items as [| kv rest]; [apply clean_only_line_feeds; repeat constructor |].
    change (encode level (JObj (kv :: rest)))
      with (123 :: newline_indent (S level)
            ++ join_items (S level)
                 (List.map (fun kv => encode_string (fst kv) ++ 58 :: 32
                                        :: encode (S level) (snd kv))
                           (kv :: rest))
            ++ newline_indent level ++ [125]).
    apply only_line_feeds_cons; [discriminate |].
    apply only_line_feeds_app; [apply only_line_feeds_indent |].
    apply only_line_feeds_app.
    + apply join_items_line_feeds.
      rewrite Forall_forall in IH.
      apply Forall_forall. intros p Hin.
      apply list_elem_of_In, in_map_iff in Hin as (y & <- & Hy).
      change (forallb (fun kv => plain_string (fst kv) && plain (snd kv))
                (kv :: rest) = true) in Hp.
      rewrite forallb_forall in Hp. specialize (Hp y Hy).
      apply andb_true_iff in Hp as [Hk Hv].
      apply only_line_feeds_app; [apply plain_string_clean; exact Hk |].
      apply only_line_feeds_cons; [discriminate |].
      apply only_line_feeds_cons; [discriminate |].
      apply IH; [apply list_elem_of_In; exact Hy | exact Hv].
    + apply only_line_feeds_app; [apply only_line_feeds_indent |].
      apply clean_only_line_feeds. repeat constructor.
  - apply clean_only_line_feeds. apply (float_written_ok _ Hp).
Qed.

Lemma remove_control_line_feeds s :
  only_line_feeds s -> remove_control s = without_line_feeds s.
Proof.
  unfold remove_control, without_line_feeds.
  induction 1 as [| c t Hc Ht IH]; [reflexivity |]. simpl.
  rewrite IH.
  destruct (is_control c) eqn:Ec.
  - rewrite (Hc eq_refl). reflexivity.
  - destruct (N.eqb_spec c 10) as [-> | Hne]; [discriminate | reflexivity].
Qed.

(** The sanitizer takes the line feeds out of the dump of a plain
    document and nothing else. *)
Lemma clean_json_plain_dump d :
  plain d = true -> clean_json (dump d) = without_line_feeds (dump d).
Proof.
  intros Hp. unfold clean_json, dump.
  rewrite no_pending_fixed
    by (apply settled_no_pending, encode_settled; exact Hp).
  apply remove_control_line_feeds, encode_line_feeds. exact Hp.
Qed.

End PlainFacts.

(** ** The reader reads the flat dump back *)

Module ReaderFacts.
Import Json Flat Plain PlainFacts.

(** *** Strings *)

Lemma le31_cases (P : N -> Prop) :
  (forall k, (k < 32)%nat -> P (N.of_nat k)) -> forall c, c <= 31 -> P c.
Proof.
  intros H c Hc. rewrite <- (N2Nat.id c). apply H. lia.
Qed.

Lemma hex4_escape c :
  c <= 31 -> hex4 48 48 (hex_digit (c / 16)) (hex_digit (c mod 16)) = Some c.
Proof.
  revert c. apply le31_cases. intros k Hk.
  do 32 (destruct k as [| k]; [reflexivity |]). lia.
Qed.

(** One escaped character is read back as the character. *)
Lemma scan_string_escape c rest :
  scan_string (escape_char c ++ rest) = cons_fst c (scan_string rest).
Proof.
  unfold escape_char.
  destruct (N.eqb_spec c 34) as [-> | H34]; [reflexivity |].
  destruct (N.eqb_spec c 92) as [-> | H92]; [reflexivity |].
  destruct (N.eqb_spec c 8) as [-> | H8]; [reflexivity |].
  destruct (N.eqb_spec c 12) as [-> | H12]; [reflexivity |].
  destruct (N.eqb_spec c 10) as [-> | H10]; [reflexivity |].
  destruct (N.eqb_spec c 13) as [-> | H13]; [reflexivity |].
  destruct (N.eqb_spec c 9) as [-> | H9]; [reflexivity |].
  destruct (N.leb_spec c 31) as [Hle | Hgt].
  - change (scan_string
              ([backslash; 117; 48; 48; hex_digit (c / 16); hex_digit (c mod 16)]
               ++ rest))
      with (match hex4 48 48 (hex_digit (c / 16)) (hex_digit (c mod 16)) with
            | None => None
            | Some v =>
                let single := cons_fst v (scan_string rest) in
                if (55296 <=? v) && (v <=? 56319) then
                  match rest with
                  | b :: u :: g1 :: g2 :: g3 :: g4 :: t3 =>
                      if (b =? backslash) && (u =? 117) then
                        match hex4 g1 g2 g3 g4 with
                        | Some v2 =>
                            if (56320 <=? v2) && (v2 <=? 57343) then
                              cons_fst
                                (65536 + (v - 55296) * 1024 + (v2 - 56320))
                                (scan_string t3)
                            else single
                        | None => single
                        end
                      else single
                  | _ => single
                  end
                else single
            end).
    rewrite (hex4_escape c Hle). cbv zeta.
    destruct (N.leb_spec 55296 c); [lia | reflexivity].
  - change (scan_string ([c] ++ rest))
      with (if c =? quote then Some ([], rest)
            else if c =? backslash then
              match rest with
              | [] => None
              | e :: t1 =>
                  if e =? 117 then
                    match t1 with
                    | h1 :: h2 :: h3 :: h4 :: t2 =>
                        match hex4 h1 h2 h3 h4 with
                        | None => None
                        | Some v =>
                            let single := cons_fst v (scan_string t2) in
                            if (55296 <=? v) && (v <=? 56319) then
                              match t2 with
                              | b :: u :: g1 :: g2 :: g3 :: g4 :: t3 =>
                                  if (b =? backslash) && (u =? 117) then
                                    match hex4 g1 g2 g3 g4 with
                                    | Some v2 =>
                                        if (56320 <=? v2) && (v2 <=? 57343) then
                                          cons_fst
                                            (65536 + (v - 55296) * 1024 + (v2 - 56320))
                                            (scan_string t3)
                                        else single
                                    | None => single
                                    end
                                  else single
                              | _ => single
                              end
                            else single
                        end
                    | _ => None
                    end
                  else
                    match simple_escape e with
                    | Some d => cons_fst d (scan_string t1)
                    | None => None
                    end
              end
            else if c <=? 31 then None
            else cons_fst c (scan_string rest)).
    unfold quote, backslash.
    destruct (N.eqb_spec c 34); [congruence |].
    destruct (N.eqb_spec c 92); [congruence |].
    destruct (N.leb_spec c 31); [lia | reflexivity].
Qed.

Lemma scan_string_encoded s rest :
  scan_string (flat_map escape_char s ++ quote :: rest) = Some (s, rest).
Proof.
  induction s as [| c t IH]; [reflexivity |].
  simpl flat_map. rewrite <- app_assoc, scan_string_escape, IH. reflexivity.
Qed.

(** *** Numbers *)

Lemma digits_value_acc d acc :
  fold_left digit_step (uint_chars d) (N.pos acc) = N.pos (Pos.of_uint_acc d acc).
Proof.
  revert acc. induction d; intros acc; simpl; try reflexivity;
    unfold digit_step at 2; rewrite <- IHd; f_equal; lia.
Qed.

Lemma digits_value_uint d : digits_value (uint_chars d) = N.of_uint d.
Proof.
  unfold digits_value. fold digit_step.
  induction d; simpl; try reflexivity; try exact IHd;
    unfold digit_step at 2; simpl N.add; apply digits_value_acc.
Qed.

Lemma digits_value_encode_nat n : digits_value (encode_nat n) = n.
Proof.
  unfold encode_nat. rewrite digits_value_uint. apply DecimalN.Unsigned.of_to.
Qed.

Lemma span_digits_app ds rest :
  Forall (fun c => is_digit c = true) ds ->
  match rest with c :: _ => is_digit c = false | [] => True end ->
  span_digits (ds ++ rest) = (ds, rest).
Proof.
  intros Hd Hr. induction Hd as [| c t Hc Ht IH]; simpl.
  - destruct rest as [| c t]; [reflexivity |]. simpl. rewrite Hr. reflexivity.
  - rewrite Hc, IH. reflexivity.
Qed.

Lemma nzhead_head d :
  match Decimal.nzhead d with Decimal.D0 _ => False | _ => True end.
Proof. induction d; simpl; trivial. Qed.

(** A positive number is written without a leading zero. *)
Lemma to_uint_head p :
  match Pos.to_uint p with Decimal.D0 _ | Decimal.Nil => False | _ => True end.
Proof.
  pose proof (DecimalPos.Unsigned.to_of (Pos.to_uint p)) as E.
  rewrite DecimalPos.Unsigned.of_to in E. simpl in E.
  pose proof (DecimalPos.Unsigned.to_uint_nonzero p) as Hz.
  pose proof (nzhead_head (Pos.to_uint p)) as Hh.
  unfold Decimal.unorm in E.
  destruct (Decimal.nzhead (Pos.to_uint p)); rewrite E; try exact I.
  - apply Hz. exact E.
  - exact Hh.
Qed.

Lemma encode_nat_shape n :
  exists d ds, encode_nat n = d :: ds
               /\ Forall (fun c => is_digit c = true) (d :: ds)
               /\ ((d =? 48) && negb (bool_decide (ds = [])) = false).
Proof.
  pose proof (uint_chars_digits (N.to_uint n)) as Hd.
  fold (encode_nat n) in Hd.
  unfold encode_nat in *. destruct n as [| p].
  - exists 48, []. split; [reflexivity |]. split; [exact Hd | reflexivity].
  - simpl N.to_uint in *. pose proof (to_uint_head p) as Hh.
    destruct (Pos.to_uint p) as [| u | u | u | u | u | u | u | u | u | u];
      try contradiction; simpl in *; eexists _, _; (split; [reflexivity |]);
      (split; [exact Hd | reflexivity]).
Qed.

Lemma scan_nat_encoded n rest :
  ends_number rest = true ->
  scan_nat (encode_nat n ++ rest) = Some (n, rest).
Proof.
  intros He.
  destruct (encode_nat_shape n) as (d & ds & E & Hd & Hz).
  unfold scan_nat.
  rewrite <- (digits_value_encode_nat n) at 2.
  rewrite E, span_digits_app; [| exact Hd |].
  - assert (Hf : starts_fraction rest = false).
    { destruct rest as [| c t]; [reflexivity |].
      simpl in He. apply andb_true_iff in He as [_ He].
      apply negb_true_iff in He. exact He. }
    rewrite Hf, Hz. reflexivity.
  - destruct rest as [| c t]; [exact I |].
    simpl in He. apply andb_true_iff in He as [He _].
    apply negb_true_iff in He. exact He.
Qed.

(** *** Values *)

Lemma skip_ws_spaces n s : skip_ws (repeat 32 n ++ s) = skip_ws s.
Proof. induction n as [| n IH]; simpl; [reflexivity | exact IH]. Qed.

Lemma skip_ws_token c t : is_ws c = false -> skip_ws (c :: t) = c :: t.
Proof. intros H. simpl. rewrite H. reflexivity. Qed.

Lemma parse_value_str f t :
  parse_value (S f) (quote :: t)
  = match scan_string t with
    | Some (content, rest) => Some (JStr content, rest)
    | None => None
    end.
Proof. reflexivity. Qed.

Lemma parse_value_arr f t :
  parse_value (S f) (91 :: t)
  = match skip_ws t with
    | d :: t' =>
        if d =? 93 then Some (JArr [], t') else parse_items f (d :: t') []
    | [] => None
    end.
Proof. reflexivity. Qed.

Lemma parse_value_obj f t :
  parse_value (S f) (123 :: t)
  = match skip_ws t with
    | d :: t' =>
        if d =? 125 then Some (JObj [], t') else parse_pairs f (d :: t') []
    | [] => None
    end.
Proof. reflexivity. Qed.

Lemma parse_value_minus f t :
  parse_value (S f) (45 :: t)
  = match scan_nat t with
    | Some (n, rest) => Some (JNum (- Z.of_N n), rest)
    | None => None
    end.
Proof. reflexivity. Qed.

Lemma parse_value_digit f d t :
  is_digit d = true ->
  parse_value (S f) (d :: t)
  = match scan_nat (d :: t) with
    | Some (n, rest) => Some (JNum (Z.of_N n), rest)
    | None => None
    end.
Proof.
  unfold is_digit. intros H. apply andb_true_iff in H as [H1 H2].
  apply N.leb_le in H1, H2.
  cbn [parse_value]. unfold quote.
  destruct (N.eqb_spec d 34); [lia |].
  destruct (N.eqb_spec d 123); [lia |].
  destruct (N.eqb_spec d 91); [lia |].
  assert (Hne : forall a p, a <> d -> Str.startswith (a :: p) (d :: t) = false).
  { intros a p Ha. simpl. destruct (N.eqb_spec a d); [congruence | reflexivity]. }
  assert (Hn : Str.startswith (py "null") (d :: t) = false).
  { change (py "null") with [110; 117; 108; 108]. apply Hne. lia. }
  assert (Ht : Str.startswith (py "true") (d :: t) = false).
  { change (py "true") with [116; 114; 117; 101]. apply Hne. lia. }
  assert (Hf : Str.startswith (py "false") (d :: t) = false).
  { change (py "false") with [102; 97; 108; 115; 101]. apply Hne. lia. }
  rewrite Hn, Ht, Hf.
  destruct (N.eqb_spec d 45); [lia | reflexivity].
Qed.

Lemma parse_items_eq f s acc :
  parse_items (S f) s acc
  = match parse_value f s with
    | None => None
    | Some (v, rest) =>
        match skip_ws rest with
        | c :: t =>
            if c =? 93 then Some (JArr (acc ++ [v]), t)
            else if c =? comma then parse_items f (skip_ws t) (acc ++ [v])
            else None
        | [] => None
        end
    end.
Proof. reflexivity. Qed.

Lemma parse_pairs_eq f s acc :
  parse_pairs (S f) s acc
  = match expect quote s with
    | None => None
    | Some t =>
        match scan_string t with
        | None => None
        | Some (key, rest) =>
            match expect 58 (skip_ws rest) with
            | None => None
            | Some rest =>
                match parse_value f (skip_ws rest) with
                | None => None
                | Some (v, rest) =>
                    match skip_ws rest with
                    | c :: t =>
                        if c =? 125 then Some (JObj (dict_set key v acc), t)
                        else if c =? comma
                        then parse_pairs f (skip_ws t) (dict_set key v acc)
                        else None
                    | [] => None
                    end
                end
            end
        end
    end.
Proof. reflexivity. Qed.

Lemma dict_set_fresh key v acc :
  key ∉ List.map fst acc -> dict_set key v acc = acc ++ [(key, v)].
Proof.
  induction acc as [| [k x] rest IH]; simpl; [reflexivity |].
  intros Hn. rewrite bool_decide_eq_false_2.
  - rewrite IH; [reflexivity |]. intros Hin. apply Hn. right. exact Hin.
  - intros ->. apply Hn. left.
Qed.

Lemma own_head_app s t : own_head s -> own_head (s ++ t).
Proof. intros (c & u & -> & H). exists c, (u ++ t). split; [reflexivity | exact H]. Qed.

Lemma encode_string_head s : own_head (encode_string s).
Proof. unfold encode_string. eexists _, _. split; [reflexivity |]. repeat split; discriminate. Qed.

Lemma flat_head level v : readable v = true -> own_head (flat level v).
Proof.
  intros Hd.
  destruct v as [| [|] | z | s | [| x items] | [| kv items] | r];
    [.. | discriminate Hd]; clear Hd.
  all: try (eexists _, _; split; [reflexivity |]; repeat split; discriminate).
  destruct (encode_int_digits z) as (c & rest & E & Hc & _).
  exists c, rest. split; [exact E |].
  destruct Hc as [-> | Hc]; [repeat split; discriminate |].
  unfold is_digit in Hc. apply andb_true_iff in Hc as [H1 H2].
  apply N.leb_le in H1, H2. unfold is_ws.
  repeat split; try lia.
  repeat match goal with
    | |- context [?a =? ?b] =>
        let E := fresh in destruct (N.eqb_spec a b) as [E | E]; [lia |]
    end. reflexivity.
Qed.

Lemma join_flat_head level parts :
  parts <> [] -> Forall own_head parts -> own_head (join_flat level parts).
Proof.
  intros Hne Hall. destruct Hall as [| p rest Hp Hrest]; [congruence |].
  destruct rest as [| q rest']; [exact Hp |].
  change (join_flat level (p :: q :: rest'))
    with (p ++ comma :: spaces level ++ join_flat level (q :: rest')).
  apply own_head_app. exact Hp.
Qed.

Lemma ends_number_spaces n c rest :
  is_digit c = false -> starts_fraction (c :: rest) = false ->
  ends_number (repeat 32 n ++ c :: rest) = true.
Proof.
  intros Hd Hf. destruct n as [| n]; simpl; [| reflexivity].
  rewrite Hd. simpl in Hf. rewrite Hf. reflexivity.
Qed.
Lemma skip_ws_own_head s : own_head s -> skip_ws s = s.
Proof. intros (c & t & -> & Hc & _). apply skip_ws_token. exact Hc. Qed.

Lemma own_head_not_closer s d t :
  own_head s -> s = d :: t -> (d =? 93) = false /\ (d =? 125) = false.
Proof.
  intros (c & u & -> & _ & H1 & H2) E. injection E as -> ->.
  split; apply N.eqb_neq; assumption.
Qed.

Lemma expect_same c t : expect c (c :: t) = Some t.
Proof. simpl. rewrite N.eqb_refl. reflexivity. Qed.

Lemma parse_items_flat L l rest items :
  Forall reads_back items ->
  forallb readable items = true ->
  items <> [] ->
  forall acc fuel,
    (list_sum (List.map (fun x => S (size x)) items) <= fuel)%nat ->
    parse_items fuel
      (join_flat L (List.map (flat L) items) ++ spaces l ++ 93 :: rest) acc
    = Some (JArr (acc ++ items), rest).
Proof.
  induction 1 as [| x xs Hx Hxs IH]; [congruence |].
  intros Hd _ acc fuel Hfuel.
  simpl in Hd. apply andb_true_iff in Hd as [Hdx Hdxs].
  simpl in Hfuel. destruct fuel as [| f]; [lia |].
  rewrite parse_items_eq.
  destruct xs as [| y ys].
  - simpl join_flat.
    rewrite (Hx L f (spaces l ++ 93 :: rest) Hdx ltac:(lia));
      [| apply ends_number_spaces; reflexivity].
    unfold spaces. rewrite skip_ws_spaces. reflexivity.
  - change (join_flat L (List.map (flat L) (x :: y :: ys)))
      with (flat L x ++ comma :: spaces L
            ++ join_flat L (List.map (flat L) (y :: ys))).
    rewrite <- app_assoc. cbn [app].
    rewrite (Hx L f (comma :: _) Hdx ltac:(lia) eq_refl).
    rewrite skip_ws_token by reflexivity.
    change (comma =? 93) with false. change (comma =? comma) with true.
    cbv iota.
    rewrite <- app_assoc. unfold spaces at 1. rewrite skip_ws_spaces.
    rewrite skip_ws_own_head.
    2:{ apply own_head_app, join_flat_head; [discriminate |].
        apply Forall_forall. intros p Hin.
        apply list_elem_of_In, in_map_iff in Hin as (z & <- & Hz).
        apply flat_head.
        rewrite forallb_forall in Hdxs. apply Hdxs. exact Hz. }
    rewrite (IH Hdxs ltac:(discriminate) (acc ++ [x]) f).
    + rewrite <- app_assoc. reflexivity.
    + simpl. simpl in Hfuel. lia.
Qed.

Lemma parse_pairs_flat L l rest items :
  Forall (fun kv => reads_back (snd kv)) items ->
  forallb (fun kv => readable (snd kv)) items = true ->
  items <> [] ->
  forall acc fuel,
    NoDup (List.map fst acc ++ List.map fst items) ->
    (list_sum (List.map (fun kv => S (size (snd kv))) items) <= fuel)%nat ->
    parse_pairs fuel
      (join_flat L
         (List.map (fun kv => encode_string (fst kv) ++ 58 :: 32
                                :: flat L (snd kv)) items)
       ++ spaces l ++ 125 :: rest) acc
    = Some (JObj (acc ++ items), rest).
Proof.
  induction 1 as [| [k x] xs Hx Hxs IH]; [congruence |].
  intros Hd _ acc fuel Hnd Hfuel.
  simpl in Hd. apply andb_true_iff in Hd as [Hdx Hdxs].
  simpl in Hx, Hfuel. destruct fuel as [| f]; [lia |].
  assert (Hfresh : dict_set k x acc = acc ++ [(k, x)]).
  { apply dict_set_fresh. simpl in Hnd.
    apply NoDup_app in Hnd as (_ & Hnd & _).
    intros Hin. apply (Hnd k Hin). left. }
  assert (Hnd' : NoDup (List.map fst (acc ++ [(k, x)]) ++ List.map fst xs)).
  { rewrite map_app, <- app_assoc. exact Hnd. }
  rewrite parse_pairs_eq.
  assert (Hpair : forall R,
    (encode_string k ++ 58 :: 32 :: flat L x) ++ R
    = quote :: flat_map escape_char k ++ quote :: 58 :: 32 :: flat L x ++ R).
  { intros R. unfold encode_string. simpl. rewrite <- !app_assoc. reflexivity. }
  destruct xs as [| [k' y] ys].
  - simpl join_flat. simpl fst. simpl snd. rewrite Hpair.
    rewrite expect_same.
    rewrite scan_string_encoded.
    rewrite skip_ws_token by reflexivity. rewrite expect_same.
    change (skip_ws (32 :: flat L x ++ spaces l ++ 125 :: rest))
      with (skip_ws (flat L x ++ spaces l ++ 125 :: rest)).
    rewrite skip_ws_own_head by (apply own_head_app, flat_head; exact Hdx).
    rewrite (Hx L f (spaces l ++ 125 :: rest) Hdx ltac:(lia));
      [| apply ends_number_spaces; reflexivity].
    unfold spaces. rewrite skip_ws_spaces.
    rewrite skip_ws_token by reflexivity.
    change (125 =? 125) with true. cbv iota.
    rewrite Hfresh. reflexivity.
  - change (join_flat L
              (List.map (fun kv => encode_string (fst kv) ++ 58 :: 32
                                     :: flat L (snd kv))
                        ((k, x) :: (k', y) :: ys)))
      with ((encode_string k ++ 58 :: 32 :: flat L x)
            ++ comma :: spaces L
            ++ join_flat L
                 (List.map (fun kv => encode_string (fst kv) ++ 58 :: 32
                                        :: flat L (snd kv))
                           ((k', y) :: ys))).
    rewrite <- app_assoc. rewrite Hpair.
    rewrite expect_same.
    rewrite scan_string_encoded.
    rewrite skip_ws_token by reflexivity. rewrite expect_same.
    match goal with |- context [skip_ws (32 :: ?s)] =>
      change (skip_ws (32 :: s)) with (skip_ws s) end.
    rewrite skip_ws_own_head by (apply own_head_app, flat_head; exact Hdx).
    cbn [app].
    rewrite (Hx L f (comma :: _) Hdx ltac:(lia) eq_refl).
    rewrite skip_ws_token by reflexivity.
    change (comma =? 125) with false. change (comma =? comma) with true.
    cbv iota.
    rewrite <- app_assoc. unfold spaces at 1. rewrite skip_ws_spaces.
    rewrite skip_ws_own_head.
    2:{ apply own_head_app, join_flat_head; [discriminate |].
        apply Forall_forall. intros p Hin.
        apply list_elem_of_In, in_map_iff in Hin as (z & <- & _).
        apply own_head_app, encode_string_head. }
    rewrite Hfresh.
    rewrite (IH Hdxs ltac:(discriminate) (acc ++ [(k, x)]) f Hnd').
    + rewrite <- app_assoc. reflexivity.
    + simpl. simpl in Hfuel. lia.
Qed.

(** The reader reads the flat writing of a value back as the value. *)
Lemma parse_flat v : reads_back v.
Proof.
  induction v as [| b | z | s | items IH | items IH | r] using json_nested_ind;
    intros level fuel rest Hd Hfuel Hrest;
    (destruct fuel as [| f]; [simpl in Hfuel; lia |]).
  - reflexivity.
  - destruct b; reflexivity.
  - simpl flat. destruct z as [| p | p].
    + change (encode_int 0) with (encode_nat 0).
      destruct (encode_nat_shape 0) as (d & ds & E & Hdig & _).
      inversion Hdig as [| ? ? Hdd _]; subst.
      pose proof (scan_nat_encoded 0 rest Hrest) as Hs.
      rewrite E in Hs |- *. cbn [app] in *.
      rewrite (parse_value_digit _ _ _ Hdd), Hs. reflexivity.
    + change (encode_int (Z.pos p)) with (encode_nat (N.pos p)).
      destruct (encode_nat_shape (N.pos p)) as (d & ds & E & Hdig & _).
      inversion Hdig as [| ? ? Hdd _]; subst.
      pose proof (scan_nat_encoded (N.pos p) rest Hrest) as Hs.
      rewrite E in Hs |- *. cbn [app] in *.
      rewrite (parse_value_digit _ _ _ Hdd), Hs. reflexivity.
    + change (encode_int (Z.neg p)) with (45 :: encode_nat (N.pos p)).
      cbn [app]. rewrite parse_value_minus.
      rewrite (scan_nat_encoded (N.pos p) rest Hrest). reflexivity.
  - simpl flat. unfold encode_string. cbn [app].
    rewrite parse_value_str, <- app_assoc. cbn [app].
    rewrite scan_string_encoded. reflexivity.
  - destruct items as [| x xs]; [reflexivity |].
    change (flat level (JArr (x :: xs)))
      with (91 :: spaces (S level)
            ++ join_flat (S level) (List.map (flat (S level)) (x :: xs))
            ++ spaces level ++ [93]).
    cbn [app]. rewrite parse_value_arr.
    rewrite <- !app_assoc. cbn [app].
    unfold spaces at 1. rewrite skip_ws_spaces.
    assert (Hj : own_head
                   (join_flat (S level) (List.map (flat (S level)) (x :: xs))
                    ++ spaces level ++ 93 :: rest)).
    { apply own_head_app, join_flat_head; [discriminate |].
      apply Forall_forall. intros p Hin.
      apply list_elem_of_In, in_map_iff in Hin as (z & <- & Hz).
      apply flat_head.
      change (forallb readable (x :: xs) = true) in Hd.
      rewrite forallb_forall in Hd. apply Hd. exact Hz. }
    rewrite (skip_ws_own_head _ Hj).
    destruct (join_flat (S level) (List.map (flat (S level)) (x :: xs))
              ++ spaces level ++ 93 :: rest) as [| d t] eqn:E.
    { destruct Hj as (c & u & Hc & _). discriminate. }
    destruct (own_head_not_closer _ _ _ Hj eq_refl) as [H93 _].
    rewrite H93, <- E.
    apply (parse_items_flat (S level) level rest (x :: xs) IH);
      [exact Hd | discriminate |].
    simpl in Hfuel |- *. lia.
  - destruct items as [| kv xs]; [reflexivity |].
    change (flat level (JObj (kv :: xs)))
      with (123 :: spaces (S level)
            ++ join_flat (S level)
                 (List.map (fun kv => encode_string (fst kv) ++ 58 :: 32
                                        :: flat (S level) (snd kv))
                           (kv :: xs))
            ++ spaces level ++ [125]).
    cbn [app]. rewrite parse_value_obj.
    rewrite <- !app_assoc. cbn [app].
    unfold spaces at 1. rewrite skip_ws_spaces.
    assert (Hj : own_head
                   (join_flat (S level)
                      (List.map (fun kv => encode_string (fst kv) ++ 58 :: 32
                                             :: flat (S level) (snd kv))
                                (kv :: xs))
                    ++ spaces level ++ 125 :: rest)).
    { apply own_head_app, join_flat_head; [discriminate |].
      apply Forall_forall. intros p Hin.
      apply list_elem_of_In, in_map_iff in Hin as (z & <- & _).
      apply own_head_app, encode_string_head. }
    rewrite (skip_ws_own_head _ Hj).
    destruct (join_flat (S level) _ ++ spaces level ++ 125 :: rest)
      as [| d t] eqn:E.
    { destruct Hj as (c & u & Hc & _). discriminate. }
    destruct (own_head_not_closer _ _ _ Hj eq_refl) as [_ H125].
    rewrite H125, <- E.
    change (readable (JObj (kv :: xs)))
      with (bool_decide (NoDup (List.map fst (kv :: xs)))
            && forallb (fun kv => readable (snd kv)) (kv :: xs)) in Hd.
    apply andb_true_iff in Hd as [Hnd Hdk].
    apply bool_decide_eq_true in Hnd.
    apply (parse_pairs_flat (S level) level rest (kv :: xs) IH);
      [exact Hdk | discriminate | exact Hnd |].
    simpl in Hfuel |- *. lia.
  - discriminate Hd.
Qed.
(** *** The flat dump is the dump without its line feeds *)

Lemma without_line_feeds_app a b :
  Plain.without_line_feeds (a ++ b)
  = Plain.without_line_feeds a ++ Plain.without_line_feeds b.
Proof. unfold Plain.without_line_feeds. apply List.filter_app. Qed.

Lemma without_line_feeds_cons c s :
  c <> 10 ->
  Plain.without_line_feeds (c :: s) = c :: Plain.without_line_feeds s.
Proof.
  intros Hc. unfold Plain.without_line_feeds. simpl.
  destruct (N.eqb_spec c 10); [congruence | reflexivity].
Qed.

Lemma without_line_feeds_id s :
  Forall (fun c => c <> 10) s -> Plain.without_line_feeds s = s.
Proof.
  unfold Plain.without_line_feeds.
  induction 1 as [| c t Hc Ht IH]; [reflexivity |]. simpl.
  destruct (N.eqb_spec c 10); [congruence |]. simpl. rewrite IH. reflexivity.
Qed.

Lemma without_line_feeds_indent level :
  Plain.without_line_feeds (newline_indent level) = spaces level.
Proof.
  unfold newline_indent, spaces.
  change (Plain.without_line_feeds (10 :: repeat 32 (4 * level)))
    with (Plain.without_line_feeds (repeat 32 (4 * level))).
  apply without_line_feeds_id.
  generalize (4 * level)%nat. intros n.
  induction n as [| n IH]; simpl; constructor; (discriminate || exact IH).
Qed.

Lemma escape_char_no_line_feed c : Forall (fun x => x <> 10) (escape_char c).
Proof.
  destruct (N.eqb_spec c 127) as [-> | Hne].
  - repeat constructor. discriminate.
  - assert (H : Forall (fun x => is_control x = false) (escape_char c))
      by (apply escape_char_clean, N.eqb_neq; exact Hne).
    induction H as [| x l Hx _ IH]; constructor; [| exact IH].
    intros ->. discriminate.
Qed.

Lemma encode_string_flat s :
  Plain.without_line_feeds (encode_string s) = encode_string s.
Proof.
  apply without_line_feeds_id. unfold encode_string.
  constructor; [discriminate |].
  apply Forall_app. split; [| repeat constructor; discriminate].
  induction s as [| c t IH]; simpl; [constructor |].
  apply Forall_app. split; [apply escape_char_no_line_feed | exact IH].
Qed.

Lemma encode_int_flat z :
  Plain.without_line_feeds (encode_int z) = encode_int z.
Proof.
  apply without_line_feeds_id.
  destruct (encode_int_ok z) as (_ & _ & H).
  induction H as [| x l Hx _ IH]; constructor; [| exact IH].
  intros ->. discriminate.
Qed.

Lemma join_items_flat level parts parts' :
  Forall2 (fun p p' => Plain.without_line_feeds p = p') parts parts' ->
  Plain.without_line_feeds (join_items level parts) = join_flat level parts'.
Proof.
  induction 1 as [| p p' rest rest' Hp Hrest IH]; [reflexivity |].
  destruct Hrest as [| q q' rest rest' Hq Hrest].
  - exact Hp.
  - change (join_items level (p :: q :: rest))
      with (p ++ comma :: newline_indent level ++ join_items level (q :: rest)).
    change (join_flat level (p' :: q' :: rest'))
      with (p' ++ comma :: spaces level ++ join_flat level (q' :: rest')).
    rewrite without_line_feeds_app, Hp. f_equal.
    rewrite without_line_feeds_cons by discriminate. f_equal.
    rewrite without_line_feeds_app, without_line_feeds_indent, IH.
    reflexivity.
Qed.

Lemma without_line_feeds_encode v : forall level,
  readable v = true ->
  Plain.without_line_feeds (encode level v) = flat level v.
Proof.
  induction v as [| b | z | s | items IH | items IH | r] using json_nested_ind;
    intros level Hd.
  - reflexivity.
  - destruct b; reflexivity.
  - apply encode_int_flat.
  - apply encode_string_flat.
  - destruct items as [| x xs]; [reflexivity |].
    change (encode level (JArr (x :: xs)))
      with (91 :: newline_indent (S level)
            ++ join_items (S level) (List.map (encode (S level)) (x :: xs))
            ++ newline_indent level ++ [93]).
    change (flat level (JArr (x :: xs)))
      with (91 :: spaces (S level)
            ++ join_flat (S level) (List.map (flat (S level)) (x :: xs))
            ++ spaces level ++ [93]).
    rewrite without_line_feeds_cons by discriminate.
    rewrite !without_line_feeds_app, !without_line_feeds_indent.
    rewrite (join_items_flat _ _ (List.map (flat (S level)) (x :: xs)));
      [reflexivity |].
    change (forallb readable (x :: xs) = true) in Hd. revert Hd.
    induction IH as [| y ys Hy _ IHl]; simpl; intros Hd; constructor.
    + apply Hy. apply andb_true_iff in Hd as [Hd _]. exact Hd.
    + apply IHl. apply andb_true_iff in Hd as [_ Hd]. exact Hd.
  - destruct items as [| kv xs]; [reflexivity |].
    change (encode level (JObj (kv :: xs)))
      with (123 :: newline_indent (S level)
            ++ join_items (S level)
                 (List.map (fun kv => encode_string (fst kv) ++ 58 :: 32
                                        :: encode (S level) (snd kv))
                           (kv :: xs))
            ++ newline_indent level ++ [125]).
    change (flat level (JObj (kv :: xs)))
      with (123 :: spaces (S level)
            ++ join_flat (S level)
                 (List.map (fun kv => encode_string (fst kv) ++ 58 :: 32
                                        :: flat (S level) (snd kv))
                           (kv :: xs))
            ++ spaces level ++ [125]).
    rewrite without_line_feeds_cons by discriminate.
    rewrite !without_line_feeds_app, !without_line_feeds_indent.
    rewrite (join_items_flat _ _
               (List.map (fun kv => encode_string (fst kv) ++ 58 :: 32
                                      :: flat (S level) (snd kv)) (kv :: xs)));
      [reflexivity |].
    change (readable (JObj (kv :: xs)))
      with (bool_decide (NoDup (List.map fst (kv :: xs)))
            && forallb (fun kv => readable (snd kv)) (kv :: xs)) in Hd.
    apply andb_true_iff in Hd as [_ Hd]. revert Hd.
    induction IH as [| y ys Hy _ IHl]; cbn [List.map forallb]; intros Hd;
      [constructor |].
    apply andb_true_iff in Hd as [Hd1 Hd2]. constructor; [| exact (IHl Hd2)].
    rewrite without_line_feeds_app, encode_string_flat. f_equal.
    rewrite !without_line_feeds_cons by discriminate.
    rewrite (Hy _ Hd1). reflexivity.
  - discriminate Hd.
Qed.

(** *** Enough fuel *)

Lemma join_flat_length level (A : Type) (f : A -> str) (g : A -> nat)
    (items : list A) :
  Forall (fun x => (g x <= length (f x))%nat) items ->
  (list_sum (List.map (fun x => S (g x)) items)
   <= S (length (join_flat level (List.map f items))))%nat.
Proof.
  induction 1 as [| x xs Hx Hxs IH]; [simpl; lia |].
  destruct xs as [| y ys].
  - simpl. lia.
  - change (join_flat level (List.map f (x :: y :: ys)))
      with (f x ++ comma :: spaces level ++ join_flat level (List.map f (y :: ys))).
    rewrite length_app. cbn [length]. rewrite length_app.
    change (list_sum (List.map (fun x => S (g x)) (x :: y :: ys)))
      with (S (g x) + list_sum (List.map (fun x => S (g x)) (y :: ys)))%nat.
    lia.
Qed.

Lemma size_flat v : forall level,
  readable v = true -> (size v <= length (flat level v))%nat.
Proof.
  induction v as [| b | z | s | items IH | items IH | r] using json_nested_ind;
    intros level Hd.
  - simpl. lia.
  - destruct b; simpl; lia.
  - simpl. destruct (encode_int_digits z) as (c & rest & -> & _). simpl. lia.
  - simpl. lia.
  - destruct items as [| x xs]; [simpl; lia |].
    change (flat level (JArr (x :: xs)))
      with (91 :: spaces (S level)
            ++ join_flat (S level) (List.map (flat (S level)) (x :: xs))
            ++ spaces level ++ [93]).
    change (size (JArr (x :: xs)))
      with (S (list_sum (List.map (fun x => S (size x)) (x :: xs)))).
    pose proof (join_flat_length (S level) json (flat (S level)) size (x :: xs)) as Hj.
    cbn [length]. rewrite !length_app. cbn [length].
    assert (Hall : Forall (fun x => (size x <= length (flat (S level) x))%nat) (x :: xs)).
    { change (forallb readable (x :: xs) = true) in Hd.
      rewrite forallb_forall in Hd.
      apply Forall_forall. intros y Hy. rewrite Forall_forall in IH.
      apply (IH y Hy). apply Hd, list_elem_of_In. exact Hy. }
    specialize (Hj Hall). lia.
  - destruct items as [| kv xs]; [simpl; lia |].
    change (flat level (JObj (kv :: xs)))
      with (123 :: spaces (S level)
            ++ join_flat (S level)
                 (List.map (fun kv => encode_string (fst kv) ++ 58 :: 32
                                        :: flat (S level) (snd kv))
                           (kv :: xs))
            ++ spaces level ++ [125]).
    change (size (JObj (kv :: xs)))
      with (S (list_sum (List.map (fun kv => S (size (snd kv))) (kv :: xs)))).
    pose proof (join_flat_length (S level) (str * json)
                  (fun kv => encode_string (fst kv) ++ 58 :: 32
                               :: flat (S level) (snd kv))
                  (fun kv => size (snd kv)) (kv :: xs)) as Hj.
    cbn [length]. rewrite !length_app. cbn [length].
    assert (Hall : Forall (fun kv : str * json =>
                     Nat.le (size (snd kv))
                       (length (encode_string (fst kv) ++ 58 :: 32
                                  :: flat (S level) (snd kv)))) (kv :: xs)).
    { change (readable (JObj (kv :: xs)))
        with (bool_decide (NoDup (List.map fst (kv :: xs)))
              && forallb (fun kv => readable (snd kv)) (kv :: xs)) in Hd.
      apply andb_true_iff in Hd as [_ Hd]. rewrite forallb_forall in Hd.
      apply Forall_forall. intros y Hy. rewrite Forall_forall in IH.
      pose proof (IH y Hy (S level) (Hd y (proj1 (list_elem_of_In _ _) Hy))) as Hs.
      cbv beta. rewrite length_app. cbn [length]. lia. }
    specialize (Hj Hall). lia.
  - discriminate Hd.
Qed.

(** The reader reads the dump without its line feeds as the value that
    was dumped. *)
Lemma loads_flat_dump d :
  readable d = true ->
  loads (Plain.without_line_feeds (dump d)) = Some d.
Proof.
  intros Hd. unfold dump. rewrite without_line_feeds_encode by exact Hd.
  unfold loads.
  rewrite (skip_ws_own_head _ (flat_head 0 d Hd)).
  rewrite <- (app_nil_r (flat 0 d)) at 2.
  rewrite (parse_flat d 0%nat _ [] Hd); [reflexivity | | reflexivity].
  pose proof (size_flat d 0 Hd). lia.
Qed.

(** So the cache gives a plain Document back. *)
Lemma loads_clean_dump d :
  Plain.plain d = true -> readable d = true ->
  loads (Sanitizer.clean_json (dump d)) = Some d.
Proof.
  intros Hp Hd. rewrite (clean_json_plain_dump d Hp).
  apply loads_flat_dump. exact Hd.
Qed.
(** *** What the reader returns has distinct keys *)

Lemma dict_set_keys key v acc :
  NoDup (List.map fst acc) -> NoDup (List.map fst (dict_set key v acc)).
Proof.
  induction acc as [| [k x] rest IH]; simpl.
  - intros _. repeat constructor. intros Hin. inversion Hin.
  - intros Hnd. inversion Hnd as [| ? ? Hk Hrest]; subst.
    destruct (bool_decide (k = key)) eqn:E; simpl.
    + constructor; assumption.
    + apply bool_decide_eq_false in E.
      constructor; [| apply IH; exact Hrest].
      intros Hin. apply Hk. clear - Hin E.
      induction rest as [| [k' x'] rest IH]; simpl in *.
      * apply list_elem_of_In in Hin. simpl in Hin.
        destruct Hin as [Hin | []]. congruence.
      * destruct (bool_decide (k' = key)); simpl in *; [exact Hin |].
        apply list_elem_of_In in Hin. simpl in Hin.
        apply list_elem_of_In. simpl.
        destruct Hin as [Hin | Hin]; [left; exact Hin | right].
        apply list_elem_of_In, IH, list_elem_of_In. exact Hin.
Qed.

Lemma dict_set_values key v acc :
  readable v = true ->
  forallb (fun kv => readable (snd kv)) acc = true ->
  forallb (fun kv => readable (snd kv)) (dict_set key v acc) = true.
Proof.
  intros Hv. induction acc as [| [k x] rest IH]; simpl.
  - intros _. rewrite Hv. reflexivity.
  - intros H. apply andb_true_iff in H as [Hx Hrest].
    destruct (bool_decide (k = key)); simpl.
    + rewrite Hv, Hrest. reflexivity.
    + rewrite Hx, (IH Hrest). reflexivity.
Qed.

Lemma forallb_snoc {A} (p : A -> bool) l x :
  forallb p l = true -> p x = true -> forallb p (l ++ [x]) = true.
Proof.
  intros Hl Hx. rewrite forallb_app, Hl. simpl. rewrite Hx. reflexivity.
Qed.

Lemma parse_distinct fuel :
  (forall s v rest, parse_value fuel s = Some (v, rest) ->
                    readable v = true)
  /\ (forall s acc v rest,
        forallb readable acc = true ->
        parse_items fuel s acc = Some (v, rest) -> readable v = true)
  /\ (forall s acc v rest,
        NoDup (List.map fst acc) ->
        forallb (fun kv => readable (snd kv)) acc = true ->
        parse_pairs fuel s acc = Some (v, rest) -> readable v = true).
Proof.
  induction fuel as [| f (IHv & IHi & IHp)].
  - repeat split; intros; discriminate.
  - split; [| split].
    + intros s v rest. cbn [parse_value].
      destruct s as [| c t]; [discriminate |].
      destruct (c =? quote).
      { destruct (scan_string t) as [[content r] |]; [| discriminate].
        intros E. injection E as <- <-. reflexivity. }
      destruct (c =? 123).
      { destruct (skip_ws t) as [| d t']; [discriminate |].
        destruct (d =? 125).
        - intros E. injection E as <- <-. reflexivity.
        - apply IHp; [constructor | reflexivity]. }
      destruct (c =? 91).
      { destruct (skip_ws t) as [| d t']; [discriminate |].
        destruct (d =? 93).
        - intros E. injection E as <- <-. reflexivity.
        - apply IHi. reflexivity. }
      destruct (Str.startswith (py "null") (c :: t));
        [intros E; injection E as <- <-; reflexivity |].
      destruct (Str.startswith (py "true") (c :: t));
        [intros E; injection E as <- <-; reflexivity |].
      destruct (Str.startswith (py "false") (c :: t));
        [intros E; injection E as <- <-; reflexivity |].
      destruct (c =? 45).
      { destruct (scan_nat t) as [[n r] |]; [| discriminate].
        intros E. injection E as <- <-. reflexivity. }
      destruct (scan_nat (c :: t)) as [[n r] |]; [| discriminate].
      intros E. injection E as <- <-. reflexivity.
    + intros s acc v rest Hacc. rewrite parse_items_eq.
      destruct (parse_value f s) as [[x r] |] eqn:Ex; [| discriminate].
      pose proof (IHv _ _ _ Ex) as Hx.
      destruct (skip_ws r) as [| c t]; [discriminate |].
      destruct (c =? 93).
      { intros E. injection E as <- <-.
        change (forallb readable (acc ++ [x]) = true).
        apply forallb_snoc; assumption. }
      destruct (c =? comma); [| discriminate].
      apply IHi. apply forallb_snoc; assumption.
    + intros s acc v rest Hnd Hacc. rewrite parse_pairs_eq.
      destruct (expect quote s) as [t |]; [| discriminate].
      destruct (scan_string t) as [[key r] |]; [| discriminate].
      destruct (expect 58 (skip_ws r)) as [r1 |]; [| discriminate].
      destruct (parse_value f (skip_ws r1)) as [[x r2] |] eqn:Ex;
        [| discriminate].
      pose proof (IHv _ _ _ Ex) as Hx.
      destruct (skip_ws r2) as [| c t']; [discriminate |].
      destruct (c =? 125).
      { intros E. injection E as <- <-.
        change (bool_decide (NoDup (List.map fst (dict_set key x acc)))
                && forallb (fun kv => readable (snd kv))
                     (dict_set key x acc) = true).
        rewrite (dict_set_values _ _ _ Hx Hacc), andb_true_r.
        apply bool_decide_eq_true, dict_set_keys. exact Hnd. }
      destruct (c =? comma); [| discriminate].
      apply IHp; [apply dict_set_keys; exact Hnd |].
      apply dict_set_values; assumption.
Qed.

Lemma loads_distinct s v : loads s = Some v -> readable v = true.
Proof.
  unfold loads.
  destruct (parse_value (2 + length s) (skip_ws s)) as [[x rest] |] eqn:E;
    [| discriminate].
  destruct (skip_ws rest); [| discriminate].
  intros Hv. injection Hv as <-.
  exact (proj1 (parse_distinct _) _ _ _ E).
Qed.

End ReaderFacts.

(** ** The cache and plain Documents *)

Module CacheFacts.
Import Py Effects Loader RunFacts LoaderFacts.

Section WithLib.
Context `{PyLib}.

(** A slot that holds the dump of a plain Document answers the load
    with that Document, when the reader reads the dump without its line
    feeds as the Document. *)
Lemma plain_dump_reloads url f w d :
  cache_name url = Some f ->
  files w !! f = Some (Json.dump d) ->
  Plain.plain d = true ->
  json_loads (Plain.without_line_feeds (Json.dump d)) = Some d ->
  fetch_w3u url w
  = Done d (set_files (<[f := Plain.without_line_feeds (Json.dump d)]> (files w)) w).
Proof.
  intros Hn Hs Hp Hj.
  rewrite <- (PlainFacts.clean_json_plain_dump d Hp) in *.
  apply fetch_w3u_cached; assumption.
Qed.

End WithLib.
End CacheFacts.

(** ** What the sanitizer takes out *)

Module DeletedFacts.
Import Sanitizer SanitizerFacts Deleted.

(** A match of the pattern's tail is a run of whitespace and a closer. *)
Lemma match_tail_split s d rest :
  match_tail s = Some (d, rest) ->
  exists ws, s = ws ++ d :: rest /\ forallb is_space ws = true.
Proof.
  induction s as [| c t IH]; simpl; [discriminate |].
  destruct (is_space c) eqn:Es.
  - intros Hm. destruct (IH Hm) as (ws & -> & Hws).
    exists (c :: ws). simpl. rewrite Es. split; [reflexivity | exact Hws].
  - destruct (is_closer c); [| discriminate].
    intros Hm. injection Hm as <- <-. exists []. split; reflexivity.
Qed.

Lemma kept_app a b : kept (a ++ b) = kept a ++ kept b.
Proof. unfold kept. apply List.filter_app. Qed.

Lemma kept_spaces ws : forallb is_space ws = true -> kept ws = [].
Proof.
  induction ws as [| c t IH]; simpl; [reflexivity |].
  intros Hs. apply andb_true_iff in Hs as [Hc Ht].
  unfold removable. rewrite Hc, orb_true_r. simpl. exact (IH Ht).
Qed.

Lemma sublist_spaces_closer ws (d : N) (a b : list N) :
  sublist a b -> sublist (d :: a) (ws ++ d :: b).
Proof.
  intros Hs. induction ws as [| c t IH]; simpl.
  - constructor. exact Hs.
  - constructor. exact IH.
Qed.

Lemma remove_trailing_commas_sublist s :
  sublist (remove_trailing_commas s) s.
Proof.
  induction s as [| c t IH] using scan_ind; [constructor |].
  rewrite remove_trailing_commas_cons.
  destruct (c =? comma).
  - destruct (match_tail t) as [[d rest] |] eqn:Em.
    + pose proof (match_tail_length _ _ _ Em) as Hlen.
      destruct (match_tail_split _ _ _ Em) as (ws & -> & _).
      apply sublist_cons. apply sublist_spaces_closer. apply IH. lia.
    + apply sublist_skip. apply IH. lia.
  - apply sublist_skip. apply IH. lia.
Qed.

Lemma remove_control_sublist s : sublist (remove_control s) s.
Proof.
  unfold remove_control. induction s as [| c t IH]; simpl; [constructor |].
  destruct (is_control c); simpl; [apply sublist_cons | apply sublist_skip];
    exact IH.
Qed.

Lemma kept_cons c t :
  kept (c :: t) = (if removable c then [] else [c]) ++ kept t.
Proof. unfold kept. simpl. destruct (removable c); reflexivity. Qed.

Lemma kept_remove_trailing_commas s :
  kept (remove_trailing_commas s) = kept s.
Proof.
  induction s as [| c t IH] using scan_ind; [reflexivity |].
  rewrite remove_trailing_commas_cons.
  destruct (c =? comma) eqn:Ec.
  - assert (Hc : kept (c :: t) = kept t).
    { rewrite kept_cons. unfold removable. rewrite Ec. reflexivity. }
    destruct (match_tail t) as [[d rest] |] eqn:Em.
    + pose proof (match_tail_length _ _ _ Em) as Hlen.
      destruct (match_tail_split _ _ _ Em) as (ws & Et & Hws).
      rewrite Hc, Et, kept_app, (kept_spaces _ Hws), app_nil_l.
      rewrite !kept_cons, IH by lia. reflexivity.
    + rewrite Hc, kept_cons, IH by lia.
      unfold removable. rewrite Ec. reflexivity.
  - rewrite !kept_cons, IH by lia. reflexivity.
Qed.

Lemma kept_remove_control s : kept (remove_control s) = kept s.
Proof.
  induction s as [| c t IH]; [reflexivity |].
  change (remove_control (c :: t))
    with (if negb (is_control c) then c :: remove_control t
          else remove_control t).
  destruct (is_control c) eqn:E; simpl negb; cbv iota.
  - rewrite IH, kept_cons. unfold removable. rewrite E, orb_true_r.
    reflexivity.
  - rewrite !kept_cons, IH. reflexivity.
Qed.

Lemma control_free_clean s :
  control_free s = true <-> Forall (fun c => is_control c = false) s.
Proof.
  unfold control_free. induction s as [| c t IH]; simpl.
  - split; [constructor | reflexivity].
  - rewrite andb_true_iff, negb_true_iff, IH. split.
    + intros [Hc Ht]. constructor; assumption.
    + intros Hall. inversion Hall; subst. split; assumption.
Qed.

(** The second pass changes a text exactly when a control character is
    in it. *)
Lemma remove_control_fixed s :
  control_free s = true -> remove_control s = s.
Proof.
  unfold control_free, remove_control.
  induction s as [| c t IH]; simpl; [reflexivity |].
  intros Hs. apply andb_true_iff in Hs as [Hc Ht].
  rewrite Hc, (IH Ht). reflexivity.
Qed.

Lemma remove_control_same_length s :
  length (remove_control s) = length s -> control_free s = true.
Proof.
  unfold control_free.
  induction s as [| c t IH]; [reflexivity |].
  change (remove_control (c :: t))
    with (if negb (is_control c) then c :: remove_control t
          else remove_control t).
  pose proof (remove_control_length t) as Hle.
  destruct (is_control c) eqn:E; simpl; rewrite E.
  - intros Hlen. lia.
  - intros Hlen. apply IH. lia.
Qed.

(** The first pass changes a text exactly when a match starts in it. *)
Lemma no_match_fixed s :
  no_match s = true -> remove_trailing_commas s = s.
Proof.
  induction s as [| c t IH]; [reflexivity |].
  simpl. intros Hs. apply andb_true_iff in Hs as [Hc Ht].
  rewrite remove_trailing_commas_cons, (IH Ht).
  destruct (c =? comma); [| reflexivity].
  destruct (match_tail t) as [[d rest] |]; [| reflexivity].
  discriminate Hc.
Qed.

Lemma match_shrinks s :
  no_match s = false ->
  (length (remove_trailing_commas s) < length s)%nat.
Proof.
  induction s as [| c t IH]; [discriminate |].
  simpl. intros Hs. rewrite remove_trailing_commas_cons.
  pose proof (remove_trailing_commas_length t) as Ht.
  destruct (c =? comma).
  - destruct (match_tail t) as [[d rest] |] eqn:Em.
    + pose proof (match_tail_length _ _ _ Em).
      pose proof (remove_trailing_commas_length rest). simpl. lia.
    + specialize (IH Hs). simpl. lia.
  - simpl in Hs. specialize (IH Hs). simpl. lia.
Qed.

End DeletedFacts.

(** ** Runs of the loader *)

Module LoaderRuns.
Import Py Effects Loader RunFacts Frame FrameFacts LoaderFacts.

Section WithLib.
Context `{PyLib}.

(** A request answered by a valid text: the dump is written, the
    notice printed, the value returned. *)
Lemma from_network_saves url f w r d :
  network w (requests w) url = Some r ->
  Str.startswith (py "#EXTM3U") (Str.strip (resp_text r)) = false ->
  resp_ok r = true ->
  json_loads (Sanitizer.clean_json (resp_text_utf8 r)) = Some d ->
  from_network url f w
  = Done d
      (log [Print (LSaved f)]
         (set_files (<[f := json_dump d]> (files w))
            (count_request (log [HttpGet url] w)))).
Proof.
  intros Hn Hm Hok Hj. unfold from_network, try_except.
  rewrite bind_run. unfold requests_get. rewrite Hn. cbv beta iota zeta.
  rewrite Hm. rewrite bind_run. unfold raise_for_status. rewrite Hok.
  unfold ret at 1. cbv beta iota.
  rewrite bind_run. unfold validate_json, loads. rewrite Hj.
  unfold ret at 1. cbv beta iota. rewrite bind_run. unfold ret at 1.
  cbv beta iota. rewrite bind_run. unfold ret at 1. cbv beta iota.
  rewrite bind_run. unfold write_file. cbv beta iota.
  rewrite bind_run, print_run. reflexivity.
Qed.

(** What [revalidate_and_clean_cache] does, by the state of the file. *)
Lemma revalidate_run f w :
  revalidate_and_clean_cache f w =
  match files w !! f with
  | None => Raised OSError w
  | Some c =>
      match json_loads (Sanitizer.clean_json c) with
      | Some d =>
          Done d (set_files (<[f := Sanitizer.clean_json c]> (files w)) w)
      | None => Raised JSONDecodeError (log [Print LValidationError] w)
      end
  end.
Proof.
  unfold revalidate_and_clean_cache. rewrite bind_run. unfold read_file.
  destruct (files w !! f) as [c |]; [| reflexivity].
  rewrite bind_run. unfold validate_json, loads.
  destruct (json_loads (Sanitizer.clean_json c)) as [d |]; reflexivity.
Qed.

(** The load of a URL that [urlparse] refuses. *)
Lemma fetch_w3u_bad_url url w :
  cache_name url = None -> fetch_w3u url w = Raised ValueError w.
Proof.
  unfold cache_name, fetch_w3u, get_filename_from_url.
  destruct (url_basename url); [discriminate | reflexivity].
Qed.

(** What [from_network] leaves of the world, however it ends. *)
Lemma from_network_frame url f w :
  match from_network url f w with
  | Done _ w' | Raised _ w' =>
      history w' = history w
      /\ network w' = network w
      /\ (forall name, name <> f -> files w' !! name = files w !! name)
      /\ requests w' = S (requests w)
      /\ (stdin w' = stdin w \/ stdin w' = tail (stdin w))
  | OutOfFuel => False
  end.
Proof.
  unfold from_network, try_except, requests_get, raise_for_status,
    validate_json, loads, input, open_in_vlc, print, emit, write_file,
    bind, ret, raise.
  destruct (network w (requests w) url) as [r |]; cbn [is_fetch_error].
  - destruct (Str.startswith _ _).
    + cbn [stdin set_stdin log count_request].
      destruct (stdin w) as [| c rest]; cbn [is_fetch_error].
      * repeat split; try reflexivity. left. reflexivity.
      * destruct c; repeat split; try reflexivity; right; reflexivity.
    + destruct (resp_ok r); cbn [is_fetch_error].
      * destruct (json_loads _); cbn [is_fetch_error].
        -- repeat split; try reflexivity; [| left; reflexivity].
           intros name Hne. cbn. apply lookup_insert_ne. congruence.
        -- cbn [stdin set_stdin log count_request].
           destruct (stdin w); repeat split; try reflexivity;
             right; reflexivity.
      * cbn [stdin set_stdin log count_request].
        destruct (stdin w); repeat split; try reflexivity;
          right; reflexivity.
  - cbn [stdin set_stdin log count_request].
    destruct (stdin w); repeat split; try reflexivity;
      right; reflexivity.
Qed.

(** The request lets no exception through but [EOFError], raised where a
    line is awaited and none is left. *)
Lemma from_network_raised url f w e w' :
  from_network url f w = Raised e w' -> e = EOFError /\ stdin w = [].
Proof.
  unfold from_network, try_except, requests_get, raise_for_status,
    validate_json, loads, input, open_in_vlc, print, emit, write_file,
    bind, ret, raise.
  destruct (network w (requests w) url) as [r |]; cbn [is_fetch_error].
  - destruct (Str.startswith _ _).
    + cbn [stdin set_stdin log count_request].
      destruct (stdin w) as [| c rest]; cbn [is_fetch_error].
      * intros E. injection E as <- _. split; reflexivity.
      * destruct c; discriminate.
    + destruct (resp_ok r); cbn [is_fetch_error].
      * destruct (json_loads _); cbn [is_fetch_error]; [discriminate |].
        cbn [stdin set_stdin log count_request].
        destruct (stdin w); [| discriminate].
        intros E. injection E as <- _. split; reflexivity.
      * cbn [stdin set_stdin log count_request].
        destruct (stdin w); [| discriminate].
        intros E. injection E as <- _. split; reflexivity.
  - cbn [stdin set_stdin log count_request].
    destruct (stdin w); [| discriminate].
    intros E. injection E as <- _. split; reflexivity.
Qed.

End WithLib.
End LoaderRuns.

(** ** Runs of the navigator *)

Module NavigatorRuns.
Import Py Classifier Menu Effects Loader Navigator Screen.
Import RunFacts Frame FrameFacts LoaderFacts TargetFacts NavigatorFacts.

(** A value that is false in [if selected_url:] dispatches nothing. *)
Lemma target_falsy v : truthy v = false -> target v = Ok None.
Proof.
  intros Hv. unfold target, rewritten_url. rewrite Hv. simpl.
  rewrite Hv. reflexivity.
Qed.

Section WithLib.
Context `{PyLib}.

(** Lines 103 to 107 once the load has returned. *)
Lemma enter_run url w d w1 :
  fetch_w3u url w = Done d w1 ->
  enter url w
  = if truthy d then Done (Some d) (set_history (history w1 ++ [url]) w1)
    else Done None w1.
Proof.
  intros Hf. unfold enter. rewrite bind_run, Hf. cbv beta iota.
  destruct (truthy d); reflexivity.
Qed.

Lemma navigate_run fuel url cache_message w d w1 :
  fetch_w3u url w = Done d w1 ->
  navigate_w3u fuel url cache_message w
  = if truthy d
    then loop fuel d cache_message (set_history (history w1 ++ [url]) w1)
    else Done tt w1.
Proof.
  intros Hf. unfold navigate_w3u.
  rewrite bind_run, (enter_run _ _ _ _ Hf).
  destruct (truthy d); reflexivity.
Qed.

Lemma navigate_raised fuel url cache_message w e w1 :
  fetch_w3u url w = Raised e w1 ->
  navigate_w3u fuel url cache_message w = Raised e w1.
Proof.
  intros Hf. unfold navigate_w3u, enter. rewrite !bind_run, Hf. reflexivity.
Qed.

(** The two ways of a [back] branch. *)
Lemma back_pops (go : str -> M unit) (again : M unit) w h previous current :
  history w = h ++ [previous; current] ->
  back go again w = go previous (set_history h w).
Proof.
  intros Hh. unfold back. rewrite bind_run. unfold history_len.
  cbv beta iota.
  assert (Hlt : (1 <? length (history w))%nat = true)
    by (apply Nat.ltb_lt; rewrite Hh, length_app; simpl; lia).
  rewrite Hlt. rewrite bind_run.
  rewrite (history_pop_run _ (h ++ [previous]) current)
    by (rewrite Hh, <- app_assoc; reflexivity).
  cbv beta iota. rewrite bind_run.
  rewrite (history_pop_run _ h previous) by reflexivity.
  reflexivity.
Qed.

Lemma back_stays (go : str -> M unit) (again : M unit) w l rest :
  (length (history w) <= 1)%nat ->
  stdin w = l :: rest ->
  back go again w
  = again (set_stdin rest (log [Print LNoParent; Asked PEnter] w)).
Proof.
  intros Hlen Hin. unfold back. rewrite bind_run. unfold history_len.
  cbv beta iota.
  assert (Hlt : (1 <? length (history w))%nat = false)
    by (apply Nat.ltb_ge; exact Hlen).
  rewrite Hlt. rewrite bind_run, print_run. cbv beta iota.
  rewrite bind_run. erewrite input_run by (simpl; exact Hin).
  cbv beta iota. rewrite log_log. reflexivity.
Qed.

(** The notice and the wait of the [else] branch. *)
Lemma invalid_run (again : M unit) w l rest :
  stdin w = l :: rest ->
  bind (print LInvalidChoice) (fun _ => bind (input PEnter) (fun _ => again)) w
  = again (set_stdin rest (log [Print LInvalidChoice; Asked PEnter] w)).
Proof.
  intros Hin. rewrite bind_run, print_run. cbv beta iota.
  rewrite bind_run. erewrite input_run by (simpl; exact Hin).
  cbv beta iota. rewrite log_log. reflexivity.
Qed.

(** A turn on which an option is selected, up to the dispatch. *)
Lemma loop_select fuel data cache_message w m n rest selected parent v :
  render data = Ok m ->
  stdin w = TDigits n :: rest ->
  (n < option_index m)%nat ->
  options m !! n = Some (selected, parent) ->
  get selected (py "url") JNull = Ok v ->
  loop (S fuel) data cache_message w
  = bind (lift (target v)) (fun t =>
      match t with
      | None => loop fuel data None
      | Some (u, SubDocument) =>
          bind (get_filename_from_url u) (fun filename =>
          bind (navigate_w3u fuel u (Some filename)) (fun _ =>
          loop fuel data None))
      | Some (u, Media) =>
          bind (print (LOpeningVlc u)) (fun _ =>
          bind (emit Sleep) (fun _ =>
          bind (open_in_vlc u) (fun _ => loop fuel data None)))
      | Some (u, WebPage) =>
          bind (print (LOpeningBrowser u)) (fun _ =>
          bind (emit Sleep) (fun _ =>
          bind (emit (Browser u)) (fun _ => loop fuel data None)))
      end) (at_choice cache_message m rest w).
Proof.
  intros Hr Hin Hlt Hopt Hurl.
  rewrite (loop_turn _ _ _ _ _ _ _ Hr Hin).
  apply Nat.ltb_lt in Hlt. rewrite Hlt, Hopt, Hurl.
  rewrite bind_run, lift_ok. reflexivity.
Qed.

(** The same for an entry whose URL is a non-empty string. *)
Lemma loop_select_url fuel data cache_message w m n rest selected parent u :
  render data = Ok m ->
  stdin w = TDigits n :: rest ->
  (n < option_index m)%nat ->
  options m !! n = Some (selected, parent) ->
  get selected (py "url") JNull = Ok (JStr u) ->
  u <> [] ->
  loop (S fuel) data cache_message w
  = match classify (alias_rewrite u) with
    | SubDocument =>
        bind (get_filename_from_url (alias_rewrite u)) (fun filename =>
        bind (navigate_w3u fuel (alias_rewrite u) (Some filename)) (fun _ =>
        loop fuel data None))
    | Media =>
        bind (print (LOpeningVlc (alias_rewrite u))) (fun _ =>
        bind (emit Sleep) (fun _ =>
        bind (open_in_vlc (alias_rewrite u)) (fun _ => loop fuel data None)))
    | WebPage =>
        bind (print (LOpeningBrowser (alias_rewrite u))) (fun _ =>
        bind (emit Sleep) (fun _ =>
        bind (emit (Browser (alias_rewrite u))) (fun _ => loop fuel data None)))
    end (at_choice cache_message m rest w).
Proof.
  intros Hr Hin Hlt Hopt Hurl Hu.
  rewrite (loop_select _ _ _ _ _ _ _ _ _ _ Hr Hin Hlt Hopt Hurl).
  rewrite target_str, bool_decide_eq_false_2 by exact Hu.
  rewrite bind_run, lift_ok. cbv beta iota.
  destruct (classify (alias_rewrite u)); reflexivity.
Qed.

End WithLib.
End NavigatorRuns.

(** ** The example page *)

Module HubFacts.
Import Menu Hub.

Lemma hub_renders : render hub = Ok hub_menu.
Proof. reflexivity. Qed.

End HubFacts.

(** ** No request without a typed line *)

Module PaceFacts.
Import Py Classifier Menu Effects Loader Navigator RunFacts Pace.

Section WithLib.
Context `{PyLib}.

Lemma paced_weaken {A} k k' (m : M A) :
  (k <= k')%nat -> paced k m -> paced k' m.
Proof.
  intros Hk Hm w. specialize (Hm w).
  destruct (m w) as [a w' | e w' |]; [| | exact I]; lia.
Qed.

Lemma paced_ret {A} k (a : A) : paced k (ret a).
Proof. intros w. simpl. lia. Qed.

Lemma paced_raise {A} k e : paced k (@raise A e).
Proof. intros w. simpl. lia. Qed.

Lemma paced_lift {A} k (r : res A) : paced k (lift r).
Proof. destruct r; [apply paced_ret | apply paced_raise]. Qed.

Lemma paced_bind {A B} k1 k2 (m : M A) (f : A -> M B) :
  paced k1 m -> (forall a, paced k2 (f a)) -> paced (k1 + k2) (bind m f).
Proof.
  intros Hm Hf w. rewrite bind_run. specialize (Hm w).
  destruct (m w) as [a w' | e w' |]; [| lia | exact I].
  specialize (Hf a w').
  destruct (f a w') as [b w'' | e w'' |]; [| | exact I]; lia.
Qed.

(** A step that makes no request, then the rest. *)
Lemma paced_then {A B} k (m : M A) (f : A -> M B) :
  paced 0 m -> (forall a, paced k (f a)) -> paced k (bind m f).
Proof. intros Hm Hf. apply (paced_bind 0 k); assumption. Qed.

(** The rest makes no request. *)
Lemma paced_first {A B} k (m : M A) (f : A -> M B) :
  paced k m -> (forall a, paced 0 (f a)) -> paced k (bind m f).
Proof.
  intros Hm Hf. apply (paced_weaken (k + 0)); [lia |].
  apply paced_bind; assumption.
Qed.

Lemma paced_try_except {A} k (m : M A) caught (handler : M A) :
  paced k m -> paced 0 handler -> paced k (try_except m caught handler).
Proof.
  intros Hm Hh w. unfold try_except. specialize (Hm w).
  destruct (m w) as [a w' | e w' |]; [exact Hm | | exact I].
  destruct (caught e); [| exact Hm].
  specialize (Hh w').
  destruct (handler w') as [b w'' | e' w'' |]; [| | exact I]; lia.
Qed.

(** A line read pays for a request in what follows. *)
Lemma paced_input_bind {B} k p (f : typed -> M B) :
  (forall c, paced (S k) (f c)) -> paced k (bind (input p) f).
Proof.
  intros Hf w. rewrite bind_run. unfold input.
  destruct (stdin w) as [| c rest] eqn:Ein; cbv beta iota zeta.
  - unfold spent. simpl. rewrite Ein. simpl. lia.
  - specialize (Hf c (set_stdin rest (log [Asked p] w))). simpl tail.
    destruct (f c (set_stdin rest (log [Asked p] w))) as [b w' | e w' |];
      [| | exact I]; unfold spent in *; simpl in Hf; rewrite Ein; simpl; lia.
Qed.

Lemma paced_input k p : paced k (input p).
Proof.
  intros w. unfold input.
  destruct (stdin w) eqn:Ein; unfold spent; simpl; rewrite Ein; simpl; lia.
Qed.

(** A request takes one from the allowance. *)
Lemma paced_get_bind {B} k u (f : response -> M B) :
  (forall r, paced k (f r)) -> paced (S k) (bind (requests_get u) f).
Proof.
  intros Hf w. rewrite bind_run. unfold requests_get.
  destruct (network w (requests w) u) as [r |]; cbv beta iota zeta.
  - specialize (Hf r (count_request (log [HttpGet u] w))).
    destruct (f r (count_request (log [HttpGet u] w))) as [b w' | e w' |];
      [| | exact I]; unfold spent in *; simpl in Hf; lia.
  - unfold spent. simpl. lia.
Qed.

Lemma paced_emit k e : paced k (emit e).
Proof. intros w. unfold spent. simpl. lia. Qed.

Lemma paced_print_all k lines : paced k (print_all lines).
Proof. intros w. rewrite print_all_run. unfold spent. simpl. lia. Qed.

Lemma paced_path_exists k f : paced k (path_exists f).
Proof. intros w. simpl. lia. Qed.

Lemma paced_read_file k f : paced k (read_file f).
Proof. intros w. unfold read_file. destruct (files w !! f); simpl; lia. Qed.

Lemma paced_write_file k f c : paced k (write_file f c).
Proof. intros w. unfold spent. simpl. lia. Qed.

Lemma paced_remove_file k f : paced k (remove_file f).
Proof. intros w. unfold spent. simpl. lia. Qed.

Lemma paced_history_append k u : paced k (history_append u).
Proof. intros w. unfold spent. simpl. lia. Qed.

Lemma paced_history_pop k : paced k history_pop.
Proof.
  intros w. unfold history_pop.
  destruct (last (history w)); unfold spent; simpl; lia.
Qed.

Lemma paced_history_len k : paced k history_len.
Proof. intros w. simpl. lia. Qed.

Lemma paced_get_filename k u : paced k (get_filename_from_url u).
Proof.
  unfold get_filename_from_url.
  destruct (url_basename u); [apply paced_ret | apply paced_raise].
Qed.

Ltac paced_step :=
  match goal with
    | |- forall _, paced _ _ => intro; cbv beta
    | |- paced _ (bind (input _) _) => apply paced_input_bind
    | |- paced _ (bind (requests_get _) _) => apply paced_get_bind
    | |- paced _ (bind _ _) => apply paced_then
    | |- paced _ (try_except _ _ _) => apply paced_try_except
    | |- paced _ (ret _) => apply paced_ret
    | |- paced _ (raise _) => apply paced_raise
    | |- paced _ (lift _) => apply paced_lift
    | |- paced _ (emit _) => apply paced_emit
    | |- paced _ (print _) => apply paced_emit
    | |- paced _ (open_in_vlc _) => apply paced_emit
    | |- paced _ (print_all _) => apply paced_print_all
    | |- paced _ (input _) => apply paced_input
    | |- paced _ (path_exists _) => apply paced_path_exists
    | |- paced _ (read_file _) => apply paced_read_file
    | |- paced _ (write_file _ _) => apply paced_write_file
    | |- paced _ (remove_file _) => apply paced_remove_file
    | |- paced _ (history_append _) => apply paced_history_append
    | |- paced _ history_pop => apply paced_history_pop
    | |- paced _ history_len => apply paced_history_len
    | |- paced _ (get_filename_from_url _) => apply paced_get_filename
    | |- paced _ (if ?b then _ else _) => destruct b
    | |- paced _ (match ?x with _ => _ end) => destruct x
    end.

Ltac paced_rules := repeat paced_step.

Lemma paced_from_cache k f : paced k (from_cache f).
Proof.
  unfold from_cache, revalidate_and_clean_cache, validate_json, loads.
  paced_rules.
Qed.

Lemma paced_from_network k url f : paced (S k) (from_network url f).
Proof.
  unfold from_network, raise_for_status, validate_json, loads.
  paced_rules.
Qed.

(** A load makes one request at most. *)
Lemma paced_fetch_w3u k url : paced (S k) (fetch_w3u url).
Proof.
  unfold fetch_w3u.
  apply paced_then; [apply paced_get_filename |]. intros filename.
  apply paced_then; [apply paced_from_cache |]. intros [data |].
  - apply paced_ret.
  - apply paced_from_network.
Qed.

Lemma paced_enter k url : paced (S k) (enter url).
Proof.
  unfold enter. apply paced_first; [apply paced_fetch_w3u |].
  paced_rules.
Qed.

(** A page makes no request that a typed line has not asked for. *)
Lemma paced_loop fuel : forall k data cache_message,
  paced k (loop fuel data cache_message).
Proof.
  induction fuel as [| fuel IH]; intros k data cache_message.
  - intros w. exact I.
  - cbn [loop]. cbv zeta. unfold back.
    repeat first
      [ apply IH
      | match goal with
        | |- paced _ (bind (bind (enter _) _) _) => apply paced_first
        | |- paced (S _) (bind (enter _) _) =>
            apply paced_first; [apply paced_enter |]
        end
      | paced_step ].
Qed.

End WithLib.
End PaceFacts.

(** ** The dump of a plain Document, sanitized once, stays as it is *)

Module SettleFacts.
Import Sanitizer SanitizerSpec SanitizerFacts Plain PlainFacts.

Lemma clean_json_flat_dump d :
  plain d = true ->
  clean_json (without_line_feeds (Json.dump d))
  = without_line_feeds (Json.dump d).
Proof.
  intros Hp.
  assert (Hno : no_pending (Json.dump d) = true)
    by (apply settled_no_pending, encode_settled; exact Hp).
  rewrite <- (clean_json_plain_dump d Hp).
  unfold clean_json.
  rewrite (no_pending_fixed (Json.dump d) Hno).
  rewrite no_pending_fixed
    by (rewrite no_pending_remove_control; exact Hno).
  apply remove_control_idem.
Qed.

End SettleFacts.

(** ** The lines of a page *)

Module LinesFacts.
Import Py Menu Document Lines.

Lemma number_app start a b :
  number start (a ++ b) = number start a ++ number (start + length a) b.
Proof.
  revert start. induction a as [| r a IH]; intros start; simpl.
  - rewrite Nat.add_0_r. reflexivity.
  - rewrite IH.
    replace (start + S (length a))%nat with (S start + length a)%nat by lia.
    reflexivity.
Qed.

Lemma lined_refl m : lined m m [].
Proof.
  unfold lined. simpl. rewrite !app_nil_r. repeat split. lia.
Qed.

Lemma lined_trans m1 m2 m3 a b :
  lined m1 m2 a -> lined m2 m3 b -> lined m1 m3 (a ++ b).
Proof.
  intros (Hp1 & Hi1 & Ho1) (Hp2 & Hi2 & Ho2). unfold lined.
  rewrite Hp2, Hp1, Hi2, Hi1, Ho2, Ho1.
  rewrite number_app, length_app, map_app, <- !app_assoc.
  repeat split. lia.
Qed.

Lemma add_option_lined indent unnamed entry parent m :
  has_optional_url entry = true ->
  exists m', add_option indent unnamed entry parent m = Ok m'
             /\ lined m m' [(indent, unnamed, entry)].
Proof.
  unfold has_optional_url, add_option.
  destruct entry as [| | | | | items |]; try discriminate.
  simpl. intros Hu.
  unfold lined. cbn [number]. unfold line_of, shown_name, shown_url, field.
  destruct (assoc (py "url") items) as [v |] eqn:Eu; cbn [default].
  - destruct v; try discriminate.
    eexists. split; [reflexivity |].
    split; [reflexivity |].
    split; [simpl; lia | simpl; rewrite map_app; reflexivity].
  - eexists. split; [reflexivity |].
    split; [reflexivity |].
    split; [simpl; lia | simpl; rewrite map_app; reflexivity].
Qed.

Lemma for_each_lined {A} (body : A -> menu -> res menu)
    (f : A -> list row) (l : list A) :
  (forall x, x ∈ l -> forall m, exists m', body x m = Ok m' /\ lined m m' (f x)) ->
  forall m, exists m', for_each body l m = Ok m' /\ lined m m' (flat_map f l).
Proof.
  induction l as [| x rest IH]; intros Hbody m; simpl.
  - exists m. split; [reflexivity | apply lined_refl].
  - destruct (Hbody x ltac:(left) m) as (m1 & E1 & G1).
    rewrite E1. simpl.
    destruct (IH (fun y Hy => Hbody y ltac:(right; exact Hy)) m1)
      as (m2 & E2 & G2).
    exists m2. split; [exact E2 |].
    exact (lined_trans _ _ _ _ _ G1 G2).
Qed.

Lemma stations_lined indent unnamed parent ss m :
  forallb is_station ss = true ->
  exists m',
    for_each (fun s => add_option indent unnamed s parent) ss m = Ok m'
    /\ lined m m' (station_rows indent unnamed ss).
Proof.
  intros Hss. unfold station_rows.
  rewrite <- (MenuFacts.flat_map_singleton (fun e => (indent, unnamed, e))).
  apply for_each_lined. intros s Hs m0.
  apply add_option_lined.
  rewrite forallb_forall in Hss. apply Hss.
  apply list_elem_of_In. exact Hs.
Qed.

Lemma add_nested_group_lined group nested_group m :
  is_nested_group nested_group = true ->
  exists m', add_nested_group group nested_group m = Ok m'
             /\ lined m m' (nested_group_rows nested_group).
Proof.
  unfold is_nested_group, add_nested_group. intros H.
  apply andb_true_iff in H as [Hu Hs].
  destruct (add_option_lined 2 "Unnamed Nested Group" nested_group
              (Some group) m Hu) as (m1 & E1 & G1).
  rewrite E1. simpl.
  destruct (MenuFacts.sequence_children _ _ _ Hu Hs) as (v & Ev & Ei & Hall).
  rewrite Ev. simpl. rewrite Ei. simpl.
  destruct (stations_lined 4 "Unnamed Nested Station" (Some nested_group)
              _ m1 Hall) as (m2 & E2 & G2).
  exists m2. split; [exact E2 |].
  exact (lined_trans _ _ _ _ _ G1 G2).
Qed.

Lemma add_group_lined group m :
  is_group group = true ->
  exists m', add_group group m = Ok m' /\ lined m m' (group_rows group).
Proof.
  unfold is_group, add_group. intros H.
  apply andb_true_iff in H as [H Hg]. apply andb_true_iff in H as [Hu Hs].
  destruct (add_option_lined 0 "Unnamed Group" group None m Hu)
    as (m1 & E1 & G1).
  rewrite E1. simpl.
  destruct (MenuFacts.sequence_children _ _ _ Hu Hs) as (v & Ev & Ei & Hall).
  rewrite Ev. simpl. rewrite Ei. simpl.
  destruct (stations_lined 2 "Unnamed Station" (Some group) _ m1 Hall)
    as (m2 & E2 & G2).
  rewrite E2. simpl.
  destruct (MenuFacts.sequence_children _ _ _ Hu Hg) as (v' & Ev' & Ei' & Hall').
  rewrite Ev'. simpl. rewrite Ei'. simpl.
  destruct (for_each_lined (add_nested_group group)
              nested_group_rows (children "groups" group)) with (m := m2)
    as (m3 & E3 & G3).
  { intros ng Hng m0. apply add_nested_group_lined.
    rewrite forallb_forall in Hall'. apply Hall'.
    apply list_elem_of_In. exact Hng. }
  exists m3. split; [exact E3 |].
  exact (lined_trans _ _ _ _ _ G1 (lined_trans _ _ _ _ _ G2 G3)).
Qed.

End LinesFacts.

(** ** The file name of a URL of the usual shape *)

Module UrlFacts.
Import Url UrlShape.

Lemma none_of_cons chars c s :
  none_of chars (c :: s) = negb (existsb (N.eqb c) chars) && none_of chars s.
Proof. reflexivity. Qed.

Lemma none_of_app chars a b :
  none_of chars (a ++ b) = none_of chars a && none_of chars b.
Proof. unfold none_of. apply forallb_app. Qed.

(** A test that holds of no character listed in [chars] splits a text
    free of them at the first character where it holds. *)
Lemma break_at_app (p : N -> bool) chars a c b :
  (forall x, p x = true -> existsb (N.eqb x) chars = true) ->
  none_of chars a = true ->
  p c = true ->
  break_at p (a ++ c :: b) = (a, c :: b).
Proof.
  intros Hp Ha Hc. induction a as [| x a IH]; simpl.
  - rewrite Hc. reflexivity.
  - rewrite none_of_cons in Ha. apply andb_true_iff in Ha as [Hx Ha].
    destruct (p x) eqn:Epx.
    + rewrite (Hp x Epx) in Hx. discriminate.
    + rewrite (IH Ha). reflexivity.
Qed.

Lemma break_at_none (p : N -> bool) chars a :
  (forall x, p x = true -> existsb (N.eqb x) chars = true) ->
  none_of chars a = true ->
  break_at p a = (a, []).
Proof.
  intros Hp Ha. induction a as [| x a IH]; simpl; [reflexivity |].
  rewrite none_of_cons in Ha. apply andb_true_iff in Ha as [Hx Ha].
  destruct (p x) eqn:Epx.
  - rewrite (Hp x Epx) in Hx. discriminate.
  - rewrite (IH Ha). reflexivity.
Qed.

Lemma none_of_weaken chars chars' s :
  (forall x, existsb (N.eqb x) chars' = true -> existsb (N.eqb x) chars = true) ->
  none_of chars s = true -> none_of chars' s = true.
Proof.
  intros Hsub. unfold none_of. rewrite !forallb_forall.
  intros Hs x Hx. specialize (Hs x Hx).
  destruct (existsb (N.eqb x) chars') eqn:E; [| reflexivity].
  rewrite (Hsub x E) in Hs. exact Hs.
Qed.

Lemma none_of_rev chars s :
  none_of chars s = true -> none_of chars (rev s) = true.
Proof.
  unfold none_of. rewrite !forallb_forall.
  intros Hs x Hx. apply Hs. apply in_rev. exact Hx.
Qed.

Lemma none_of_has c chars s :
  existsb (N.eqb c) chars = true -> none_of chars s = true -> has c s = false.
Proof.
  intros Hc. unfold none_of, has. induction s as [| x s IH]; simpl;
    [reflexivity |].
  intros Hs. apply andb_true_iff in Hs as [Hx Hs]. rewrite (IH Hs).
  destruct (N.eqb_spec c x) as [<- | Hne]; [| reflexivity].
  rewrite Hc in Hx. discriminate.
Qed.

(** The last segment of a path. *)
Lemma posix_basename_segment dirs name :
  none_of [47] name = true ->
  posix_basename (dirs ++ 47 :: name) = name.
Proof.
  intros Hn. unfold posix_basename.
  rewrite rev_app_distr. simpl. rewrite <- app_assoc. simpl.
  rewrite (break_at_app _ [47] (rev name) 47 (rev dirs)).
  - simpl. apply rev_involutive.
  - intros x Hx. simpl. rewrite orb_false_r. exact Hx.
  - apply none_of_rev. exact Hn.
  - reflexivity.
Qed.

(** The path without what follows it. *)
Lemma path_without_suffix p suffix :
  none_of [63; 35] p = true ->
  match suffix with [] => true | c :: _ => (c =? 63) || (c =? 35) end = true ->
  fst (break_at (fun c => c =? 63)
         (fst (break_at (fun c => c =? 35) (p ++ suffix)))) = p.
Proof.
  intros Hp Hs.
  assert (H35 : forall x, (x =? 35) = true -> existsb (N.eqb x) [35] = true)
    by (intros x Hx; simpl; rewrite Hx; reflexivity).
  assert (H63 : forall x, (x =? 63) = true -> existsb (N.eqb x) [63] = true)
    by (intros x Hx; simpl; rewrite Hx; reflexivity).
  assert (Hp35 : none_of [35] p = true).
  { apply (none_of_weaken [63; 35]); [| exact Hp].
    intros x Hx. simpl in *. rewrite orb_false_r in Hx. rewrite Hx.
    apply orb_true_r. }
  assert (Hp63 : none_of [63] p = true).
  { apply (none_of_weaken [63; 35]); [| exact Hp].
    intros x Hx. simpl in *. rewrite orb_false_r in Hx. rewrite Hx.
    reflexivity. }
  destruct suffix as [| c s].
  - rewrite app_nil_r.
    rewrite (break_at_none _ [35] p H35 Hp35). simpl.
    rewrite (break_at_none _ [63] p H63 Hp63). reflexivity.
  - apply orb_true_iff in Hs as [Hc | Hc].
    + apply N.eqb_eq in Hc. subst c.
      destruct (break_at (fun c => c =? 35) s) as [s1 s2] eqn:Es.
      assert (E : fst (break_at (fun c => c =? 35) (p ++ 63 :: s))
                  = p ++ 63 :: s1).
      { clear Hp Hp63. induction p as [| x p IH]; simpl.
        - rewrite Es. reflexivity.
        - rewrite none_of_cons in Hp35.
          apply andb_true_iff in Hp35 as [Hx Hp35].
          simpl in Hx. rewrite orb_false_r in Hx.
          apply negb_true_iff in Hx. rewrite Hx.
          specialize (IH Hp35).
          destruct (break_at (fun c => c =? 35) (p ++ 63 :: s)).
          simpl in *. rewrite IH. reflexivity. }
      rewrite E.
      rewrite (break_at_app _ [63] p 63 s1 H63 Hp63 eq_refl). reflexivity.
    + apply N.eqb_eq in Hc. subst c.
      rewrite (break_at_app _ [35] p 35 s H35 Hp35 eq_refl). simpl.
      rewrite (break_at_none _ [63] p H63 Hp63). reflexivity.
Qed.

(** What [urlsplit] removes first leaves a visible text as it is. *)
Lemma without_unsafe_visible s : visible s = true -> without_unsafe s = s.
Proof.
  unfold visible, without_unsafe. induction s as [| c s IH]; [reflexivity |].
  simpl. intros H. apply andb_true_iff in H as [Hc Hs].
  apply N.ltb_lt in Hc.
  replace (is_unsafe c) with false.
  - simpl. rewrite (IH Hs). reflexivity.
  - symmetry. unfold is_unsafe.
    repeat match goal with
      | |- context [?a =? ?b] =>
          let E := fresh in destruct (N.eqb_spec a b) as [E | E]; [lia |]
      end. reflexivity.
Qed.

Lemma without_unsafe_app a b :
  without_unsafe (a ++ b) = without_unsafe a ++ without_unsafe b.
Proof. unfold without_unsafe. apply List.filter_app. Qed.

Lemma without_unsafe_head suffix :
  match suffix with [] => true | c :: _ => (c =? 63) || (c =? 35) end = true ->
  match without_unsafe suffix with
  | [] => true
  | c :: _ => (c =? 63) || (c =? 35)
  end = true.
Proof.
  destruct suffix as [| c s]; [reflexivity |]. intros Hc.
  unfold without_unsafe. simpl.
  replace (is_unsafe c) with false; [exact Hc |].
  symmetry. unfold is_unsafe.
  apply orb_true_iff in Hc as [Hc | Hc]; apply N.eqb_eq in Hc; subst c;
    reflexivity.
Qed.

Lemma cleaned_https host dirs name suffix :
  visible host = true -> visible dirs = true -> visible name = true ->
  without_unsafe (lstrip_c0 (https_url host dirs name suffix))
  = https_url host dirs name (without_unsafe suffix).
Proof.
  intros Hh Hd Hn. unfold https_url.
  change (lstrip_c0 (py "https://" ++ host ++ dirs ++ 47 :: name ++ suffix))
    with (py "https://" ++ host ++ dirs ++ 47 :: name ++ suffix).
  rewrite (without_unsafe_app (py "https://")).
  rewrite (without_unsafe_app host), (without_unsafe_app dirs).
  change (47 :: name ++ suffix) with ([47] ++ name ++ suffix).
  rewrite (without_unsafe_app [47]), (without_unsafe_app name).
  rewrite (without_unsafe_visible _ Hh), (without_unsafe_visible _ Hd),
    (without_unsafe_visible _ Hn).
  reflexivity.
Qed.

(** [urlparse] and [basename] on a URL of the usual shape. *)
Lemma basename_https host dirs name suffix :
  well_formed host dirs name suffix = true ->
  basename (https_url host dirs name suffix) = Some name.
Proof.
  unfold well_formed. intros H.
  repeat (apply andb_true_iff in H as [H ?]).
  rename H into Hhost.
  match goal with Hx : none_of [63; 35; 59] dirs = true |- _ => rename Hx into Hdirs end.
  match goal with Hx : none_of [47; 63; 35; 59] name = true |- _ => rename Hx into Hname end.
  match goal with Hx : match dirs with [] => _ | _ => _ end = true |- _ => rename Hx into Hslash end.
  match goal with Hx : match suffix with [] => _ | _ => _ end = true |- _ => rename Hx into Hsuffix end.
  match goal with Hx : visible name = true |- _ => rename Hx into Hvn end.
  match goal with Hx : visible dirs = true |- _ => rename Hx into Hvd end.
  match goal with Hx : visible host = true |- _ => rename Hx into Hvh end.
  unfold basename, path. rewrite (cleaned_https _ _ _ _ Hvh Hvd Hvn).
  pose proof (without_unsafe_head suffix Hsuffix) as Hsuffix'.
  clear Hsuffix. revert Hsuffix'. generalize (without_unsafe suffix).
  clear suffix. intros suffix Hsuffix.
  unfold split_path, https_url.
  change (split_scheme (py "https://" ++ host ++ dirs ++ 47 :: name ++ suffix))
    with (py "https", py "//" ++ host ++ dirs ++ 47 :: name ++ suffix).
  cbv beta iota zeta.
  change (Str.startswith (py "//")
            (py "//" ++ host ++ dirs ++ 47 :: name ++ suffix)) with true.
  cbv iota.
  change (drop 2 (py "//" ++ host ++ dirs ++ 47 :: name ++ suffix))
    with (host ++ dirs ++ 47 :: name ++ suffix).
  assert (Hsplit :
    break_at (fun c => (c =? 47) || (c =? 63) || (c =? 35))
      (host ++ dirs ++ 47 :: name ++ suffix)
    = (host, dirs ++ 47 :: name ++ suffix)).
  { assert (Hp : forall x, (x =? 47) || (x =? 63) || (x =? 35) = true ->
                           existsb (N.eqb x) [47; 63; 35; 91; 93] = true).
    { intros x Hx. simpl.
      destruct (x =? 47); [reflexivity |].
      destruct (x =? 63); [reflexivity |].
      destruct (x =? 35); [reflexivity | discriminate]. }
    destruct dirs as [| c dirs'].
    - exact (break_at_app _ _ host 47 (name ++ suffix) Hp Hhost eq_refl).
    - apply N.eqb_eq in Hslash. subst c.
      exact (break_at_app _ _ host 47 (dirs' ++ 47 :: name ++ suffix)
               Hp Hhost eq_refl). }
  rewrite Hsplit. cbv beta iota.
  rewrite (none_of_has 91 [47; 63; 35; 91; 93] host eq_refl Hhost).
  rewrite (none_of_has 93 [47; 63; 35; 91; 93] host eq_refl Hhost).
  cbv beta iota.
  replace (dirs ++ 47 :: name ++ suffix)
    with ((dirs ++ 47 :: name) ++ suffix)
    by (rewrite <- app_assoc; reflexivity).
  assert (Hpath : none_of [63; 35; 59] (dirs ++ 47 :: name) = true).
  { rewrite none_of_app, Hdirs. rewrite none_of_cons.
    apply andb_true_iff. split; [reflexivity |].
    apply (none_of_weaken [47; 63; 35; 59]); [| exact Hname].
    intros x Hx. simpl in *. rewrite Hx. apply orb_true_r. }
  rewrite path_without_suffix;
    [| apply (none_of_weaken [63; 35; 59]); [| exact Hpath];
       intros x Hx; simpl in *;
       destruct (x =? 63); [reflexivity |];
       destruct (x =? 35); [reflexivity | discriminate]
     | exact Hsuffix].
  rewrite (none_of_has 59 [63; 35; 59] _ eq_refl Hpath), andb_false_r.
  simpl fmap. f_equal.
  apply posix_basename_segment.
  apply (none_of_weaken [47; 63; 35; 59]); [| exact Hname].
  intros x Hx. simpl in *. rewrite orb_false_r in Hx. rewrite Hx. reflexivity.
Qed.

End UrlFacts.

(** * The claims of the specification *)

Section SanitizerClaims.
Import Sanitizer SanitizerSpec SanitizerFacts.

(** C1, as stated, fails: on the text [,,}] the scan replaces the match
    [,}] that starts at the second comma, so one application gives [,}]
    and a second one gives [}]. *)
Lemma clean_json_twice_differs :
  clean_json (py ",,}") = py ",}" /\
  clean_json (clean_json (py ",,}")) = py "}" /\
  clean_json (clean_json (py ",,}")) <> clean_json (py ",,}").
Proof. split; [| split]; [reflexivity | reflexivity | discriminate]. Qed.

(** C1 (amended): [clean_json (clean_json x) = clean_json x] for every
    text [x] in which each comma that is followed, across whitespace,
    control characters and further commas only, by a closing brace or
    bracket is separated from that closer by whitespace alone. *)
Theorem clean_json_idempotent_single (x : str) :
  single_trailing_commas x = true ->
  clean_json (clean_json x) = clean_json x.
Proof.
  intros H. unfold clean_json.
  rewrite no_pending_fixed.
  - apply remove_control_idem.
  - rewrite no_pending_remove_control. apply single_no_pending. exact H.
Qed.

Lemma clean_json_idempotent_single_witness :
  single_trailing_commas (pyj "{'a': [1, 2, ], }") = true /\
  clean_json (clean_json (pyj "{'a': [1, 2, ], }"))
  = clean_json (pyj "{'a': [1, 2, ], }").
Proof.
  split; [reflexivity |].
  apply (clean_json_idempotent_single (pyj "{'a': [1, 2, ], }")).
  reflexivity.
Defined.

(** The condition of the amended C1 is the exact one: on every other
    text a second application changes the result again. *)
Lemma clean_json_idempotent_only_single (x : str) :
  clean_json (clean_json x) = clean_json x ->
  single_trailing_commas x = true.
Proof.
  intros H. apply no_pending_single.
  rewrite <- no_pending_remove_control.
  fold (clean_json x).
  destruct (no_pending (clean_json x)) eqn:E; [reflexivity | exfalso].
  pose proof (pending_shrinks _ (remove_control_clean _) E) as Hlt.
  fold (clean_json x) in Hlt.
  pose proof (remove_control_length (remove_trailing_commas (clean_json x))) as Hle.
  fold (clean_json (clean_json x)) in Hle.
  rewrite H in Hle. lia.
Qed.

End SanitizerClaims.

Section ClassifierClaims.
Import Str Py Classifier Navigator ClassifierFacts TargetFacts.

(** C6: the alias rewrite is idempotent; it turns
    [https://pastebin.com/abc123] into [https://pastebin.com/raw/abc123]
    and leaves alone any URL in which the marker [raw] is present; and
    the classification gives every URL exactly one of sub-document,
    media and web-page, sub-document being tried first, media second.
    The Navigator dispatches every non-empty selected URL on the rewrite
    and its class. *)
Theorem classifier_rewrite_idempotent_and_total :
  (forall u, alias_rewrite (alias_rewrite u) = alias_rewrite u)
  /\ alias_rewrite (py "https://pastebin.com/abc123")
     = py "https://pastebin.com/raw/abc123"
  /\ alias_rewrite (py "https://pastebin.com/raw/abc123")
     = py "https://pastebin.com/raw/abc123"
  /\ (forall u, contains (py "raw") u = true -> alias_rewrite u = u)
  /\ (forall u,
        (is_sub_document u = true /\ classify u = SubDocument)
        \/ (is_sub_document u = false /\ is_media u = true
            /\ classify u = Media)
        \/ (is_sub_document u = false /\ is_media u = false
            /\ classify u = WebPage))
  /\ (forall u,
        target (JStr u) =
        Ok (if bool_decide (u = []) then None
            else Some (alias_rewrite u, classify (alias_rewrite u)))).
Proof.
  split; [exact alias_rewrite_idem |].
  split; [reflexivity |].
  split; [reflexivity |].
  split; [exact alias_rewrite_raw |].
  split; [| exact target_str].
  intros u. unfold classify.
  destruct (is_sub_document u); [left; split; reflexivity |].
  destruct (is_media u); right; [left | right]; repeat split.
Qed.

End ClassifierClaims.

Section MenuClaims.
Import Py Menu Document MenuFacts Examples.

(** C4: for every Document, one rendering produces exactly the options
    of the two-level rule, in its order: each top-level group, its
    direct stations, then each directly nested group followed by that
    group's direct stations, or the top-level stations when there is no
    group; the counter ends at their number and the printed lines carry
    the indices 0, 1, ..., n-1.  The Document of the example reads as
    [root] and yields two options: index 0 the group News, index 1 its
    station CNN. *)
Theorem render_one_option_per_entry :
  (forall data,
     is_document data = true ->
     exists m, render data = Ok m
               /\ options m = spec_options data
               /\ option_index m = length (options m)
               /\ printed_indices (printed m) = seq 0 (length (options m)))
  /\ Json.loads root_text = Some root
  /\ render root
     = Ok {| option_index := 2;
             options := [(news, None); (cnn, Some news)];
             printed := [LName (JStr (py "Root"));
                         LOption 0 0 (JStr (py "News")) (py "No URL");
                         LOption 2 1 (JStr (py "CNN")) (py "x/cnn.m3u")] |}.
Proof.
  split; [exact render_document |].
  split; [vm_compute; reflexivity | reflexivity].
Qed.

Lemma render_one_option_per_entry_witness :
  is_document root = true
  /\ exists m, render root = Ok m
               /\ options m = [(news, None); (cnn, Some news)]
               /\ option_index m = 2%nat
               /\ printed_indices (printed m) = [0; 1]%nat.
Proof.
  split; [reflexivity |].
  destruct (proj1 render_one_option_per_entry root eq_refl)
    as (m & E & Ho & Hi & Hp).
  exists m. rewrite Hi, Hp, Ho. repeat split. exact E.
Defined.

(** C10: where the groups of a Document are non-empty, the rendering is
    that of any Document with the same name and groups, whatever its
    top-level stations are, and the options are those drawn from the
    groups alone. *)
Theorem top_level_stations_not_listed (items items' : list (str * json)) :
  is_document (JObj items) = true ->
  children "groups" (JObj items) <> [] ->
  assoc (py "name") items' = assoc (py "name") items ->
  assoc (py "groups") items' = assoc (py "groups") items ->
  render (JObj items') = render (JObj items)
  /\ exists m, render (JObj items) = Ok m
               /\ options m
                  = flat_map group_options (children "groups" (JObj items)).
Proof.
  intros Hdoc Hgroups Hname Hg. split.
  - apply render_ignores_stations; [exact Hname | exact Hg |].
    rewrite Hg. unfold children, field in Hgroups.
    destruct (assoc (py "groups") items) as [v |]; [| congruence].
    destruct v as [| | | | l | |]; try congruence.
    destruct l; [congruence | reflexivity].
  - destruct (render_document _ Hdoc) as (m & E & Ho & _).
    exists m. split; [exact E |].
    rewrite Ho. unfold spec_options.
    destruct (children "groups" (JObj items)); [congruence | reflexivity].
Qed.

Lemma top_level_stations_not_listed_witness :
  render root_with_stations
  = Ok {| option_index := 2;
          options := [(news, None); (cnn, Some news)];
          printed := [LName (JStr (py "Root"));
                      LOption 0 0 (JStr (py "News")) (py "No URL");
                      LOption 2 1 (JStr (py "CNN")) (py "x/cnn.m3u")] |}.
Proof.
  refine (eq_trans
    (proj1 (top_level_stations_not_listed
              [(py "name", JStr (py "Root")); (py "groups", JArr [news])]
              [(py "name", JStr (py "Root")); (py "groups", JArr [news]);
               (py "stations", JArr [bbc; cnn])]
              _ _ _ _)) _); try reflexivity.
  discriminate.
Defined.

End MenuClaims.

Section NavigatorClaims.
Import Py Classifier Menu Effects Loader Navigator Screen.
Import RunFacts Frame FrameFacts LoaderFacts TargetFacts NavigatorFacts.
Context `{PyLib}.




End NavigatorClaims.

Section LoaderClaims.
Import Py Classifier Menu Effects Loader Navigator Screen.
Import RunFacts Frame FrameFacts LoaderFacts TargetFacts NavigatorFacts.
Context `{PyLib}.

(** C7 (amended): when the request is answered by a text that begins
    with [#EXTM3U], the load returns [None], the value that a failed
    load returns, and no outcome that carries the URL; the user is asked
    whether to open the URL in the media player, which is launched on
    that URL when the answer is [y]; no file is written, and what
    [json.loads] would say of that text plays no part. *)
Theorem m3u_offered_and_not_cached url f w r c rest :
  cache_name url = Some f ->
  cache_misses f w ->
  network w (requests w) url = Some r ->
  Str.startswith (py "#EXTM3U") (resp_text r) = true ->
  stdin w = c :: rest ->
  exists w' checked,
    fetch_w3u url w = Done JNull w'
    /\ files w' = delete f (files w)
    /\ nothing_written w w'
    /\ (files w !! f = None -> files w' = files w)
    /\ history w' = history w
    /\ stdin w' = rest
    /\ (checked = [] \/ checked = [Print LValidationError; Print (LCacheError f)])
    /\ trace w'
       = trace w ++ checked ++ [HttpGet url; Asked (PConfirmM3u url)]
         ++ match c with
            | TYes => [Print (LOpeningVlc url); Sleep; Vlc url]
            | _ => []
            end.
Proof.
  intros Hn Hm Hnet Hmark Hin.
  destruct (cache_misses_run _ _ Hm)
    as (w0 & Hc & Hf0 & Hh0 & Hi0 & Hr0 & Hn0 & checked & Ht0 & Hck).
  rewrite (fetch_w3u_run _ _ _ _ Hn Hc).
  rewrite (from_network_m3u url f w0 r c rest);
    [| rewrite Hn0, Hr0; exact Hnet
     | apply strip_keeps_marker; exact Hmark
     | rewrite Hi0; exact Hin].
  eexists. exists checked. split; [reflexivity |].
  split; [exact Hf0 |].
  split; [apply (delete_nothing_written f); exact Hf0 |].
  split; [intros Ef; simpl; rewrite Hf0; apply delete_id; exact Ef |].
  split; [exact Hh0 |].
  split; [reflexivity |].
  split; [exact Hck |].
  simpl. rewrite Ht0, <- !app_assoc. reflexivity.
Qed.

(** C8 (amended): a load whose request fails, by a transport error, a
    bad status or a body still invalid once sanitized, returns no
    Document and writes no file: the slot of the URL is left as the
    cache check left it, unchanged when it was absent and deleted when
    it held a text that failed re-validation; and a Navigator whose load
    for a selected sub-document entry returns no Document turns again on
    its current page with the history unchanged. *)
Theorem failed_load_commits_nothing :
  (forall url f w l rest,
     cache_name url = Some f ->
     cache_misses f w ->
     fetch_fails url w ->
     stdin w = l :: rest ->
     exists w',
       fetch_w3u url w = Done JNull w'
       /\ files w' = delete f (files w)
       /\ nothing_written w w'
       /\ (files w !! f = None -> files w' = files w)
       /\ history w' = history w
       /\ stdin w' = rest)
  /\ (forall fuel data cache_message w m n rest selected parent u f d w',
        render data = Ok m ->
        stdin w = TDigits n :: rest ->
        (n < option_index m)%nat ->
        options m !! n = Some (selected, parent) ->
        get selected (py "url") JNull = Ok (JStr u) ->
        u <> [] ->
        classify (alias_rewrite u) = SubDocument ->
        cache_name (alias_rewrite u) = Some f ->
        fetch_w3u (alias_rewrite u) (at_choice cache_message m rest w)
        = Done d w' ->
        truthy d = false ->
        loop (S fuel) data cache_message w = loop fuel data None w'
        /\ history w' = history w).
Proof.
  split.
  - intros url f w l rest Hn Hm Hfail Hin.
    destruct (cache_misses_run _ _ Hm)
      as (w0 & Hc & Hf0 & Hh0 & Hi0 & Hr0 & Hn0 & _).
    rewrite (fetch_w3u_run _ _ _ _ Hn Hc).
    destruct (from_network_fails url f w0 l rest)
      as (w' & E & Hf & Hh & Hi & _).
    { unfold fetch_fails. rewrite Hn0, Hr0. exact Hfail. }
    { rewrite Hi0. exact Hin. }
    exists w'. split; [exact E |].
    split; [rewrite Hf; exact Hf0 |].
    split; [apply (delete_nothing_written f); rewrite Hf; exact Hf0 |].
    split; [intros Ef; rewrite Hf, Hf0; apply delete_id; exact Ef |].
    split; [rewrite Hh; exact Hh0 | exact Hi].
  - intros fuel data cache_message w m n rest selected parent u f d w'
      Hr Hin Hlt Hopt Hurl Hu Hclass Hn Hfetch Hd.
    split.
    + rewrite (loop_turn _ _ _ _ _ _ _ Hr Hin).
      apply Nat.ltb_lt in Hlt. rewrite Hlt, Hopt, Hurl.
      rewrite bind_run, lift_ok. cbv beta iota.
      rewrite target_str, bool_decide_eq_false_2 by exact Hu.
      rewrite bind_run, lift_ok. cbv beta iota. rewrite Hclass.
      rewrite bind_run, (get_filename_run _ _ _ Hn). cbv beta iota.
      rewrite bind_run. unfold navigate_w3u, enter.
      rewrite !bind_run, Hfetch. cbv beta iota. rewrite Hd.
      reflexivity.
    + rewrite (fetch_w3u_done_history _ _ _ _ Hfetch). reflexivity.
Qed.

(** In support of C5, for every Document: after a load that returned a
    Document the slot of the URL holds a text, the dump of the Document
    or a sanitized text that reads as it; while the slot holds that
    text, a later load of the URL is answered from the slot alone, with
    no request and whatever the network, and returns what the sanitized
    text of the slot reads as. *)
Lemma cache_reload_reads_sanitized_slot url w d w1 :
  fetch_w3u url w = Done d w1 ->
  truthy d = true ->
  exists f text,
    cache_name url = Some f
    /\ files w1 !! f = Some text
    /\ (text = json_dump d \/ json_loads text = Some d)
    /\ forall w2 d',
         files w2 !! f = Some text ->
         json_loads (Sanitizer.clean_json text) = Some d' ->
         fetch_w3u url w2
         = Done d' (set_files (<[f := Sanitizer.clean_json text]> (files w2)) w2).
Proof.
  intros Hf Ht.
  destruct (fetch_w3u_done_slot _ _ _ _ Hf Ht) as (f & text & Hn & Hs & Hd).
  exists f, text. repeat split; try assumption.
  intros w2 d' Hs2 Hj. apply fetch_w3u_cached; assumption.
Qed.

(** Sanitizing a text with single trailing commas twice is sanitizing
    it once. *)
Lemma clean_json_settles c :
  SanitizerSpec.single_trailing_commas c = true ->
  Sanitizer.clean_json (Sanitizer.clean_json c) = Sanitizer.clean_json c.
Proof.
  intros Hs. unfold Sanitizer.clean_json.
  rewrite SanitizerFacts.no_pending_fixed;
    [apply SanitizerFacts.remove_control_idem |].
  rewrite SanitizerFacts.no_pending_remove_control.
  apply SanitizerFacts.single_no_pending. exact Hs.
Qed.

(** The dump of a plain Document is a text with single trailing commas:
    a cache file that the program wrote for a plain Document meets the
    condition that C5 puts on a cache file. *)
Lemma plain_dump_single_commas d :
  Plain.plain d = true ->
  SanitizerSpec.single_trailing_commas (Json.dump d) = true.
Proof.
  intros Hp.
  assert (Hno : SanitizerSpec.no_pending (Json.dump d) = true)
    by (apply PlainFacts.settled_no_pending, PlainFacts.encode_settled;
        exact Hp).
  apply SanitizerFacts.no_pending_single.
  rewrite (SanitizerFacts.no_pending_fixed _ Hno). exact Hno.
Qed.

(** C5 (amended): after a load that returned a Document, a later load of
    the URL, while the cache file holds what the first load left in it,
    is answered from the cache file alone, with no request and whatever
    the network, and returns the same Document, in two cases.  When the
    network answered the first load: if the Document is plain, that is,
    in its strings, as the encoder writes them, there is no character
    0x7F and no comma followed by optional whitespace and a closing
    brace or bracket, and its floats are written as numbers, and if its
    dump is a text that UTF-8 writes; the library is then taken to write
    the Document as [Json.dump] does and to read that text, without its
    line feeds, as the Document.  When the cache
    answered the first load: if in the text of the cache file no run of
    two or more commas stands before a closing brace or bracket, as in
    every dump of a plain Document. *)
Theorem cache_roundtrip_plain url f w d w1 :
  cache_name url = Some f ->
  fetch_w3u url w = Done d w1 ->
  truthy d = true ->
  (cache_misses f w
   /\ Plain.plain d = true
   /\ Utf8.utf8_encodable (Json.dump d) = true
   /\ json_dump d = Json.dump d
   /\ json_loads (Plain.without_line_feeds (Json.dump d)) = Some d)
  \/ (exists c,
        files w !! f = Some c
        /\ json_loads (Sanitizer.clean_json c) = Some d
        /\ SanitizerSpec.single_trailing_commas c = true) ->
  exists text,
    files w1 !! f = Some text
    /\ (cache_misses f w -> text = json_dump d)
    /\ (forall c, files w !! f = Some c ->
                  json_loads (Sanitizer.clean_json c) = Some d ->
                  text = Sanitizer.clean_json c)
    /\ json_loads (Sanitizer.clean_json text) = Some d
    /\ forall w2,
         files w2 !! f = Some text ->
         fetch_w3u url w2
         = Done d (set_files (<[f := Sanitizer.clean_json text]> (files w2))
                     w2).
Proof.
  intros Hn Hf Ht [(Hm & Hp & _ & Hd & Hj) | (c & Hc & Hl & Hs)].
  - destruct (fetch_w3u_network_slot _ _ _ _ _ Hn Hm Hf Ht) as [Hslot _].
    assert (Hread : json_loads (Sanitizer.clean_json (json_dump d)) = Some d).
    { rewrite Hd, (PlainFacts.clean_json_plain_dump d Hp). exact Hj. }
    exists (json_dump d). split; [exact Hslot |].
    split; [reflexivity |].
    split.
    { intros c Hc Hl. destruct Hm as [Hm | (c' & Hc' & Hl')]; congruence. }
    split; [exact Hread |].
    intros w2 Hs2. apply fetch_w3u_cached; assumption.
  - rewrite (fetch_w3u_cached _ _ _ _ _ Hn Hc Hl) in Hf.
    injection Hf as <-.
    assert (Hread : json_loads
                      (Sanitizer.clean_json (Sanitizer.clean_json c))
                    = Some d)
      by (rewrite (clean_json_settles c Hs); exact Hl).
    exists (Sanitizer.clean_json c).
    split; [cbn; apply lookup_insert_eq |].
    split.
    { intros [Hm | (c' & Hc' & Hl')]; congruence. }
    split.
    { intros c' Hc' _. congruence. }
    split; [exact Hread |].
    intros w2 Hs2. apply fetch_w3u_cached; assumption.
Qed.

End LoaderClaims.

(** ** The claims on concrete sessions, with the library as read in
    [reference_lib] *)

Section ReferenceRuns.
Import Py Classifier Menu Effects Loader Navigator Screen.
Import RunFacts Frame FrameFacts LoaderFacts TargetFacts NavigatorFacts.
Import Examples.

Local Abbreviation R := reference_lib.

(** C5, as stated, fails: the body [{"name":"a,,}"}] is sanitized to
    [{"name":"a,}"}], read as the Document with name [a,}] and dumped
    with that name; the next load sanitizes the dump, which takes the
    comma out of the name. *)
Lemma cache_reload_differs :
  exists d1 w1 d2 w2,
    @fetch_w3u R list_url
      (session ∅ [] [] (serving (pyj "{'name':'a,,}'}"))) = Done d1 w1
    /\ truthy d1 = true
    /\ @fetch_w3u R list_url (unplugged w1) = Done d2 w2
    /\ trace w2 = trace w1
    /\ d1 = JObj [(py "name", JStr (py "a,}"))]
    /\ d2 = JObj [(py "name", JStr (py "a}"))]
    /\ d2 <> d1.
Proof.
  do 4 eexists.
  split; [vm_compute; reflexivity |].
  split; [reflexivity |].
  split; [vm_compute; reflexivity |].
  split; [reflexivity |].
  split; [reflexivity |].
  split; [reflexivity | discriminate].
Qed.

(** With the library as read in [reference_lib] the two assumptions of
    C5 on the library hold of every Document the reader returns. *)
Lemma reference_cache_roundtrip url f w d w1 :
  @cache_name R url = Some f ->
  @cache_misses R f w ->
  @fetch_w3u R url w = Done d w1 ->
  truthy d = true ->
  Plain.plain d = true ->
  files w1 !! f = Some (Json.dump d)
  /\ forall w2,
       files w2 !! f = Some (Json.dump d) ->
       @fetch_w3u R url w2
       = Done d (set_files
                   (<[f := Plain.without_line_feeds (Json.dump d)]> (files w2))
                   w2).
Proof.
  intros Hn Hm Hf Ht Hp.
  destruct (fetch_w3u_network_slot (H := R) _ _ _ _ _ Hn Hm Hf Ht)
    as (Hs & text & Hl).
  split; [exact Hs |].
  intros w2 Hs2.
  apply (CacheFacts.plain_dump_reloads (H := R)); try assumption.
  apply ReaderFacts.loads_flat_dump.
  exact (ReaderFacts.loads_distinct _ _ Hl).
Qed.

(** The condition of C5 on a cache file is needed: a cache file with
    the text [{"name":"a,,}"}] is read, sanitized, as the Document with
    name [a,}], and after that load as the Document with name [a}]. *)
Lemma cached_reload_differs :
  exists d1 w1 d2 w2,
    @fetch_w3u R list_url
      (session {[ py "list.w3u" := pyj "{'name':'a,,}'}" ]} [] [] offline)
    = Done d1 w1
    /\ truthy d1 = true
    /\ @fetch_w3u R list_url w1 = Done d2 w2
    /\ trace w2 = []
    /\ d1 = JObj [(py "name", JStr (py "a,}"))]
    /\ d2 = JObj [(py "name", JStr (py "a}"))]
    /\ SanitizerSpec.single_trailing_commas (pyj "{'name':'a,,}'}") = false.
Proof.
  do 4 eexists.
  split; [vm_compute; reflexivity |].
  split; [reflexivity |].
  split; [vm_compute; reflexivity |].
  repeat split.
Qed.

(** A Document with a float in it is plain, and its dump is the text
    that [json.dump] writes. *)
Lemma float_document_is_plain :
  Plain.plain (JObj [(py "name", JStr (py "Root"));
                     (py "ratio", JFloat (py "1.5"));
                     (py "limit", JFloat (py "inf"))]) = true
  /\ Plain.without_line_feeds
       (Json.dump (JObj [(py "name", JStr (py "Root"));
                         (py "ratio", JFloat (py "1.5"));
                         (py "limit", JFloat (py "inf"))]))
     = pyj "{    'name': 'Root',    'ratio': 1.5,    'limit': Infinity}".
Proof. split; vm_compute; reflexivity. Qed.

Lemma cache_roundtrip_plain_witness :
  (exists w1 w2,
     @fetch_w3u R list_url (session ∅ [] [] (serving root_text)) = Done root w1
     /\ @fetch_w3u R list_url (unplugged w1) = Done root w2)
  /\ (exists w1 w2,
        @fetch_w3u R list_url
          (session {[ py "list.w3u" := root_text ]} [] [] offline)
        = Done root w1
        /\ @fetch_w3u R list_url w1 = Done root w2).
Proof.
  split.
  - eexists.
    assert (E : @fetch_w3u R list_url (session ∅ [] [] (serving root_text))
                = Done root ?[w1]) by (vm_compute; reflexivity).
    match type of E with _ = Done _ ?w1 =>
      destruct (cache_roundtrip_plain (H := R) list_url (py "list.w3u")
                  (session ∅ [] [] (serving root_text)) root w1)
        as (text & Hs & Htext & _ & _ & Hreload)
    end.
    + vm_compute. reflexivity.
    + exact E.
    + reflexivity.
    + left. split; [left; reflexivity |].
      split; [reflexivity |]. split; [vm_compute; reflexivity |].
      split; [reflexivity |].
      vm_compute. reflexivity.
    + eexists. split; [exact E |].
      apply Hreload. exact Hs.
  - eexists.
    assert (E : @fetch_w3u R list_url
                  (session {[ py "list.w3u" := root_text ]} [] [] offline)
                = Done root ?[w1]) by (vm_compute; reflexivity).
    match type of E with _ = Done _ ?w1 =>
      destruct (cache_roundtrip_plain (H := R) list_url (py "list.w3u")
                  (session {[ py "list.w3u" := root_text ]} [] [] offline)
                  root w1)
        as (text & Hs & _ & _ & _ & Hreload)
    end.
    + vm_compute. reflexivity.
    + exact E.
    + reflexivity.
    + right. exists root_text.
      split; [vm_compute; reflexivity |].
      split; vm_compute; reflexivity.
    + eexists. split; [exact E |].
      apply Hreload. exact Hs.
Defined.




(** C7, as stated, fails for the value returned: the load of a media
    playlist returns [None], which carries no URL and is the value that
    a failed load returns; the caller cannot tell the two apart. *)
Lemma m3u_load_returns_what_a_failed_load_returns :
  exists w1 w2,
    @fetch_w3u R (py "https://h/live.w3u")
      (session ∅ [] [TYes] (serving (py "#EXTM3U"))) = Done JNull w1
    /\ @fetch_fails R (py "https://h/live.w3u") (session ∅ [] [TYes] offline)
    /\ @fetch_w3u R (py "https://h/live.w3u")
         (session ∅ [] [TYes] offline) = Done JNull w2.
Proof.
  do 2 eexists.
  split; [vm_compute; reflexivity |].
  split; [exact I | vm_compute; reflexivity].
Qed.

Lemma m3u_offered_and_not_cached_witness :
  exists w',
    @fetch_w3u R (py "https://h/live.w3u")
      (session ∅ [] [TYes] (serving (py "#EXTM3U")))
    = Done JNull w'
    /\ files w' = ∅
    /\ trace w'
       = [HttpGet (py "https://h/live.w3u");
          Asked (PConfirmM3u (py "https://h/live.w3u"));
          Print (LOpeningVlc (py "https://h/live.w3u")); Sleep;
          Vlc (py "https://h/live.w3u")].
Proof.
  destruct (m3u_offered_and_not_cached (H := R) (py "https://h/live.w3u")
              (py "live.w3u")
              (session ∅ [] [TYes] (serving (py "#EXTM3U")))
              (body (py "#EXTM3U")) TYes [])
    as (w' & checked & E & _ & _ & Hf & _ & _ & Hck & Ht).
  - vm_compute. reflexivity.
  - left. reflexivity.
  - reflexivity.
  - reflexivity.
  - reflexivity.
  - exists w'. split; [exact E |]. split; [apply Hf; reflexivity |].
    clear Ht Hck Hf. vm_compute in E. injection E as <-. reflexivity.
Defined.


(** C8, as stated, fails for the slot: a slot whose text is invalid is
    deleted by the cache check before the request is made, so after a
    failed request the slot is not what it was. *)
Lemma failed_load_deletes_invalid_slot :
  exists w',
    @fetch_fails R list_url
      (session {[ py "list.w3u" := py "{" ]} [] [TOther] offline)
    /\ @fetch_w3u R list_url
         (session {[ py "list.w3u" := py "{" ]} [] [TOther] offline)
       = Done JNull w'
    /\ files (session {[ py "list.w3u" := py "{" ]} [] [TOther] offline)
         !! py "list.w3u" = Some (py "{")
    /\ files w' !! py "list.w3u" = None.
Proof.
  eexists.
  split; [exact I |].
  split; [vm_compute; reflexivity |].
  split; [vm_compute; reflexivity | vm_compute; reflexivity].
Qed.

Lemma failed_load_commits_nothing_witness :
  (exists w',
     @fetch_w3u R list_url (session ∅ [] [TOther] offline) = Done JNull w'
     /\ files w' = ∅)
  /\ (exists w',
        @loop R 1 portal None
          (session ∅ [Navigator.default_url] [TDigits 0; TOther] offline)
        = @loop R 0 portal None w'
        /\ history w' = [Navigator.default_url]).
Proof.
  split.
  - destruct (proj1 (failed_load_commits_nothing (H := R)) list_url
                (py "list.w3u") (session ∅ [] [TOther] offline) TOther [])
      as (w' & E & _ & _ & Hf & _).
    + vm_compute. reflexivity.
    + left. reflexivity.
    + exact I.
    + reflexivity.
    + exists w'. split; [exact E | apply Hf; reflexivity].
  - eexists.
    apply (proj2 (failed_load_commits_nothing (H := R)) 0%nat portal None
             (session ∅ [Navigator.default_url] [TDigits 0; TOther] offline)
             portal_menu 0%nat [TOther] portal_entry None sub_url
             (py "sub.w3u") JNull).
    + reflexivity.
    + reflexivity.
    + simpl. lia.
    + reflexivity.
    + reflexivity.
    + discriminate.
    + vm_compute. reflexivity.
    + vm_compute. reflexivity.
    + vm_compute. reflexivity.
    + reflexivity.
Defined.

(** C9, at its failing input: the body [[1]] is valid JSON, so the load
    returns the list [[1]], which is not empty; the first statement of
    the page, [data.get('name', 'Unknown')], then raises
    [AttributeError], at the root as well as after the selection of a
    sub-document entry, where the URL has been pushed on the history
    and the exception leaves every frame. *)
Theorem valid_json_list_raises (fuel : nat) :
  Json.loads (Sanitizer.clean_json (pyj "[1]")) = Some (JArr [JNum 1])
  /\ render (JArr [JNum 1]) = Raise AttributeError
  /\ (exists w',
        @main R (S fuel) (session ∅ [] [TOther] (serving (pyj "[1]")))
        = Raised AttributeError w')
  /\ (exists w',
        @main R (S (S fuel))
          (session ∅ [] [TDigits 0; TOther] (serving_two portal_text (pyj "[1]")))
        = Raised AttributeError w'
        /\ history w' = [Navigator.default_url; sub_url]).
Proof.
  split; [vm_compute; reflexivity |].
  split; [reflexivity |].
  split.
  - unfold main, navigate_w3u, enter. rewrite !bind_run.
    destruct (@fetch_w3u R default_url
                (set_history [] (session ∅ [] [TOther] (serving (pyj "[1]")))))
      as [d w1 | e w1 |] eqn:E; vm_compute in E; try discriminate.
    injection E as <- <-. cbv beta iota.
    change (truthy (JArr [JNum 1])) with true. cbv beta iota.
    rewrite bind_run. unfold history_append, ret. cbv beta iota.
    match goal with |- context [loop _ _ _ ?w] => set (w1 := w) end.
    destruct (loop_render_raises (H := R) fuel (JArr [JNum 1]) None w1
                AttributeError eq_refl) as (w' & E & _).
    exists w'. exact E.
  - unfold main, navigate_w3u, enter. rewrite !bind_run.
    destruct (@fetch_w3u R default_url
                (set_history []
                   (session ∅ [] [TDigits 0; TOther]
                      (serving_two portal_text (pyj "[1]")))))
      as [d w1 | e w1 |] eqn:E; vm_compute in E; try discriminate.
    injection E as <- <-. cbv beta iota.
    match goal with |- context [truthy ?d] =>
      change (truthy d) with true; change d with portal end.
    cbv beta iota.
    rewrite bind_run. unfold history_append, ret. cbv beta iota.
    match goal with |- context [loop _ _ _ ?w] => set (w1 := w) end.
    rewrite (loop_turn (H := R) (S fuel) portal None w1 portal_menu
               (TDigits 0) [TOther] eq_refl eq_refl).
    change (0 <? option_index portal_menu)%nat with true. cbv iota.
    change (options portal_menu !! 0%nat) with (Some (portal_entry, @None json)).
    cbv beta iota.
    change (get portal_entry (py "url") JNull) with (Ok (JStr sub_url)).
    rewrite bind_run, lift_ok. cbv beta iota.
    rewrite target_str.
    change (bool_decide (sub_url = [])) with false. cbv iota.
    rewrite bind_run, lift_ok. cbv beta iota.
    change (alias_rewrite sub_url) with sub_url.
    change (classify sub_url) with SubDocument. cbv iota.
    rewrite bind_run, (get_filename_run (H := R) sub_url (py "sub.w3u"))
      by (vm_compute; reflexivity).
    cbv beta iota. rewrite bind_run.
    unfold navigate_w3u, enter. rewrite !bind_run.
    destruct (@fetch_w3u R sub_url (at_choice None portal_menu [TOther] w1))
      as [d w2 | e w2 |] eqn:E; vm_compute in E; try discriminate.
    injection E as <- <-. cbv beta iota.
    change (truthy (JArr [JNum 1])) with true. cbv beta iota.
    rewrite bind_run. unfold history_append, ret. cbv beta iota.
    match goal with |- context [loop _ _ _ ?w] => set (w2 := w) end.
    destruct (loop_render_raises (H := R) fuel (JArr [JNum 1])
                (Some (py "sub.w3u")) w2 AttributeError eq_refl)
      as (w' & E & Hh & _).
    rewrite E. exists w'. split; [reflexivity |].
    rewrite Hh. reflexivity.
Qed.

End ReferenceRuns.

(** * Further properties of the program *)

Section SanitizerProperties.
Import Sanitizer SanitizerFacts Deleted DeletedFacts.

(** X1: [clean_json] only deletes, and only commas, whitespace and
    control characters: its result is a subsequence of the text, every
    other character of the text is still there, in the order it had, and
    no control character is left. *)
Theorem clean_json_only_deletes (content : str) :
  sublist (clean_json content) content
  /\ kept (clean_json content) = kept content
  /\ control_free (clean_json content) = true.
Proof.
  unfold clean_json. split; [| split].
  - transitivity (remove_trailing_commas content).
    + apply remove_control_sublist.
    + apply remove_trailing_commas_sublist.
  - rewrite kept_remove_control. apply kept_remove_trailing_commas.
  - apply control_free_clean. apply remove_control_clean.
Qed.

(** X2: the texts that [clean_json] returns as they are, are exactly the
    texts in which no comma is followed by optional whitespace and a
    closing brace or bracket, and in which there is no control
    character. *)
Theorem clean_json_fixed_iff (content : str) :
  clean_json content = content
  <-> no_match content = true /\ control_free content = true.
Proof.
  unfold clean_json. split.
  - intros Hfix.
    pose proof (remove_control_length (remove_trailing_commas content)) as H2.
    pose proof (remove_trailing_commas_length content) as H1.
    rewrite Hfix in H2.
    destruct (no_match content) eqn:Em.
    + split; [reflexivity |].
      rewrite (no_match_fixed _ Em) in Hfix.
      apply remove_control_same_length. rewrite Hfix. reflexivity.
    + pose proof (match_shrinks _ Em). lia.
  - intros [Hm Hc].
    rewrite (no_match_fixed _ Hm). apply remove_control_fixed. exact Hc.
Qed.

(** X3: sanitizing a second time changes nothing exactly on the texts
    in which every comma that is followed, across whitespace, control
    characters and further commas only, by a closing brace or bracket is
    separated from that closer by whitespace alone; on every other text
    the second application takes out at least one more character. *)
Theorem clean_json_idempotent_iff (x : str) :
  (clean_json (clean_json x) = clean_json x
   <-> SanitizerSpec.single_trailing_commas x = true)
  /\ (SanitizerSpec.single_trailing_commas x = false ->
      (length (clean_json (clean_json x)) < length (clean_json x))%nat).
Proof.
  assert (Hshrink :
    SanitizerSpec.no_pending (clean_json x) = false ->
    (length (clean_json (clean_json x)) < length (clean_json x))%nat).
  { intros E.
    pose proof (pending_shrinks _ (remove_control_clean _) E) as Hlt.
    fold (clean_json x) in Hlt.
    pose proof (remove_control_length
                  (remove_trailing_commas (clean_json x))) as Hle.
    fold (clean_json (clean_json x)) in Hle. lia. }
  assert (Hpending :
    SanitizerSpec.no_pending (clean_json x) = true ->
    SanitizerSpec.single_trailing_commas x = true).
  { intros E. apply no_pending_single.
    rewrite <- no_pending_remove_control. exact E. }
  split; [split |].
  - intros Hfix.
    destruct (SanitizerSpec.no_pending (clean_json x)) eqn:E;
      [exact (Hpending eq_refl) |].
    specialize (Hshrink eq_refl). rewrite Hfix in Hshrink. lia.
  - intros Hs. unfold clean_json.
    rewrite no_pending_fixed; [apply remove_control_idem |].
    rewrite no_pending_remove_control. apply single_no_pending. exact Hs.
  - intros Hs. apply Hshrink.
    destruct (SanitizerSpec.no_pending (clean_json x)) eqn:E;
      [| reflexivity].
    rewrite (Hpending eq_refl) in Hs. discriminate.
Qed.

End SanitizerProperties.

Section LoaderProperties.
Import Py Effects Loader Navigator.
Import RunFacts Frame FrameFacts LoaderFacts LoaderRuns.
Context `{PyLib}.

(** X4: [revalidate_and_clean_cache] writes the file only with a text
    that [json.loads] accepts, the sanitized text of the file, and then
    returns what that text reads as; when it raises, for a file that is
    not there or for a text that is invalid even when sanitized, no
    file has changed. *)
Theorem revalidate_writes_only_valid_text (filename : str) (w : world) :
  match revalidate_and_clean_cache filename w with
  | Done data w' =>
      exists content,
        files w !! filename = Some content
        /\ json_loads (Sanitizer.clean_json content) = Some data
        /\ files w' = <[filename := Sanitizer.clean_json content]> (files w)
        /\ trace w' = trace w
  | Raised e w' =>
      files w' = files w
      /\ ((e = OSError /\ files w !! filename = None)
          \/ (e = JSONDecodeError
              /\ trace w' = trace w ++ [Print LValidationError]
              /\ exists content,
                   files w !! filename = Some content
                   /\ json_loads (Sanitizer.clean_json content) = None))
  | OutOfFuel => False
  end.
Proof.
  rewrite revalidate_run.
  destruct (files w !! filename) as [content |] eqn:Ef.
  - destruct (json_loads (Sanitizer.clean_json content)) as [data |] eqn:Ej.
    + exists content. repeat split. exact Ej.
    + split; [reflexivity |]. right.
      split; [reflexivity |]. split; [reflexivity |].
      exists content. split; [reflexivity | exact Ej].
  - split; [reflexivity |]. left. split; reflexivity.
Qed.

(** X5: however a load ends, it has left the history and every file
    but the cache file of its URL as they were, has made one request at
    most and has read one typed line at most; a load never runs out of
    fuel. *)
Theorem load_touches_only_its_slot (url : str) (w : world) :
  match fetch_w3u url w with
  | Done _ w' | Raised _ w' =>
      history w' = history w
      /\ (forall name,
            cache_name url <> Some name ->
            files w' !! name = files w !! name)
      /\ (requests w' = requests w \/ requests w' = S (requests w))
      /\ (stdin w' = stdin w \/ stdin w' = tail (stdin w))
  | OutOfFuel => False
  end.
Proof.
  destruct (cache_name url) as [f |] eqn:En.
  2:{ rewrite (fetch_w3u_bad_url _ _ En).
      repeat split; left; reflexivity. }
  unfold fetch_w3u.
  rewrite bind_run, (get_filename_run _ _ _ En). cbv beta iota.
  rewrite bind_run.
  destruct (from_cache_cases f w)
    as [[Ef E] | [(c & d & Ef & Ej & E) | (c & Ef & Ej & E)]];
    rewrite E; cbv beta iota.
  - pose proof (from_network_frame url f w) as Hf.
    destruct (from_network url f w) as [d w' | e w' |]; [| | exact Hf];
      destruct Hf as (Hh & _ & Hfiles & Hr & Hi);
      (split; [exact Hh |]); (split; [| split; [right; exact Hr | exact Hi]]);
      intros name Hne; apply Hfiles; congruence.
  - unfold ret. split; [reflexivity |].
    split; [| split; left; reflexivity].
    intros name Hne. cbn. apply lookup_insert_ne. congruence.
  - match goal with |- context [from_network url f ?w0] =>
      pose proof (from_network_frame url f w0) as Hf;
      destruct (from_network url f w0) as [d w' | e w' |]; [| | exact Hf]
    end;
      destruct Hf as (Hh & _ & Hfiles & Hr & Hi);
      (split; [exact Hh |]); (split; [| split; [right; exact Hr | exact Hi]]);
      intros name Hne; rewrite Hfiles by congruence;
      cbn; apply lookup_delete_ne; congruence.
Qed.

(** X6: every failure of the request and every invalid text is caught:
    neither a [RequestException] nor a [JSONDecodeError] leaves a load.
    An exception that no handler of the load names does leave it:
    [ValueError], before anything is done, for a URL that [urlparse]
    refuses. *)
Theorem load_catches_request_and_json_errors (url : str) (w : world) :
  (forall e w', fetch_w3u url w = Raised e w' -> is_fetch_error e = false)
  /\ (cache_name url = None -> fetch_w3u url w = Raised ValueError w).
Proof.
  split.
  - intros e w' E.
    destruct (cache_name url) as [f |] eqn:En.
    2:{ rewrite (fetch_w3u_bad_url _ _ En) in E. injection E as <- _.
        reflexivity. }
    unfold fetch_w3u in E.
    rewrite bind_run, (get_filename_run _ _ _ En) in E. cbv beta iota in E.
    rewrite bind_run in E.
    destruct (from_cache_cases f w)
      as [[Ef Ec] | [(c & d & Ef & Ej & Ec) | (c & Ef & Ej & Ec)]];
      rewrite Ec in E; cbv beta iota in E.
    + destruct (from_network_raised _ _ _ _ _ E) as [-> _]. reflexivity.
    + discriminate.
    + destruct (from_network_raised _ _ _ _ _ E) as [-> _]. reflexivity.
  - apply fetch_w3u_bad_url.
Qed.

(** X7: the cache file is named after the last segment of the path
    alone, so two URLs with the same file name share it: once a load of
    one URL has returned a Document, a load of the other URL is answered
    from that file, with no request, and returns what the file reads as,
    which is what a load of the first URL returns as well. *)
Theorem same_file_name_shares_the_cache
    (url1 url2 f : str) (w w1 : world) (d : json) :
  cache_name url1 = Some f ->
  cache_name url2 = Some f ->
  fetch_w3u url1 w = Done d w1 ->
  truthy d = true ->
  exists text,
    files w1 !! f = Some text
    /\ (text = json_dump d \/ json_loads text = Some d)
    /\ forall w2 d',
         files w2 !! f = Some text ->
         json_loads (Sanitizer.clean_json text) = Some d' ->
         exists w3,
           fetch_w3u url2 w2 = Done d' w3
           /\ fetch_w3u url1 w2 = Done d' w3
           /\ requests w3 = requests w2
           /\ trace w3 = trace w2.
Proof.
  intros Hn1 Hn2 Hf Ht.
  destruct (fetch_w3u_done_slot _ _ _ _ Hf Ht) as (f' & text & Hn & Hs & Hd).
  assert (f' = f) by congruence. subst f'.
  exists text. split; [exact Hs |]. split; [exact Hd |].
  intros w2 d' Hs2 Hj.
  exists (set_files (<[f := Sanitizer.clean_json text]> (files w2)) w2).
  split; [apply fetch_w3u_cached; assumption |].
  split; [apply fetch_w3u_cached; assumption |].
  split; reflexivity.
Qed.

(** X8: a response that is valid JSON but false in [if not data], such
    as [{}], [[]], [null] or [0], is written to the cache file like any
    Document, and [navigate_w3u] then returns at once: no page is shown,
    nothing is pushed on the history and no line is read. *)
Theorem empty_document_cached_not_shown
    (fuel : nat) (url f : str) (cache_message : option str)
    (w : world) (r : response) (d : json) :
  cache_name url = Some f ->
  files w !! f = None ->
  network w (requests w) url = Some r ->
  Str.startswith (py "#EXTM3U") (Str.strip (resp_text r)) = false ->
  resp_ok r = true ->
  json_loads (Sanitizer.clean_json (resp_text_utf8 r)) = Some d ->
  truthy d = false ->
  exists w',
    navigate_w3u fuel url cache_message w = Done tt w'
    /\ files w' = <[f := json_dump d]> (files w)
    /\ history w' = history w
    /\ stdin w' = stdin w
    /\ trace w' = trace w ++ [HttpGet url; Print (LSaved f)].
Proof.
  intros Hn Hf Hnet Hm Hok Hj Hd.
  assert (Hc : from_cache f w = Done None w).
  { destruct (from_cache_cases f w)
      as [[_ E] | [(c & d' & Ef & _) | (c & Ef & _)]];
      [exact E | congruence | congruence]. }
  pose proof (fetch_w3u_run _ _ _ _ Hn Hc) as Hrun.
  rewrite (from_network_saves _ _ _ _ _ Hnet Hm Hok Hj) in Hrun.
  eexists. split.
  - unfold navigate_w3u, enter. rewrite !bind_run, Hrun. cbv beta iota.
    rewrite Hd. reflexivity.
  - repeat split. cbn. rewrite <- app_assoc. reflexivity.
Qed.

(** X9: a cache file whose text is invalid even when sanitized is
    replaced: the load reports it, removes it, makes the request, and
    when the response is valid and the dump of the new Document is a
    text that UTF-8 writes (it holds no surrogate code point), writes
    that dump under the same name and returns the Document. *)
Theorem corrupt_cache_file_is_replaced
    (url f c : str) (w : world) (r : response) (d : json) :
  cache_name url = Some f ->
  files w !! f = Some c ->
  json_loads (Sanitizer.clean_json c) = None ->
  network w (requests w) url = Some r ->
  Str.startswith (py "#EXTM3U") (Str.strip (resp_text r)) = false ->
  resp_ok r = true ->
  json_loads (Sanitizer.clean_json (resp_text_utf8 r)) = Some d ->
  Utf8.utf8_encodable (json_dump d) = true ->
  exists w',
    fetch_w3u url w = Done d w'
    /\ files w' = <[f := json_dump d]> (files w)
    /\ history w' = history w
    /\ stdin w' = stdin w
    /\ requests w' = S (requests w)
    /\ trace w' = trace w ++ [Print LValidationError; Print (LCacheError f);
                              HttpGet url; Print (LSaved f)].
Proof.
  intros Hn Hf Hbad Hnet Hm Hok Hj _.
  destruct (from_cache_cases f w)
    as [[Ef _] | [(c' & d' & Ef & Ej & _) | (c' & Ef & Ej & E)]];
    [congruence | congruence |].
  rewrite (fetch_w3u_run _ _ _ _ Hn E).
  rewrite (from_network_saves url f _ r d); [| exact Hnet | exact Hm | exact Hok | exact Hj].
  eexists. split; [reflexivity |]. repeat split.
  - cbn. apply insert_delete_eq.
  - cbn. rewrite <- !app_assoc. reflexivity.
Qed.

(** X10: the cache file of a plain Document changes once at most after
    it was written: the first load from the dump rewrites the file
    without its line feeds, and a load from that text returns the same
    Document and leaves the world as it found it; the library is taken
    to read the dump without its line feeds as the Document. *)
Theorem cache_file_settles_after_one_reload
    (url f : str) (w : world) (d : json) :
  cache_name url = Some f ->
  Plain.plain d = true ->
  json_loads (Plain.without_line_feeds (Json.dump d)) = Some d ->
  files w !! f = Some (Json.dump d) ->
  exists w1,
    fetch_w3u url w = Done d w1
    /\ files w1 = <[f := Plain.without_line_feeds (Json.dump d)]> (files w)
    /\ fetch_w3u url w1 = Done d w1.
Proof.
  intros Hn Hp Hj Hs.
  exists (set_files (<[f := Plain.without_line_feeds (Json.dump d)]> (files w)) w).
  split; [apply CacheFacts.plain_dump_reloads; assumption |].
  split; [reflexivity |].
  rewrite (fetch_w3u_cached url f _ (Plain.without_line_feeds (Json.dump d)) d);
    [| exact Hn | apply lookup_insert_eq
     | rewrite (SettleFacts.clean_json_flat_dump d Hp); exact Hj].
  rewrite (SettleFacts.clean_json_flat_dump d Hp).
  f_equal. unfold set_files. cbn. rewrite insert_insert_eq. reflexivity.
Qed.

End LoaderProperties.

Section NavigatorProperties.
Import Py Classifier Menu Effects Loader Navigator Screen.
Import RunFacts Frame FrameFacts LoaderFacts LoaderRuns TargetFacts.
Import NavigatorFacts NavigatorRuns.
Context `{PyLib}.

(** X11: a typed line that is not empty, is none of [q] and [b] and is
    not made of digits only ([y] is such a line), or a number that is
    not below the number of options, changes nothing: the notice is
    printed, a line is awaited and the same page is shown again, with
    the history and the files as they were and no request made.  A line
    of which [isdigit()] holds and that [int()] cannot read is no such
    line: the [ValueError] of [int()] leaves the loop once the page has
    been shown. *)
Theorem invalid_choice_redisplays
    (fuel : nat) (data : json) (cache_message : option str)
    (w : world) (m : menu) :
  render data = Ok m ->
  (forall c l rest,
     stdin w = c :: l :: rest ->
     c = TOther \/ c = TYes
     \/ (exists n, c = TDigits n /\ (option_index m <= n)%nat) ->
     exists w',
       loop (S fuel) data cache_message w = loop fuel data None w'
       /\ history w' = history w
       /\ files w' = files w
       /\ requests w' = requests w
       /\ stdin w' = rest
       /\ trace w' = trace w ++ shown cache_message m
                     ++ [Print LInvalidChoice; Asked PEnter])
  /\ (forall rest,
        stdin w = TBadDigits :: rest ->
        loop (S fuel) data cache_message w
        = Raised ValueError (at_choice cache_message m rest w)).
Proof.
  intros Hr. split.
  - intros c l rest Hin Hc.
    exists (set_stdin rest
              (log [Print LInvalidChoice; Asked PEnter]
                 (at_choice cache_message m (l :: rest) w))).
    split.
    + rewrite (loop_turn _ _ _ _ _ _ _ Hr Hin).
      destruct Hc as [-> | [-> | (n & -> & Hn)]].
      * apply (invalid_run _ _ l rest). reflexivity.
      * apply (invalid_run _ _ l rest). reflexivity.
      * apply Nat.ltb_ge in Hn. rewrite Hn.
        apply (invalid_run _ _ l rest). reflexivity.
    + repeat split. unfold at_choice, set_stdin, log. cbn [trace].
      rewrite <- app_assoc. reflexivity.
  - intros rest Hin.
    rewrite (loop_turn _ _ _ _ _ _ _ Hr Hin). reflexivity.
Qed.

(** X12: the selection of an entry that has no [url], or whose [url] is
    the empty string, does nothing: the same page is shown again and
    nothing is printed, launched, requested, pushed or written. *)
Theorem entry_without_url_ignored
    (fuel : nat) (data : json) (cache_message : option str)
    (w : world) (m : menu) (n : nat) (rest : list typed)
    (items : list (str * json)) (parent : option json) :
  render data = Ok m ->
  stdin w = TDigits n :: rest ->
  (n < option_index m)%nat ->
  options m !! n = Some (JObj items, parent) ->
  assoc (py "url") items = None \/ assoc (py "url") items = Some (JStr []) ->
  exists w',
    loop (S fuel) data cache_message w = loop fuel data None w'
    /\ history w' = history w
    /\ files w' = files w
    /\ requests w' = requests w
    /\ stdin w' = rest
    /\ trace w' = trace w ++ shown cache_message m.
Proof.
  intros Hr Hin Hlt Hopt Hurl.
  exists (at_choice cache_message m rest w). split.
  - assert (Hv : exists v, get (JObj items) (py "url") JNull = Ok v
                           /\ truthy v = false).
    { destruct Hurl as [E | E]; simpl; rewrite E; eauto. }
    destruct Hv as (v & Hget & Hv).
    rewrite (loop_select _ _ _ _ _ _ _ _ _ _ Hr Hin Hlt Hopt Hget).
    rewrite (target_falsy _ Hv), bind_run, lift_ok. reflexivity.
  - repeat split.
Qed.




(** X16: on [b] or an empty line with more than one URL in the history,
    when the reload of the previous URL returns no Document the call
    returns: the page is left without another page being shown, and the
    history has lost both the URL of the page and the previous one. *)
Theorem back_with_failed_reload_leaves_page
    (fuel : nat) (data : json) (cache_message : option str)
    (w : world) (m : menu) (c : typed) (rest : list typed)
    (h : list str) (previous_url current_url : str)
    (d : json) (w2 : world) :
  render data = Ok m ->
  c = TBack \/ c = TEmpty ->
  stdin w = c :: rest ->
  history w = h ++ [previous_url; current_url] ->
  fetch_w3u previous_url (set_history h (at_choice cache_message m rest w))
  = Done d w2 ->
  truthy d = false ->
  loop (S fuel) data cache_message w = Done tt w2
  /\ history w2 = h.
Proof.
  intros Hr Hc Hin Hh Hf Hd. split.
  - rewrite (loop_turn _ _ _ _ _ _ _ Hr Hin).
    assert (Hback :
      back (fun url => navigate_w3u fuel url None) (loop fuel data None)
           (at_choice cache_message m rest w)
      = Done tt w2).
    { rewrite (back_pops _ _ _ h previous_url current_url)
        by (rewrite history_at_choice; exact Hh).
      rewrite (navigate_run _ _ _ _ _ _ Hf), Hd. reflexivity. }
    destruct Hc as [-> | ->]; exact Hback.
  - rewrite (fetch_w3u_done_history _ _ _ _ Hf). reflexivity.
Qed.

(** X17: the notice [new file saved in cache] is no report of what the
    load did: when the cache file of the selected sub-document is there
    and valid, the page is opened with no request made and no dump
    written, and its first screen still carries the notice. *)
Theorem cached_page_shows_saved_notice
    (fuel : nat) (data : json) (cache_message : option str)
    (w : world) (m : menu) (n : nat) (rest : list typed)
    (selected : json) (parent : option json) (u f c : str)
    (d : json) (m' : menu) :
  render data = Ok m ->
  stdin w = TDigits n :: TQuit :: rest ->
  (n < option_index m)%nat ->
  options m !! n = Some (selected, parent) ->
  get selected (py "url") JNull = Ok (JStr u) ->
  u <> [] ->
  classify (alias_rewrite u) = SubDocument ->
  cache_name (alias_rewrite u) = Some f ->
  files w !! f = Some c ->
  json_loads (Sanitizer.clean_json c) = Some d ->
  truthy d = true ->
  render d = Ok m' ->
  exists w3,
    loop (S (S fuel)) data cache_message w = loop (S fuel) data None w3
    /\ requests w3 = requests w
    /\ files w3 = <[f := Sanitizer.clean_json c]> (files w)
    /\ trace w3 = trace w ++ shown cache_message m
                  ++ Clear :: Print (LCacheMessage f)
                     :: List.map Print (printed m')
                     ++ [Print LBackQuit; Asked PChoose].
Proof.
  intros Hr Hin Hlt Hopt Hurl Hu Hk Hn Hf Hj Ht Hr'.
  pose proof (fetch_w3u_cached (alias_rewrite u) f
                (at_choice cache_message m (TQuit :: rest) w) c d Hn Hf Hj)
    as Hfetch.
  match type of Hfetch with _ = Done _ ?x => set (w1 := x) in * end.
  exists (at_choice (Some f) m' rest
            (set_history (history w1 ++ [alias_rewrite u]) w1)).
  split.
  - rewrite (loop_select_url _ _ _ _ _ _ _ _ _ _ Hr Hin Hlt Hopt Hurl Hu).
    rewrite Hk, bind_run, (get_filename_run _ _ _ Hn). cbv beta iota.
    rewrite bind_run, (navigate_run _ _ _ _ _ _ Hfetch), Ht.
    rewrite (loop_turn fuel d (Some f)
               (set_history (history w1 ++ [alias_rewrite u]) w1)
               m' TQuit rest Hr' eq_refl).
    reflexivity.
  - repeat split.
    unfold w1, at_choice, set_stdin, set_history, set_files, log.
    cbn [trace]. rewrite <- app_assoc. reflexivity.
Qed.

(** X18: the selection of a sub-document entry whose URL [urlparse]
    refuses ends the session: [get_filename_from_url] raises
    [ValueError] while the arguments of the call are evaluated, outside
    every [try], before any request is made and with the history and the
    files as they were. *)
Theorem refused_url_ends_session
    (fuel : nat) (data : json) (cache_message : option str)
    (w : world) (m : menu) (n : nat) (rest : list typed)
    (selected : json) (parent : option json) (u : str) :
  render data = Ok m ->
  stdin w = TDigits n :: rest ->
  (n < option_index m)%nat ->
  options m !! n = Some (selected, parent) ->
  get selected (py "url") JNull = Ok (JStr u) ->
  u <> [] ->
  classify (alias_rewrite u) = SubDocument ->
  cache_name (alias_rewrite u) = None ->
  exists w',
    loop (S fuel) data cache_message w = Raised ValueError w'
    /\ history w' = history w
    /\ files w' = files w
    /\ requests w' = requests w
    /\ trace w' = trace w ++ shown cache_message m.
Proof.
  intros Hr Hin Hlt Hopt Hurl Hu Hk Hn.
  exists (at_choice cache_message m rest w). split.
  - rewrite (loop_select_url _ _ _ _ _ _ _ _ _ _ Hr Hin Hlt Hopt Hurl Hu).
    rewrite Hk, bind_run. unfold get_filename_from_url.
    unfold cache_name in Hn.
    destruct (url_basename (alias_rewrite u)); [discriminate | reflexivity].
  - repeat split.
Qed.


(** X20: the session ends.  With more fuel than there are typed lines,
    [main] returns or raises and never runs out of fuel, since every
    turn of every page reads a line before anything else is called; and
    a page that finds no line to read ends with [EOFError], which
    nothing catches. *)
Theorem session_ends (fuel : nat) :
  (forall w,
     (length (stdin w) < fuel)%nat ->
     exists w',
       (main fuel w = Done tt w' \/ exists e, main fuel w = Raised e w')
       /\ (length (stdin w') <= length (stdin w))%nat)
  /\ (forall data cache_message w m,
        render data = Ok m ->
        stdin w = [] ->
        exists w',
          loop (S fuel) data cache_message w = Raised EOFError w'
          /\ history w' = history w
          /\ files w' = files w).
Proof.
  split.
  - intros w Hlen. unfold main, navigate_w3u.
    assert (Hr : returns (length (stdin w))
                   (bind (enter default_url) (fun entered =>
                      match entered with
                      | Some data => loop fuel data None
                      | None => ret tt
                      end))).
    { apply Termination.returns_bind; [apply Termination.returns_enter |].
      intros [data |];
        [apply Termination.returns_loop; exact Hlen
        | apply Termination.returns_ret]. }
    specialize (Hr (set_history [] w) ltac:(simpl; lia)).
    destruct (bind _ _ _) as [[] w' | e w' |]; [| | contradiction].
    + exists w'. split; [left; reflexivity | exact Hr].
    + exists w'. split; [right; exists e; reflexivity | exact Hr].
  - intros data cache_message w m Hr Hin. cbn [loop].
    rewrite bind_run, emit_run. cbv beta iota. rewrite bind_run.
    assert (Hmsg : exists evs,
      (match cache_message with
       | Some filename => print (LCacheMessage filename)
       | None => ret tt
       end) (log [Clear] w) = Done tt (log evs w)).
    { destruct cache_message as [filename |].
      - eexists. rewrite print_run, log_log. reflexivity.
      - exists [Clear]. reflexivity. }
    destruct Hmsg as [evs ->]. cbv beta iota.
    rewrite Hr, bind_run, lift_ok. cbv beta iota.
    rewrite bind_run, print_all_run. cbv beta iota.
    rewrite bind_run, print_run. cbv beta iota.
    rewrite bind_run, input_eof by exact Hin.
    eexists. repeat split.
Qed.

(** X21: the first load fails: when the cache does not answer for the
    start URL and the request for it fails, the session ends once the
    line awaited after the error notice is typed; no page is shown, no
    file is written and the history is empty. *)
Theorem start_failure_ends_session
    (fuel : nat) (f : str) (w : world) (l : typed) (rest : list typed) :
  cache_name default_url = Some f ->
  cache_misses f w ->
  fetch_fails default_url w ->
  stdin w = l :: rest ->
  exists w',
    main fuel w = Done tt w'
    /\ history w' = []
    /\ nothing_written w w'
    /\ stdin w' = rest
    /\ exists evs,
         trace w' = trace w ++ evs ++ [Print (LFetchError default_url);
                                       Asked PEnter].
Proof.
  intros Hn Hm Hfail Hin. unfold main.
  destruct (cache_misses_run f (set_history [] w) Hm)
    as (w0 & Hc & Hf0 & Hh0 & Hi0 & Hr0 & Hn0 & checked & Ht0 & Hck).
  destruct (from_network_fails default_url f w0 l rest)
    as (w' & E & Hf & Hh & Hi & evs & Ht).
  { unfold fetch_fails. rewrite Hn0, Hr0. exact Hfail. }
  { rewrite Hi0. exact Hin. }
  assert (Hfetch : fetch_w3u default_url (set_history [] w) = Done JNull w').
  { rewrite (fetch_w3u_run _ _ _ _ Hn Hc). exact E. }
  exists w'. split; [| split; [| split; [| split]]].
  - rewrite (navigate_run _ _ _ _ _ _ Hfetch). reflexivity.
  - rewrite Hh, Hh0. reflexivity.
  - apply (delete_nothing_written f). rewrite Hf, Hf0. reflexivity.
  - exact Hi.
  - exists (checked ++ HttpGet default_url :: evs).
    rewrite Ht, Ht0. cbn. rewrite <- !app_assoc. reflexivity.
Qed.

(** X22: between the first load and the end of the session the program
    makes no request that a typed line has not asked for: a page never
    makes more requests than it reads lines, and the whole session makes
    at most one request more than it reads lines, the one for the start
    URL. *)
Theorem no_request_without_a_typed_line (fuel : nat) :
  (forall data cache_message, Pace.paced 0 (loop fuel data cache_message))
  /\ Pace.paced 1 (main fuel).
Proof.
  split.
  - intros data cache_message. apply PaceFacts.paced_loop.
  - intros w. unfold main, navigate_w3u.
    assert (Hp : Pace.paced 1
                   (bind (enter default_url) (fun entered =>
                      match entered with
                      | Some data => loop fuel data None
                      | None => ret tt
                      end))).
    { apply PaceFacts.paced_first; [apply PaceFacts.paced_enter |].
      intros [data |];
        [apply PaceFacts.paced_loop | apply PaceFacts.paced_ret]. }
    exact (Hp (set_history [] w)).
Qed.

End NavigatorProperties.

Section ClassifierProperties.
Import Str Py Classifier Navigator StrFacts ClassifierFacts TargetFacts.

(** X23: every URL that contains [pastebin.com] and not [raw] is
    dispatched as a sub-document, on the URL with [pastebin.com/raw] for
    [pastebin.com], whatever the URL ends with: the test for a
    sub-document comes before the test for media. *)
Theorem pastebin_urls_are_sub_documents (u : str) :
  contains (py "pastebin.com") u = true ->
  contains (py "raw") u = false ->
  alias_rewrite u = replace (py "pastebin.com") (py "pastebin.com/raw") u
  /\ contains (py "pastebin.com/raw") (alias_rewrite u) = true
  /\ classify (alias_rewrite u) = SubDocument
  /\ target (JStr u) = Ok (Some (alias_rewrite u, SubDocument)).
Proof.
  intros Hp Hr.
  assert (Ha : alias_rewrite u
               = replace (py "pastebin.com") (py "pastebin.com/raw") u).
  { unfold alias_rewrite. rewrite Hp, Hr. reflexivity. }
  assert (Hc : contains (py "pastebin.com/raw") (alias_rewrite u) = true).
  { rewrite Ha.
    destruct (replace_contains_new (py "pastebin.com") (py "pastebin.com/raw") u)
      as (a & b & E); [discriminate | exact Hp |].
    rewrite E. apply contains_spec. exists a, b. reflexivity. }
  assert (Hk : classify (alias_rewrite u) = SubDocument).
  { unfold classify, is_sub_document. rewrite Hc, !orb_true_r. reflexivity. }
  split; [exact Ha |]. split; [exact Hc |]. split; [exact Hk |].
  rewrite target_str, Hk.
  rewrite bool_decide_eq_false_2; [reflexivity |].
  apply (contains_nonempty (py "pastebin.com")); [discriminate | exact Hp].
Qed.

End ClassifierProperties.

Section MenuProperties.
Import Py Menu Document Lines LinesFacts.

(** X24: the screen of a Document.  The first line is the name of the
    Document, [Unknown] when it has none; then one line for each entry
    of the two-level rule, in its order, numbered from 0: a top-level
    group or station without indentation, a station of a group and a
    nested group under two spaces, a station of a nested group under
    four; each line shows the name of its entry, or the name that stands
    for an entry of its kind without one, and its URL without a leading
    [https://], or [No URL]. *)
Theorem render_lines (data : json) :
  is_document data = true ->
  exists m,
    render data = Ok m
    /\ printed m = LName (shown_name "Unknown" data) :: number 0 (rows data)
    /\ List.map fst (options m) = List.map snd (rows data)
    /\ option_index m = length (rows data).
Proof.
  unfold is_document.
  destruct data as [| | | | | items |]; try discriminate.
  intros H. apply andb_true_iff in H as [Hg Hs].
  set (m0 := {| option_index := 0; options := [];
                printed := [LName (shown_name "Unknown" (JObj items))] |}).
  assert (Hfin : forall m rs,
             lined m0 m rs ->
             printed m = LName (shown_name "Unknown" (JObj items)) :: number 0 rs
             /\ List.map fst (options m) = List.map snd rs
             /\ option_index m = length rs).
  { intros m rs (Gp & Gi & Go). rewrite Gp, Gi, Go. repeat split. }
  unfold render, rows, children, field, get in *.
  simpl.
  change (default (JStr (py "Unknown")) (assoc (py "name") items))
    with (shown_name "Unknown" (JObj items)).
  fold m0.
  destruct (assoc (py "groups") items) as [gv |] eqn:Eg; simpl.
  - destruct gv; try discriminate. simpl in Hg.
    destruct items0 as [| g gs].
    + simpl.
      destruct (assoc (py "stations") items) as [sv |] eqn:Es; simpl.
      * destruct sv; try discriminate. simpl in Hs.
        destruct items0 as [| s ss]; simpl.
        -- exists m0. repeat split.
        -- destruct (stations_lined 0 "Unnamed Station" None (s :: ss) m0 Hs)
             as (m & E & G).
           exists m. split; [exact E |]. exact (Hfin _ _ G).
      * exists m0. repeat split.
    + change (truthy (JArr (g :: gs))) with true. cbv iota.
      change (iterate (JArr (g :: gs))) with (Ok (g :: gs)).
      destruct (for_each_lined add_group group_rows (g :: gs)) with (m := m0)
        as (m & E & G).
      { intros x Hx m1. apply add_group_lined.
        rewrite forallb_forall in Hg. apply Hg.
        apply list_elem_of_In. exact Hx. }
      exists m. split; [exact E |]. exact (Hfin _ _ G).
  - destruct (assoc (py "stations") items) as [sv |] eqn:Es; simpl.
    + destruct sv; try discriminate. simpl in Hs.
      destruct items0 as [| s ss]; simpl.
      * exists m0. repeat split.
      * destruct (stations_lined 0 "Unnamed Station" None (s :: ss) m0 Hs)
          as (m & E & G).
        exists m. split; [exact E |]. exact (Hfin _ _ G).
    + exists m0. repeat split.
Qed.

End MenuProperties.

Section FileNameProperties.
Import Effects Loader UrlShape UrlFacts.

(** X25: for a URL [https://host/dirs/name], with a query or a fragment
    after it or not, [get_filename_from_url] returns [name], or
    [default.w3u] when the path ends with a slash: the host, the
    directories, the query and the fragment play no part in the name of
    the cache file, so that all such URLs with the same last segment
    have one cache file.  The host, the directories and the name hold
    no space and no control character (a tab, a line feed or a carriage
    return would be taken out of the name: [tab_leaves_the_name]), the
    host is ASCII without square brackets, and [urlparse] and
    [os.path.basename] are read as in [reference_lib]. *)
Theorem cache_name_is_last_segment (host dirs name suffix : str) :
  well_formed host dirs name suffix = true ->
  (forall w,
     @get_filename_from_url reference_lib
       (https_url host dirs name suffix) w
     = Done (if bool_decide (name = []) then py "default.w3u" else name) w)
  /\ (forall host' dirs' suffix',
        well_formed host' dirs' name suffix' = true ->
        @cache_name reference_lib (https_url host' dirs' name suffix')
        = @cache_name reference_lib (https_url host dirs name suffix)).
Proof.
  intros Hwf.
  assert (Hname : forall h d s,
            well_formed h d name s = true ->
            @cache_name reference_lib (https_url h d name s)
            = Some (if bool_decide (name = []) then py "default.w3u"
                    else name)).
  { intros h d s Hw. unfold cache_name. cbn [url_basename reference_lib].
    rewrite (basename_https h d name s Hw). reflexivity. }
  split.
  - intros w. apply (LoaderFacts.get_filename_run (H := reference_lib)).
    apply Hname. exact Hwf.
  - intros host' dirs' suffix' Hwf'.
    rewrite (Hname _ _ _ Hwf), (Hname _ _ _ Hwf'). reflexivity.
Qed.

(** A name with a tab in it is no name of that shape, and the cache
    file is named without the tab, as [urlsplit] removes it. *)
Lemma tab_leaves_the_name :
  well_formed (py "h") [] (py "a" ++ 9 :: py "b.w3u") [] = false
  /\ https_url (py "h") [] (py "a" ++ 9 :: py "b.w3u") []
     = py "https://h/a" ++ 9 :: py "b.w3u"
  /\ @cache_name reference_lib (py "https://h/a" ++ 9 :: py "b.w3u")
     = Some (py "ab.w3u")
  /\ @cache_name reference_lib (10 :: 32 :: py "https://h/a.w3u")
     = Some (py "a.w3u").
Proof. repeat split; vm_compute; reflexivity. Qed.

End FileNameProperties.

(** ** The properties on concrete sessions, with the library as read in
    [reference_lib] *)

Section ReferenceChecks.
Import Sanitizer SanitizerSpec Deleted.
Import Str Py Classifier Menu Document Lines Effects Loader Navigator Screen.
Import RunFacts Frame FrameFacts LoaderFacts TargetFacts NavigatorFacts.
Import Examples Hub.

Local Abbreviation R := reference_lib.

Lemma clean_json_fixed_iff_witness :
  no_match (pyj "{'a': [1, 2]}") = true
  /\ control_free (pyj "{'a': [1, 2]}") = true
  /\ clean_json (pyj "{'a': [1, 2]}") = pyj "{'a': [1, 2]}".
Proof.
  split; [reflexivity |]. split; [reflexivity |].
  apply (proj2 (clean_json_fixed_iff (pyj "{'a': [1, 2]}"))).
  split; reflexivity.
Defined.

Lemma clean_json_idempotent_iff_witness :
  (single_trailing_commas (pyj "{'a': [1, 2, ], }") = true
   /\ clean_json (clean_json (pyj "{'a': [1, 2, ], }"))
      = clean_json (pyj "{'a': [1, 2, ], }"))
  /\ (single_trailing_commas (py ",,}") = false
      /\ (length (clean_json (clean_json (py ",,}")))
          < length (clean_json (py ",,}")))%nat).
Proof.
  split; (split; [reflexivity |]).
  - apply (proj2 (proj1 (clean_json_idempotent_iff (pyj "{'a': [1, 2, ], }")))).
    reflexivity.
  - apply (proj2 (clean_json_idempotent_iff (py ",,}"))). reflexivity.
Defined.

Lemma same_file_name_shares_the_cache_witness :
  exists w1 w3,
    @fetch_w3u R list_url (session ∅ [] [] (serving root_text)) = Done root w1
    /\ @fetch_w3u R (py "https://other.example/dir/list.w3u?x=1") (unplugged w1)
       = Done root w3
    /\ requests w3 = requests w1.
Proof.
  eexists.
  assert (E : @fetch_w3u R list_url (session ∅ [] [] (serving root_text))
              = Done root ?[w1]) by (vm_compute; reflexivity).
  match type of E with _ = Done _ ?w1 =>
    destruct (same_file_name_shares_the_cache (H := R) list_url
                (py "https://other.example/dir/list.w3u?x=1") (py "list.w3u")
                (session ∅ [] [] (serving root_text)) w1 root)
      as (text & Hs & _ & Hall)
  end.
  - vm_compute. reflexivity.
  - vm_compute. reflexivity.
  - exact E.
  - reflexivity.
  - vm_compute in Hs. injection Hs as <-.
    match type of E with _ = Done _ ?w1 =>
      destruct (Hall (unplugged w1) root) as (w3 & E2 & _ & Hr & _)
    end.
    + vm_compute. reflexivity.
    + vm_compute. reflexivity.
    + exists w3. split; [exact E |]. split; [exact E2 | exact Hr].
Defined.

Lemma empty_document_cached_not_shown_witness :
  exists w',
    @navigate_w3u R 0 list_url None (session ∅ [] [] (serving (py "{}")))
    = Done tt w'
    /\ files w' !! py "list.w3u" = Some (py "{}")
    /\ history w' = []
    /\ trace w' = [HttpGet list_url; Print (LSaved (py "list.w3u"))].
Proof.
  destruct (empty_document_cached_not_shown (H := R) 0 list_url (py "list.w3u")
              None (session ∅ [] [] (serving (py "{}"))) (body (py "{}"))
              (JObj []))
    as (w' & E & Hf & Hh & _ & Ht).
  - vm_compute. reflexivity.
  - reflexivity.
  - reflexivity.
  - vm_compute. reflexivity.
  - reflexivity.
  - vm_compute. reflexivity.
  - reflexivity.
  - exists w'. split; [exact E |].
    split; [rewrite Hf; apply lookup_insert_eq |].
    split; [exact Hh | exact Ht].
Defined.

Lemma corrupt_cache_file_is_replaced_witness :
  exists w',
    @fetch_w3u R list_url
      (session {[ py "list.w3u" := py "{" ]} [] [] (serving root_text))
    = Done root w'
    /\ files w' !! py "list.w3u" = Some (Json.dump root).
Proof.
  destruct (corrupt_cache_file_is_replaced (H := R) list_url (py "list.w3u")
              (py "{")
              (session {[ py "list.w3u" := py "{" ]} [] [] (serving root_text))
              (body root_text) root)
    as (w' & E & Hf & _).
  - vm_compute. reflexivity.
  - vm_compute. reflexivity.
  - vm_compute. reflexivity.
  - reflexivity.
  - vm_compute. reflexivity.
  - reflexivity.
  - vm_compute. reflexivity.
  - vm_compute. reflexivity.
  - exists w'. split; [exact E |]. rewrite Hf. apply lookup_insert_eq.
Defined.

Lemma cache_file_settles_after_one_reload_witness :
  exists w1,
    @fetch_w3u R list_url
      (session {[ py "list.w3u" := Json.dump root ]} [] [] offline)
    = Done root w1
    /\ @fetch_w3u R list_url w1 = Done root w1.
Proof.
  destruct (cache_file_settles_after_one_reload (H := R) list_url
              (py "list.w3u")
              (session {[ py "list.w3u" := Json.dump root ]} [] [] offline)
              root)
    as (w1 & E & _ & E2).
  - vm_compute. reflexivity.
  - reflexivity.
  - vm_compute. reflexivity.
  - vm_compute. reflexivity.
  - exists w1. split; [exact E | exact E2].
Defined.

Lemma load_catches_request_and_json_errors_witness :
  @fetch_w3u R list_url (session ∅ [] [] offline)
  = Raised EOFError
      (set_stdin []
         (log [Print (LFetchError list_url); Asked PEnter]
            (count_request (log [HttpGet list_url] (session ∅ [] [] offline)))))
  /\ is_fetch_error EOFError = false
  /\ @fetch_w3u R (py "https://[h/a.w3u") (session ∅ [] [] offline)
     = Raised ValueError (session ∅ [] [] offline).
Proof.
  assert (E : @fetch_w3u R list_url (session ∅ [] [] offline)
              = Raised EOFError
                  (set_stdin []
                     (log [Print (LFetchError list_url); Asked PEnter]
                        (count_request
                           (log [HttpGet list_url]
                              (session ∅ [] [] offline))))))
    by (vm_compute; reflexivity).
  split; [exact E |].
  split.
  - exact (proj1 (load_catches_request_and_json_errors (H := R) list_url
                    (session ∅ [] [] offline)) _ _ E).
  - apply (proj2 (load_catches_request_and_json_errors (H := R)
                    (py "https://[h/a.w3u") (session ∅ [] [] offline))).
    vm_compute. reflexivity.
Defined.

Lemma cached_page_shows_saved_notice_witness :
  exists w3,
    @loop R 2 hub None
      (session {[ py "sub.w3u" := root_text ]} [hub_url] [TDigits 0; TQuit]
         offline)
    = @loop R 1 hub None w3
    /\ requests w3 = 0%nat
    /\ In (Print (LCacheMessage (py "sub.w3u"))) (trace w3).
Proof.
  destruct (cached_page_shows_saved_notice (H := R) 0 hub None
              (session {[ py "sub.w3u" := root_text ]} [hub_url]
                 [TDigits 0; TQuit] offline)
              hub_menu 0 [] sub None sub_url (py "sub.w3u") root_text root
              root_menu)
    as (w3 & E & Hr & _ & Ht).
  - reflexivity.
  - reflexivity.
  - simpl. lia.
  - reflexivity.
  - reflexivity.
  - discriminate.
  - vm_compute. reflexivity.
  - vm_compute. reflexivity.
  - vm_compute. reflexivity.
  - vm_compute. reflexivity.
  - reflexivity.
  - reflexivity.
  - exists w3. split; [exact E |]. split; [exact Hr |].
    rewrite Ht. apply in_or_app. right. apply in_or_app. right.
    right. left. reflexivity.
Defined.

Lemma cache_name_is_last_segment_witness :
  UrlShape.https_url (py "raw.githubusercontent.com") (py "/u/r/main")
    (py "list.w3u") (py "?token=1")
  = py "https://raw.githubusercontent.com/u/r/main/list.w3u?token=1"
  /\ @cache_name R
       (py "https://raw.githubusercontent.com/u/r/main/list.w3u?token=1")
     = Some (py "list.w3u")
  /\ @cache_name R (py "https://h/list.w3u")
     = @cache_name R
         (py "https://raw.githubusercontent.com/u/r/main/list.w3u?token=1").
Proof.
  split; [reflexivity |].
  destruct (cache_name_is_last_segment (py "raw.githubusercontent.com")
              (py "/u/r/main") (py "list.w3u") (py "?token=1") eq_refl)
    as [Hget Hsame].
  split.
  - specialize (Hget (session ∅ [] [] offline)).
    apply (get_filename_done (H := R)) in Hget. exact (proj1 Hget).
  - exact (Hsame (py "h") [] [] eq_refl).
Defined.

Lemma invalid_choice_redisplays_witness :
  (exists w',
     @loop R 1 root None (session ∅ [list_url] [TDigits 7; TOther] offline)
     = @loop R 0 root None w'
     /\ history w' = [list_url]
     /\ stdin w' = [])
  /\ @loop R 1 root None (session ∅ [list_url] [TBadDigits] offline)
     = Raised ValueError
         (at_choice None root_menu []
            (session ∅ [list_url] [TBadDigits] offline)).
Proof.
  split.
  - destruct (proj1 (invalid_choice_redisplays (H := R) 0 root None
                       (session ∅ [list_url] [TDigits 7; TOther] offline)
                       root_menu eq_refl)
                (TDigits 7) TOther [])
      as (w' & E & Hh & _ & _ & Hi & _).
    + reflexivity.
    + right. right. exists 7%nat. split; [reflexivity | simpl; lia].
    + exists w'. split; [exact E |]. split; [exact Hh | exact Hi].
  - apply (proj2 (invalid_choice_redisplays (H := R) 0 root None
                    (session ∅ [list_url] [TBadDigits] offline)
                    root_menu eq_refl)).
    reflexivity.
Defined.

Lemma entry_without_url_ignored_witness :
  (exists w',
     @loop R 1 hub None (session ∅ [hub_url] [TDigits 3] offline)
     = @loop R 0 hub None w'
     /\ history w' = [hub_url]
     /\ trace w' = shown None hub_menu)
  /\ (exists w',
        @loop R 1 blanks None (session ∅ [hub_url] [TDigits 1] offline)
        = @loop R 0 blanks None w'
        /\ history w' = [hub_url]
        /\ trace w' = shown None blanks_menu).
Proof.
  split.
  - destruct (entry_without_url_ignored (H := R) 0 hub None
                (session ∅ [hub_url] [TDigits 3] offline)
                hub_menu 3 [] [(py "name", JStr (py "Header"))] None)
      as (w' & E & Hh & _ & _ & _ & Ht).
    + reflexivity.
    + reflexivity.
    + simpl. lia.
    + reflexivity.
    + left. reflexivity.
    + exists w'. split; [exact E |]. split; [exact Hh | exact Ht].
  - destruct (entry_without_url_ignored (H := R) 0 blanks None
                (session ∅ [hub_url] [TDigits 1] offline)
                blanks_menu 1 []
                [(py "name", JStr (py "Blank")); (py "url", JStr [])] None)
      as (w' & E & Hh & _ & _ & _ & Ht).
    + reflexivity.
    + reflexivity.
    + simpl. lia.
    + reflexivity.
    + right. reflexivity.
    + exists w'. split; [exact E |]. split; [exact Hh | exact Ht].
Defined.




Lemma back_with_failed_reload_leaves_page_witness :
  exists w2,
    @loop R 1 root None
      (session ∅ [py "https://h/a.w3u"; list_url] [TBack; TOther] offline)
    = Done tt w2
    /\ history w2 = [].
Proof.
  assert (E : @fetch_w3u R (py "https://h/a.w3u")
                (set_history []
                   (at_choice None root_menu [TOther]
                      (session ∅ [py "https://h/a.w3u"; list_url]
                         [TBack; TOther] offline)))
              = Done JNull ?[w2]) by (vm_compute; reflexivity).
  match type of E with _ = Done _ ?w2 =>
    destruct (back_with_failed_reload_leaves_page (H := R) 0 root None
                (session ∅ [py "https://h/a.w3u"; list_url]
                   [TBack; TOther] offline)
                root_menu TBack [TOther] [] (py "https://h/a.w3u") list_url
                JNull w2)
      as (E2 & Hh)
  end.
  - reflexivity.
  - left. reflexivity.
  - reflexivity.
  - reflexivity.
  - exact E.
  - reflexivity.
  - eexists. split; [exact E2 | exact Hh].
Defined.

Lemma refused_url_ends_session_witness :
  exists w',
    @loop R 1 hub None (session ∅ [hub_url] [TDigits 4] offline)
    = Raised ValueError w'
    /\ history w' = [hub_url]
    /\ requests w' = 0%nat.
Proof.
  destruct (refused_url_ends_session (H := R) 0 hub None
              (session ∅ [hub_url] [TDigits 4] offline)
              hub_menu 4 [] bad None (py "https://[h/a.w3u"))
    as (w' & E & Hh & _ & Hr & _).
  - reflexivity.
  - reflexivity.
  - simpl. lia.
  - reflexivity.
  - reflexivity.
  - discriminate.
  - vm_compute. reflexivity.
  - vm_compute. reflexivity.
  - exists w'. split; [exact E |]. split; [exact Hh | exact Hr].
Defined.


Lemma session_ends_witness :
  (exists w',
     (@main R 2 (session ∅ [] [TOther] offline) = Done tt w'
      \/ exists e, @main R 2 (session ∅ [] [TOther] offline) = Raised e w')
     /\ (length (stdin w') <= 1)%nat)
  /\ (exists w',
        @loop R 2 root None (session ∅ [list_url] [] offline)
        = Raised EOFError w'
        /\ history w' = [list_url]).
Proof.
  split.
  - apply (proj1 (session_ends (H := R) 2) (session ∅ [] [TOther] offline)).
    simpl. lia.
  - destruct (proj2 (session_ends (H := R) 1) root None
                (session ∅ [list_url] [] offline) root_menu)
      as (w' & E & Hh & _).
    + reflexivity.
    + reflexivity.
    + exists w'. split; [exact E | exact Hh].
Defined.

Lemma start_failure_ends_session_witness :
  exists w',
    @main R 5 (session ∅ [py "old"] [TOther; TQuit] offline) = Done tt w'
    /\ history w' = []
    /\ stdin w' = [TQuit].
Proof.
  destruct (start_failure_ends_session (H := R) 5 (py "XUPERLISTS-1.w3u")
              (session ∅ [py "old"] [TOther; TQuit] offline) TOther [TQuit])
    as (w' & E & Hh & _ & Hi & _).
  - vm_compute. reflexivity.
  - left. reflexivity.
  - exact I.
  - reflexivity.
  - exists w'. split; [exact E |]. split; [exact Hh | exact Hi].
Defined.

Lemma pastebin_urls_are_sub_documents_witness :
  alias_rewrite (py "https://pastebin.com/abc.mp4")
  = py "https://pastebin.com/raw/abc.mp4"
  /\ is_media (py "https://pastebin.com/abc.mp4") = true
  /\ classify (alias_rewrite (py "https://pastebin.com/abc.mp4")) = SubDocument.
Proof.
  destruct (pastebin_urls_are_sub_documents (py "https://pastebin.com/abc.mp4"))
    as (Ha & _ & Hk & _).
  - vm_compute. reflexivity.
  - vm_compute. reflexivity.
  - split; [rewrite Ha; vm_compute; reflexivity |].
    split; [vm_compute; reflexivity | exact Hk].
Defined.

Lemma render_lines_witness :
  is_document root = true
  /\ exists m,
       render root = Ok m
       /\ printed m = [LName (JStr (py "Root"));
                       LOption 0 0 (JStr (py "News")) (py "No URL");
                       LOption 2 1 (JStr (py "CNN")) (py "x/cnn.m3u")].
Proof.
  split; [reflexivity |].
  destruct (render_lines root eq_refl) as (m & E & Hp & _).
  exists m. split; [exact E |]. rewrite Hp. reflexivity.
Defined.

End ReferenceChecks.
